(** * Business-card indexing and deduplicated search: a shallow embedding

    The development follows [src/search_engine.py] (class
    [BusinessCardVectorDB]) and the part of [src/business_card_processor.py]
    that feeds it.

    - Python values that travel through the engine (the JSON record
      returned by the extractor) are the inductive [json]; a [dict] is an
      association list in insertion order, a [str] is a Rocq [string] with
      one character per code point (code points below 256), an [int] is a
      [Z].  Floating-point leaves of a record are outside the value type;
      distances, which are only copied and compared, are rationals.
    - A raised exception is the [Raise] branch of [outcome].
    - The vector store ([chromadb] collection) is an interface
      ([Collection]); the engine is written against it and threads the
      store state and the list of observable events (store calls, printed
      lines) through the monad [M]. *)

From Stdlib Require Import ZArith QArith String Ascii List Lia Sorted.
From Stdlib Require Import DecimalString DecimalPos DecimalN DecimalZ DecimalFacts.
From stdpp Require Import base option list gmap strings.

Local Open Scope string_scope.
Local Open Scope list_scope.
Local Open Scope Z_scope.

(** ** Exceptions and results *)

Inductive exn : Type :=
| KeyError (key : string)
| IndexError
| TypeError
| AttributeError
| JSONDecodeError
| StoreError (msg : string).

Inductive outcome (A : Type) : Type :=
| Ret (a : A)
| Raise (e : exn).

Arguments Ret {A} a.
Arguments Raise {A} e.

#[export] Instance outcome_ret : MRet outcome := @Ret.
#[export] Instance outcome_bind : MBind outcome :=
  λ A B f m, match m with Ret a => f a | Raise e => Raise e end.
#[export] Instance outcome_fmap : FMap outcome :=
  λ A B f m, match m with Ret a => Ret (f a) | Raise e => Raise e end.

Definition raises {A} (m : outcome A) : Prop :=
  match m with Ret _ => False | Raise _ => True end.

Definition returns {A} (m : outcome A) : Prop :=
  match m with Ret _ => True | Raise _ => False end.

(** ** Characters used by the string functions *)

Definition dquote : ascii := "034"%char.
Definition squote : ascii := "039"%char.
Definition backslash : ascii := "092"%char.
Definition underscore : ascii := "095"%char.
Definition newline : ascii := "010"%char.

Definition str1 (c : ascii) : string := String c EmptyString.

(** [", ".join(parts)]. *)
Fixpoint join (sep : string) (parts : list string) : string :=
  match parts with
  | [] => EmptyString
  | [p] => p
  | p :: rest => p +:+ sep +:+ join sep rest
  end.

(** ** Python values

    The record handed to the engine is what [json.loads] produced, wrapped
    by [extract_from_image] in a dict with string leaves: [None], [bool],
    [int], [str], [list] and [dict] with [str] keys. *)

#[warnings="-register-all"]
Inductive json : Type :=
| JNull
| JBool (b : bool)
| JInt (n : Z)
| JStr (s : string)
| JArr (xs : list json)
| JObj (kvs : list (string * json)).

(** [k in d] / [d[k]] on a dict in insertion order. *)
Fixpoint dict_lookup (k : string) (kvs : list (string * json)) : option json :=
  match kvs with
  | [] => None
  | (k', v) :: rest => if String.eqb k k' then Some v else dict_lookup k rest
  end.

(** [d[k] = v]: an existing key keeps its position. *)
Fixpoint dict_set (k : string) (v : json) (kvs : list (string * json))
  : list (string * json) :=
  match kvs with
  | [] => [(k, v)]
  | (k', v') :: rest =>
      if String.eqb k k' then (k', v) :: rest else (k', v') :: dict_set k v rest
  end.

(** [dict(pairs)]. *)
Definition dict_of_pairs (pairs : list (string * json)) : list (string * json) :=
  fold_left (λ d kv, dict_set kv.1 kv.2 d) pairs [].

(** A [json] term denotes a Python value when no dict repeats a key. *)
Fixpoint wf_json (v : json) : bool :=
  match v with
  | JArr xs => forallb wf_json xs
  | JObj kvs =>
      bool_decide (NoDup (map fst kvs)) && forallb (λ kv, wf_json kv.2) kvs
  | _ => true
  end.

(** [v[k]] with a [str] key. *)
Definition py_getitem (v : json) (k : string) : outcome json :=
  match v with
  | JObj kvs =>
      match dict_lookup k kvs with
      | Some x => Ret x
      | None => Raise (KeyError k)
      end
  | _ => Raise TypeError
  end.

(** [v.get(k, d)]. *)
Definition py_get (v : json) (k : string) (d : json) : outcome json :=
  match v with
  | JObj kvs => Ret (default d (dict_lookup k kvs))
  | _ => Raise AttributeError
  end.

(** [v[0]]. *)
Definition py_first (v : json) : outcome json :=
  match v with
  | JArr (x :: _) => Ret x
  | JArr [] => Raise IndexError
  | JStr (String c _) => Ret (JStr (str1 c))
  | JStr EmptyString => Raise IndexError
  | JObj _ => Raise (KeyError "0")
  | _ => Raise TypeError
  end.

(** The elements a [for] loop visits. *)
Definition py_iter (v : json) : outcome (list json) :=
  match v with
  | JArr xs => Ret xs
  | JObj kvs => Ret (map (λ kv, JStr kv.1) kvs)
  | JStr s => Ret (map (λ c, JStr (str1 c)) (list_ascii_of_string s))
  | _ => Raise TypeError
  end.

(** *** [str()] and [repr()] *)

Definition str_of_Z (n : Z) : string := NilZero.string_of_int (Z.to_int n).

Definition hex_digit (n : N) : ascii :=
  if (n <? 10)%N then ascii_of_N (48 + n) else ascii_of_N (87 + n).

Definition hex2 (c : ascii) : string :=
  let n := N_of_ascii c in
  String (hex_digit (n / 16)) (str1 (hex_digit (n mod 16))).

Fixpoint contains_char (c : ascii) (s : string) : bool :=
  match s with
  | EmptyString => false
  | String a r => Ascii.eqb a c || contains_char c r
  end.

Definition repr_char (quote c : ascii) : string :=
  let n := N_of_ascii c in
  if Ascii.eqb c backslash then "\\"
  else if Ascii.eqb c quote then String backslash (str1 c)
  else if Ascii.eqb c "009" then "\t"
  else if Ascii.eqb c "010" then "\n"
  else if Ascii.eqb c "013" then "\r"
  else if (n <? 32)%N || (n =? 127)%N || ((128 <=? n)%N && (n <=? 160)%N)
          || (n =? 173)%N
       then "\x" +:+ hex2 c
  else str1 c.

Fixpoint repr_chars (quote : ascii) (s : string) : string :=
  match s with
  | EmptyString => EmptyString
  | String c r => repr_char quote c +:+ repr_chars quote r
  end.

Definition repr_str (s : string) : string :=
  let quote :=
    if contains_char squote s && negb (contains_char dquote s)
    then dquote else squote in
  String quote (repr_chars quote s +:+ str1 quote).

Fixpoint py_repr (v : json) : string :=
  match v with
  | JNull => "None"
  | JBool true => "True"
  | JBool false => "False"
  | JInt n => str_of_Z n
  | JStr s => repr_str s
  | JArr xs => "[" +:+ join ", " (map py_repr xs) +:+ "]"
  | JObj kvs =>
      "{" +:+
      join ", " (map (λ kv, repr_str kv.1 +:+ ": " +:+ py_repr kv.2) kvs)
      +:+ "}"
  end.

(** [str(v)], which is also what an f-string placeholder [{v}] renders. *)
Definition py_str (v : json) : string :=
  match v with
  | JStr s => s
  | _ => py_repr v
  end.
(** ** [json.dumps] and [json.loads]

    The serialiser and the scanner of the standard [json] module with
    their default arguments ([ensure_ascii=True], separators [", "] and
    [": "], [strict=True]).  Number literals with a fraction or an
    exponent, the constants [NaN] and [Infinity], and [\u] escapes above
    code point 255 denote values that [json] cannot hold: [json.loads]
    returns them, [json_loads] raises [JSONDecodeError].  The two agree on
    a text that is not JSON and on a text that denotes a value of [json];
    the statements that use [json_loads] are about such texts or assume
    its result.  The interpreter's limit on the number of digits of an
    integer literal is not part of the model. *)

Definition is_printable_ascii (c : ascii) : bool :=
  let n := N_of_ascii c in (32 <=? n)%N && (n <=? 126)%N.

(** [ESCAPE_ASCII] / [ESCAPE_DCT] of [json.encoder]. *)
Definition escape_char (c : ascii) : string :=
  if Ascii.eqb c backslash then "\\"
  else if Ascii.eqb c dquote then String backslash (str1 dquote)
  else if Ascii.eqb c "008" then "\b"
  else if Ascii.eqb c "012" then "\f"
  else if Ascii.eqb c "010" then "\n"
  else if Ascii.eqb c "013" then "\r"
  else if Ascii.eqb c "009" then "\t"
  else if is_printable_ascii c then str1 c
  else "\u00" +:+ hex2 c.

Fixpoint escape_chars (s : string) : string :=
  match s with
  | EmptyString => EmptyString
  | String c r => escape_char c +:+ escape_chars r
  end.

Definition encode_basestring_ascii (s : string) : string :=
  String dquote (escape_chars s +:+ str1 dquote).

Fixpoint json_dumps (v : json) : string :=
  match v with
  | JNull => "null"
  | JBool true => "true"
  | JBool false => "false"
  | JInt n => str_of_Z n
  | JStr s => encode_basestring_ascii s
  | JArr xs => "[" +:+ join ", " (map json_dumps xs) +:+ "]"
  | JObj kvs =>
      "{" +:+
      join ", "
        (map (λ kv, encode_basestring_ascii kv.1 +:+ ": " +:+ json_dumps kv.2)
           kvs)
      +:+ "}"
  end.

(** *** The scanner *)

Definition is_ws (c : ascii) : bool :=
  Ascii.eqb c " " || Ascii.eqb c "009" || Ascii.eqb c "010" || Ascii.eqb c "013".

Fixpoint skip_ws (s : string) : string :=
  match s with
  | EmptyString => EmptyString
  | String c r => if is_ws c then skip_ws r else s
  end.

Definition hex_val (c : ascii) : option N :=
  let n := N_of_ascii c in
  if (48 <=? n)%N && (n <=? 57)%N then Some (n - 48)%N
  else if (97 <=? n)%N && (n <=? 102)%N then Some (n - 87)%N
  else if (65 <=? n)%N && (n <=? 70)%N then Some (n - 55)%N
  else None.

Definition hex4 (a b c d : ascii) : option N :=
  x1 ← hex_val a; x2 ← hex_val b; x3 ← hex_val c; x4 ← hex_val d;
  Some (((x1 * 16 + x2) * 16 + x3) * 16 + x4)%N.

(** [BACKSLASH] of [json.decoder]. *)
Definition unescape (e : ascii) : option ascii :=
  if Ascii.eqb e dquote then Some dquote
  else if Ascii.eqb e backslash then Some backslash
  else if Ascii.eqb e "/" then Some "/"%char
  else if Ascii.eqb e "b" then Some "008"%char
  else if Ascii.eqb e "f" then Some "012"%char
  else if Ascii.eqb e "n" then Some "010"%char
  else if Ascii.eqb e "r" then Some "013"%char
  else if Ascii.eqb e "t" then Some "009"%char
  else None.

Definition push_char (c : ascii) (r : option (string * string))
  : option (string * string) :=
  match r with
  | Some (s, rest) => Some (String c s, rest)
  | None => None
  end.

(** [py_scanstring]: the input starts just after the opening quote; the
    result is the decoded string and what follows the closing quote. *)
Fixpoint scanstring (s : string) : option (string * string) :=
  match s with
  | EmptyString => None
  | String c r =>
      if Ascii.eqb c dquote then Some (EmptyString, r)
      else if Ascii.eqb c backslash then
        match r with
        | EmptyString => None
        | String e r1 =>
            if Ascii.eqb e "u" then
              match r1 with
              | String h1 (String h2 (String h3 (String h4 r2))) =>
                  match hex4 h1 h2 h3 h4 with
                  | Some n =>
                      if (n <? 256)%N
                      then push_char (ascii_of_N n) (scanstring r2)
                      else None
                  | None => None
                  end
              | _ => None
              end
            else
              match unescape e with
              | Some ch => push_char ch (scanstring r1)
              | None => None
              end
        end
      else if (N_of_ascii c <? 32)%N then None
      else push_char c (scanstring r)
  end.

Definition digit_of (c : ascii) : option (Decimal.uint → Decimal.uint) :=
  if Ascii.eqb c "0" then Some Decimal.D0
  else if Ascii.eqb c "1" then Some Decimal.D1
  else if Ascii.eqb c "2" then Some Decimal.D2
  else if Ascii.eqb c "3" then Some Decimal.D3
  else if Ascii.eqb c "4" then Some Decimal.D4
  else if Ascii.eqb c "5" then Some Decimal.D5
  else if Ascii.eqb c "6" then Some Decimal.D6
  else if Ascii.eqb c "7" then Some Decimal.D7
  else if Ascii.eqb c "8" then Some Decimal.D8
  else if Ascii.eqb c "9" then Some Decimal.D9
  else None.

Definition is_digit (c : ascii) : bool :=
  match digit_of c with Some _ => true | None => false end.

(** The longest prefix of digits, [\d*]. *)
Fixpoint scan_digits (s : string) : Decimal.uint * string :=
  match s with
  | EmptyString => (Decimal.Nil, EmptyString)
  | String c r =>
      match digit_of c with
      | Some d => let '(u, rest) := scan_digits r in (d u, rest)
      | None => (Decimal.Nil, s)
      end
  end.

Definition starts_with_digit (s : string) : bool :=
  match s with
  | String c _ => is_digit c
  | EmptyString => false
  end.

(** Whether [(\.\d+)?([eE][-+]?\d+)?] matches a non-empty text, which makes
    the literal a float. *)
Definition float_tail (s : string) : bool :=
  match s with
  | String c r =>
      if Ascii.eqb c "." then starts_with_digit r
      else if Ascii.eqb c "e" || Ascii.eqb c "E" then
        match r with
        | String sg r' =>
            if Ascii.eqb sg "+" || Ascii.eqb sg "-"
            then starts_with_digit r' else is_digit sg
        | EmptyString => false
        end
      else false
  | EmptyString => false
  end.

(** The integer part of [NUMBER_RE]: a single [0], or a non-zero digit
    followed by digits. *)
Definition match_natural (s : string) : option (Z * string) :=
  match s with
  | String c r =>
      if Ascii.eqb c "0" then Some (0, r)
      else if is_digit c then
        let '(u, rest) := scan_digits s in Some (Z.of_uint u, rest)
      else None
  | EmptyString => None
  end.

Definition match_number (s : string) : option (Z * string) :=
  let '(negative, s1) :=
    match s with
    | String c r => if Ascii.eqb c "-" then (true, r) else (false, s)
    | EmptyString => (false, s)
    end in
  '(n, rest) ← match_natural s1;
  if float_tail rest then None
  else Some (if negative : bool then - n else n, rest).

Definition strip_prefix (p s : string) : option string :=
  if String.prefix p s
  then Some (String.substring (String.length p)
               (String.length s - String.length p) s)
  else None.

(** [scan_once], [JSONObject] and [JSONArray] of [json.scanner] and
    [json.decoder]; [fuel] bounds the nesting depth plus the number of
    members, and [json_loads] supplies the length of the text plus one. *)
Fixpoint scan_once (fuel : nat) (s : string) : option (json * string) :=
  match fuel with
  | O => None
  | S fuel =>
      match s with
      | EmptyString => None
      | String c r =>
          if Ascii.eqb c dquote then
            '(str, rest) ← scanstring r; Some (JStr str, rest)
          else if Ascii.eqb c "{" then
            match skip_ws r with
            | String c' r' =>
                if Ascii.eqb c' "}" then Some (JObj [], r')
                else if Ascii.eqb c' dquote then
                  '(pairs, rest) ← object_pairs fuel r';
                  Some (JObj (dict_of_pairs pairs), rest)
                else None
            | EmptyString => None
            end
          else if Ascii.eqb c "[" then
            match skip_ws r with
            | String c' r' =>
                if Ascii.eqb c' "]" then Some (JArr [], r')
                else '(xs, rest) ← array_items fuel (String c' r');
                     Some (JArr xs, rest)
            | EmptyString => None
            end
          else
            match strip_prefix "null" s, strip_prefix "true" s,
                  strip_prefix "false" s with
            | Some rest, _, _ => Some (JNull, rest)
            | _, Some rest, _ => Some (JBool true, rest)
            | _, _, Some rest => Some (JBool false, rest)
            | _, _, _ => '(n, rest) ← match_number s; Some (JInt n, rest)
            end
      end
  end
with object_pairs (fuel : nat) (s : string)
  : option (list (string * json) * string) :=
  match fuel with
  | O => None
  | S fuel =>
      '(key, s1) ← scanstring s;
      match skip_ws s1 with
      | String c s2 =>
          if Ascii.eqb c ":" then
            '(value, s3) ← scan_once fuel (skip_ws s2);
            match skip_ws s3 with
            | String c' s4 =>
                if Ascii.eqb c' "}" then Some ([(key, value)], s4)
                else if Ascii.eqb c' "," then
                  match skip_ws s4 with
                  | String c'' s5 =>
                      if Ascii.eqb c'' dquote then
                        '(pairs, rest) ← object_pairs fuel s5;
                        Some ((key, value) :: pairs, rest)
                      else None
                  | EmptyString => None
                  end
                else None
            | EmptyString => None
            end
          else None
      | EmptyString => None
      end
  end
with array_items (fuel : nat) (s : string) : option (list json * string) :=
  match fuel with
  | O => None
  | S fuel =>
      '(value, s1) ← scan_once fuel s;
      match skip_ws s1 with
      | String c s2 =>
          if Ascii.eqb c "]" then Some ([value], s2)
          else if Ascii.eqb c "," then
            '(xs, rest) ← array_items fuel (skip_ws s2);
            Some (value :: xs, rest)
          else None
      | EmptyString => None
      end
  end.

(** [json.loads(s)]: leading white space, one value, trailing white space,
    end of text. *)
Definition json_loads (s : string) : outcome json :=
  match scan_once (S (String.length s)) (skip_ws s) with
  | Some (v, rest) =>
      match skip_ws rest with
      | EmptyString => Ret v
      | _ => Raise JSONDecodeError
      end
  | None => Raise JSONDecodeError
  end.
(** ** The vector store and the effects of the engine *)

(** [chromadb.api.types.Metadata]; every value the engine writes is a
    [str]. *)
Abbreviation Metadata := (gmap string string).

(** The part of a [QueryResult] that [search_cards] reads.  A field is
    [None] when the key is absent or holds [None]. *)
Record QueryResult : Type := {
  qr_ids : option (list (list string));
  qr_distances : option (list (list Q));
}.

(** What the engine does that can be observed from outside: the calls on
    the collection and the lines it prints. *)
Inductive event : Type :=
| CollGetAll
| CollGet (ids : list string)
| CollQuery (query_texts : list string) (n_results : Z)
| CollAdd (documents : list string) (metadatas : list Metadata)
          (ids : list string)
| Printed (line : string)
| PrintedExn (prefix : string) (e : exn) (suffix : string).

(** The [chromadb] collection as the engine uses it.  The embedding
    function is handed to the collection when it is created and is run by
    the collection only, inside [query] and [add]. *)
Class Collection (S : Type) : Type := {
  (** [collection.get()["ids"]] *)
  coll_get_all : S → outcome (list string);
  (** [collection.get(ids=ids, include=["metadatas"])["metadatas"]]: the
      metadata of the identifiers that resolve *)
  coll_get : S → list string → outcome (list (option Metadata));
  (** [collection.query(query_texts=..., n_results=..., include=...)] *)
  coll_query : S → list string → Z → outcome QueryResult;
  (** [collection.add(documents=..., metadatas=..., ids=...)] *)
  coll_add : S → list string → list Metadata → list string → outcome S;
}.

Record world (S : Type) : Type := World {
  w_store : S;
  w_log : list event;
}.

Arguments World {S} w_store w_log.
Arguments w_store {S} w.
Arguments w_log {S} w.

(** Computations of the engine: they may change the store, extend the log
    and raise. *)
Definition M (S A : Type) : Type := world S → outcome A * world S.

#[export] Instance M_ret {S} : MRet (M S) := λ A a w, (Ret a, w).
#[export] Instance M_bind {S} : MBind (M S) :=
  λ A B f m w,
    match m w with
    | (Ret a, w') => f a w'
    | (Raise e, w') => (Raise e, w')
    end.

Definition lift {S A} (o : outcome A) : M S A := λ w, (o, w).

Definition raise {S A} (e : exn) : M S A := lift (Raise e).

Definition emit {S} (ev : event) : M S unit :=
  λ w, (Ret tt, World (w_store w) (w_log w ++ [ev])).

Definition print {S} (line : string) : M S unit := emit (Printed line).

(** [try: body except <handled> as e: handler(e)]; an exception that
    [handled] does not select goes on to the caller. *)
Definition try_except {S A} (body : M S A) (handled : exn → bool)
    (handler : exn → M S A) : M S A :=
  λ w,
    match body w with
    | (Ret a, w') => (Ret a, w')
    | (Raise e, w') => if handled e then handler e w' else (Raise e, w')
    end.

Definition is_JSONDecodeError (e : exn) : bool :=
  match e with JSONDecodeError => true | _ => false end.

(** [except Exception] *)
Definition any_Exception (e : exn) : bool := true.

Section calls.
Context {S : Type} `{!Collection S}.

Definition call_get_all : M S (list string) :=
  λ w, (coll_get_all (w_store w),
        World (w_store w) (w_log w ++ [CollGetAll])).

Definition call_get (ids : list string) : M S (list (option Metadata)) :=
  λ w, (coll_get (w_store w) ids,
        World (w_store w) (w_log w ++ [CollGet ids])).

Definition call_query (query_texts : list string) (n_results : Z)
  : M S QueryResult :=
  λ w, (coll_query (w_store w) query_texts n_results,
        World (w_store w) (w_log w ++ [CollQuery query_texts n_results])).

Definition call_add (documents : list string) (metadatas : list Metadata)
    (ids : list string) : M S unit :=
  λ w,
    let log := (w_log w ++ [CollAdd documents metadatas ids])%list in
    match coll_add (w_store w) documents metadatas ids with
    | Ret s' => (Ret tt, World s' log)
    | Raise e => (Raise e, World (w_store w) log)
    end.
End calls.

(** *** A store in memory

    The stored fragments in insertion order, the answer of the
    nearest-neighbour index to each query text, and whether the service
    can be reached.  As with the [chromadb] collection, [add] leaves the
    fragment at an identifier that is already present as it is and appends
    the others, and [get] answers with the fragments it holds among the
    identifiers asked for, in the order in which they are stored. *)
Record fragment : Type := {
  f_document : string;
  f_metadata : option Metadata;
}.

Record mem_store : Type := {
  fragments : list (string * fragment);
  nearest : list string → list (string * Q);
  online : bool;
}.

Fixpoint frag_lookup (id : string) (fs : list (string * fragment))
  : option fragment :=
  match fs with
  | [] => None
  | (id', f) :: rest => if String.eqb id id' then Some f else frag_lookup id rest
  end.

(** One record of an [add]: ignored when its identifier is present. *)
Definition frag_add (id : string) (f : fragment) (fs : list (string * fragment))
  : list (string * fragment) :=
  match frag_lookup id fs with
  | Some _ => fs
  | None => fs ++ [(id, f)]
  end.

Fixpoint add_all (ids documents : list string) (metadatas : list Metadata)
    (fs : list (string * fragment)) : list (string * fragment) :=
  match ids, documents, metadatas with
  | id :: ids', d :: documents', m :: metadatas' =>
      add_all ids' documents' metadatas'
        (frag_add id {| f_document := d; f_metadata := Some m |} fs)
  | _, _, _ => fs
  end.

Definition unreachable : exn := StoreError "unreachable".

Definition mem_get_all (s : mem_store) : outcome (list string) :=
  if online s then Ret (map fst (fragments s)) else Raise unreachable.

Definition mem_get (s : mem_store) (ids : list string)
  : outcome (list (option Metadata)) :=
  if online s
  then Ret (omap (λ entry : string * fragment,
                    if decide (entry.1 ∈ ids) then Some (f_metadata entry.2)
                    else None)
              (fragments s))
  else Raise unreachable.

Definition mem_query (s : mem_store) (query_texts : list string) (n_results : Z)
  : outcome QueryResult :=
  if online s then
    if n_results <=? 0 then Raise (StoreError "n_results")
    else
      let hits := take (Z.to_nat n_results) (nearest s query_texts) in
      Ret {| qr_ids := Some [map fst hits];
             qr_distances := Some [map snd hits] |}
  else Raise unreachable.

(** The argument check of [add]: some identifiers, no identifier twice,
    as many documents and metadata mappings as identifiers. *)
Definition valid_add (documents : list string) (metadatas : list Metadata)
    (ids : list string) : bool :=
  bool_decide (ids ≠ []) && bool_decide (NoDup ids)
  && bool_decide (length documents = length ids)
  && bool_decide (length metadatas = length ids).

Definition mem_add (s : mem_store) (documents : list string)
    (metadatas : list Metadata) (ids : list string) : outcome mem_store :=
  if online s then
    if valid_add documents metadatas ids then
      Ret {| fragments := add_all ids documents metadatas (fragments s);
             nearest := nearest s;
             online := online s |}
    else Raise (StoreError "add")
  else Raise unreachable.

#[export] Instance mem_collection : Collection mem_store := {
  coll_get_all := mem_get_all;
  coll_get := mem_get;
  coll_query := mem_query;
  coll_add := mem_add;
}.
(** ** [str.rsplit(sep, 1)] for a one-character separator

    [rfind_split sep s] cuts [s] at the last occurrence of [sep]. *)

Fixpoint rfind_split (sep : ascii) (s : string) : option (string * string) :=
  match s with
  | EmptyString => None
  | String a r =>
      match rfind_split sep r with
      | Some (h, t) => Some (String a h, t)
      | None => if Ascii.eqb a sep then Some (EmptyString, r) else None
      end
  end.

Definition rsplit1 (sep : ascii) (s : string) : list string :=
  match rfind_split sep s with
  | Some (h, t) => [h; t]
  | None => [s]
  end.

(** The per-fragment identifiers of [add_business_card] (lines 188-193)
    and of [get_card_by_id] (line 291). *)
Definition fragment_ids (card_id : string) : list string :=
  [card_id +:+ "_0"; card_id +:+ "_1"; card_id +:+ "_2"; card_id +:+ "_3"].

(** [results["ids"][0][i].rsplit("_", 1)[0]] (line 247).  The list returned
    by [rsplit] is never empty, so the subscript cannot fail. *)
Definition strip_slot (fragment_id : string) : string :=
  default fragment_id (rsplit1 underscore fragment_id !! 0%nat).

(** ** [BusinessCardProcessor.process_llm_response] and the record built
       by [extract_from_image] *)

(** [str.isspace] on code points below 256. *)
Definition is_space (c : ascii) : bool :=
  let n := N_of_ascii c in
  ((9 <=? n)%N && (n <=? 13)%N) || ((28 <=? n)%N && (n <=? 32)%N)
  || (n =? 133)%N || (n =? 160)%N.

Fixpoint lstrip (s : string) : string :=
  match s with
  | EmptyString => EmptyString
  | String c r => if is_space c then lstrip r else s
  end.

Fixpoint rstrip (s : string) : string :=
  match s with
  | EmptyString => EmptyString
  | String c r =>
      match rstrip r with
      | EmptyString => if is_space c then EmptyString else str1 c
      | r' => String c r'
      end
  end.

Definition strip (s : string) : string := rstrip (lstrip s).

Definition startswith (s p : string) : bool := String.prefix p s.

Definition endswith (s p : string) : bool :=
  (String.length p <=? String.length s)%nat &&
  String.eqb (String.substring (String.length s - String.length p)
                (String.length p) s) p.

(** [s[a:-b]] *)
Definition slice_between (s : string) (a b : nat) : string :=
  String.substring a (String.length s - b - a) s.

Definition code_fence : string := "```".

(** One round of the loop of lines 48-50. *)
Definition unwrap (cleaned_data wrapper : string) : string :=
  if startswith cleaned_data wrapper && endswith cleaned_data code_fence
  then strip (slice_between cleaned_data (String.length wrapper) 3)
  else cleaned_data.

(** [process_llm_response(response)]; [text] is [None] when there is no
    response or it has no text. *)
Definition process_llm_response {S} (text : option string) : M S json :=
  match text with
  | None | Some EmptyString =>
      print "No valid response received from the API.";;
      mret (JObj [])
  | Some t =>
      try_except
        (let cleaned_data :=
           fold_left unwrap ["```json"; code_fence] (strip t) in
         lift (json_loads cleaned_data))
        any_Exception
        (λ e,
           (if is_JSONDecodeError e
            then emit (PrintedExn "Failed to parse JSON response: " e
                         (str1 newline +:+ "Raw response: " +:+ t))
            else emit (PrintedExn "Unexpected error processing response: " e
                         EmptyString));;
           mret (JObj []))
  end.

(** The value returned by [extract_from_image] (lines 171-179). *)
Definition card_of_extraction (image_hash image_base64 : string)
    (extracted_data : json) : json :=
  JObj [("image_metadata",
         JObj [("hash", JStr image_hash); ("base64", JStr image_base64)]);
        ("extracted_info", extracted_data)].

(** ** [BusinessCardVectorDB.process_business_card] *)

Record processed : Type := {
  documents : list string;
  metadata : Metadata;
  image_base64 : json;
}.

Definition empty_dict : json := JObj [].
Definition empty_str : json := JStr EmptyString.

(** [section.get(key, [{}])[0].get('value', '')] *)
Definition first_value (section : json) (key : string) : outcome json :=
  entries ← py_get section key (JArr [empty_dict]);
  entry ← py_first entries;
  py_get entry "value" empty_str.

(** [v[k1][k2]] *)
Definition py_getitem2 (v : json) (k1 k2 : string) : outcome json :=
  x ← py_getitem v k1; py_getitem x k2.

(** [f'{sm["platform"]}:{sm["handle"]}'] *)
Definition social_entry (sm : json) : outcome string :=
  platform ← py_getitem sm "platform";
  handle ← py_getitem sm "handle";
  mret (py_str platform +:+ ":" +:+ py_str handle).

Definition process_business_card (card_json : json) : outcome processed :=
  extracted ← py_get card_json "extracted_info" empty_dict;
  primary ← py_get extracted "primary_info" empty_dict;
  contact ← py_get extracted "contact_info" empty_dict;
  digital ← py_get extracted "digital_presence" empty_dict;
  contextual ← py_get extracted "contextual_summary" empty_dict;
  (* documents[0]: professional identity *)
  name0 ← py_getitem2 primary "name" "value";
  job0 ← py_getitem2 primary "job_title" "value";
  industry0 ← py_get contextual "industry_inference" empty_str;
  address0 ← first_value contact "addresses";
  let doc0 :=
    py_str name0 +:+ " is a " +:+ py_str job0 +:+ " in " +:+ py_str industry0
    +:+ "based in " +:+ py_str address0 +:+ "." in
  (* documents[1]: contact information *)
  email1 ← first_value contact "emails";
  address1 ← first_value contact "addresses";
  website1 ← (w ← py_get digital "website" empty_dict; py_get w "value" empty_str);
  let doc1 :=
    "Contact: " +:+ py_str email1 +:+ " | Location: " +:+ py_str address1
    +:+ " | Website: " +:+ py_str website1 in
  (* documents[2]: digital presence *)
  social ← py_get digital "social_media" (JArr []);
  entries ← py_iter social;
  handles ← mapM social_entry entries;
  let doc2 := "Social media: " +:+ join ", " handles in
  (* documents[3]: narrative *)
  summary3 ← py_get contextual "professional_summary" empty_str;
  industry3 ← py_get contextual "industry_inference" empty_str;
  seniority3 ← py_get contextual "seniority_estimate" empty_str;
  let doc3 :=
    "professional_summary: " +:+ py_str summary3 +:+ " expertise in "
    +:+ py_str industry3 +:+ " and " +:+ py_str seniority3 in
  (* metadata *)
  m_name ← py_getitem2 primary "name" "value";
  m_job_title ← py_getitem2 primary "job_title" "value";
  m_company ← (c ← py_getitem primary "company"; py_get c "text_value" empty_str);
  m_email ← first_value contact "emails";
  m_location ← first_value contact "addresses";
  m_website ← (w ← py_get digital "website" empty_dict; py_get w "value" empty_str);
  m_industry ← py_get contextual "industry_inference" empty_str;
  m_seniority ← py_get contextual "seniority_estimate" empty_str;
  m_image_hash ← py_getitem2 card_json "image_metadata" "hash";
  let md : Metadata :=
    <["source_json" := json_dumps card_json]>
    (<["image_hash" := py_str m_image_hash]>
    (<["seniority" := py_str m_seniority]>
    (<["industry" := py_str m_industry]>
    (<["website" := py_str m_website]>
    (<["location" := py_str m_location]>
    (<["email" := py_str m_email]>
    (<["company" := py_str m_company]>
    (<["job_title" := py_str m_job_title]>
    (<["name" := py_str m_name]> ∅))))))))) in
  base64 ← py_getitem2 card_json "image_metadata" "base64";
  mret {| documents := [doc0; doc1; doc2; doc3];
          metadata := md;
          image_base64 := base64 |}.

(** The ten keys of the metadata literal (lines 153-166). *)
Definition metadata_keys : list string :=
  ["name"; "job_title"; "company"; "email"; "location"; "website";
   "industry"; "seniority"; "image_hash"; "source_json"].

(** [md[k]] on a metadata mapping. *)
Definition md_getitem (md : Metadata) (k : string) : outcome string :=
  match md !! k with
  | Some v => Ret v
  | None => Raise (KeyError k)
  end.

(** ** The operations on the store *)

Record card_data : Type := {
  cd_metadata : Metadata;
  cd_original_json : json;
  cd_image_base64 : string;
}.

Record search_result : Type := {
  sr_metadata : Metadata;
  sr_distance : Q;
  sr_extracted_info : json;
}.

(** The value [get_card_by_id] returns when no fragment resolves
    (lines 296-300). *)
Definition empty_card : card_data :=
  {| cd_metadata := ∅;
     cd_original_json := JStr "{}";
     cd_image_base64 := EmptyString |}.

(** [distances[0][i] if distances and len(distances) > 0 and
    len(distances[0]) > i else 1.0] *)
Definition distance_at (results : QueryResult) (i : nat) : Q :=
  match qr_distances results with
  | Some (row :: _) => default 1%Q (row !! i)
  | _ => 1%Q
  end.

(** The query template of [process_query] (lines 202-206). *)
Definition indent : string := "            ".

Definition enhance (query : string) : string :=
  str1 newline +:+ indent
  +:+ "Find business cards matching the following criteria:"
  +:+ str1 newline +:+ indent +:+ query
  +:+ str1 newline +:+ indent
  +:+ "Consider job titles, names, locations, and professional context."
  +:+ str1 newline +:+ indent.

Section engine.
Context {S : Type} `{!Collection S}.

Definition add_business_card (card_json : json) : M S string :=
  processed ← lift (process_business_card card_json);
  name ← lift (md_getitem (metadata processed) "name");
  image_hash ← lift (md_getitem (metadata processed) "image_hash");
  let card_id := name +:+ "-" +:+ image_hash in
  call_add (documents processed)
    (replicate (length (documents processed)) (metadata processed))
    (fragment_ids card_id);;
  mret card_id.

Definition get_card_by_id (card_id : string) : M S card_data :=
  metadatas ← call_get (fragment_ids card_id);
  match metadatas with
  | [] => mret empty_card
  | first :: _ =>
      match first with
      | None => raise AttributeError
      | Some md =>
          original_json ← lift (json_loads (default "{}" (md !! "source_json")));
          mret {| cd_metadata := md;
                  cd_original_json := original_json;
                  cd_image_base64 := default EmptyString (md !! "image_base64") |}
      end
  end.

Definition process_query (query : string) : M S string :=
  let enhanced_query := enhance query in
  print ("Processing search query: " +:+ enhanced_query);;
  mret enhanced_query.

(** The body of the inner [try] (lines 257-276) for the hit at index
    [i]: the result to append. *)
Definition format_result (results : QueryResult) (i : nat)
    (card : card_data) : M S search_result :=
  extracted_info ←
    lift (json_loads (default "{}" (cd_metadata card !! "source_json")));
  let distance := distance_at results i in
  info ← lift (py_get extracted_info "extracted_info" empty_dict);
  mret {| sr_metadata := cd_metadata card;
          sr_distance := distance;
          sr_extracted_info := info |}.

(** The loop of lines 246-279 from index [i] on; [remaining] are
    [results["ids"][0][i:]].  Each appended result is kept together with
    the [card_id] it was built for.  The test [card_data and "metadata" in
    card_data] of line 255 holds of every value [get_card_by_id] returns. *)
Fixpoint aggregate (results : QueryResult) (num_results : Z)
    (i : nat) (remaining : list string)
    (formatted_results : list (string * search_result))
    (seen_cards : gset string)
  : M S (list (string * search_result)) :=
  match remaining with
  | [] => mret formatted_results
  | fragment_id :: rest =>
      let card_id := strip_slot fragment_id in
      if decide (card_id ∈ seen_cards)
      then aggregate results num_results (Datatypes.S i) rest
             formatted_results seen_cards
      else
        let seen_cards := seen_cards ∪ {[card_id]} in
        card ← get_card_by_id card_id;
        appended ←
          try_except
            (result ← format_result results i card;
             mret (Some (formatted_results ++ [(card_id, result)])))
            is_JSONDecodeError
            (λ _,
               print ("Error decoding JSON for card " +:+ card_id);;
               mret None);
        match appended with
        | Some formatted_results' =>
            if Z.of_nat (length formatted_results') >=? num_results
            then mret formatted_results'
            else aggregate results num_results (Datatypes.S i) rest
                   formatted_results' seen_cards
        | None =>
            aggregate results num_results (Datatypes.S i) rest
              formatted_results seen_cards
        end
  end.

(** [search_cards] with the card identifier of every result. *)
Definition search_cards_traced (query : string) (num_results : Z)
  : M S (list (string * search_result)) :=
  try_except
    (processed_query ← process_query query;
     print ("Searching with processed query: " +:+ processed_query);;
     all_ids ← call_get_all;
     match all_ids with
     | [] => print "No documents in collection";; mret []
     | _ =>
         print ("Total documents in collection: "
                +:+ str_of_Z (Z.of_nat (length all_ids)));;
         results ← call_query [processed_query]
                     (Z.min (num_results * 4) (Z.of_nat (length all_ids)));
         match qr_ids results with
         | None | Some [] => print "No results found";; mret []
         | Some (ids0 :: _) =>
             print ("Raw results found: "
                    +:+ str_of_Z (Z.of_nat (length ids0)));;
             formatted_results ← aggregate results num_results 0 ids0 [] ∅;
             print ("Returning "
                    +:+ str_of_Z (Z.of_nat (length formatted_results))
                    +:+ " unique results");;
             mret formatted_results
         end
     end)
    any_Exception
    (λ e, emit (PrintedExn "Search error: " e EmptyString);; mret []).

Definition search_cards (query : string) (num_results : Z)
  : M S (list search_result) :=
  λ w, let '(r, w') := search_cards_traced query num_results w in
       (map snd <$> r, w').
End engine.

(** ** [GeminiEmbeddingFunction.__call__]

    One answer of [client.models.embed_content] is the list
    [result.embeddings] (empty when it is [None]); an entry is [None] when
    it has no [values] or its [values] is [None], and holds the values
    otherwise.  [to_float] is [float(x)] on one value.

    The class derives from chromadb's [EmbeddingFunction], which replaces
    the [__call__] of a subclass by a wrapper: the list the method returns
    goes through the library's normalisation and validation, [checked],
    and the caller gets what that returns or raises. *)
Section embedding.
Context {V : Type}.
Variable to_float : V → outcome Q.
Variable embed_content : string → outcome (list (option (list V))).
Variable checked : list (list Q) → outcome (list (list Q)).

(** The vector appended for one text (lines 43-52). *)
Definition embedding_of (result : list (option (list V))) : outcome (list Q) :=
  match result with
  | Some values :: _ => mapM to_float values
  | _ => Ret [0%Q]
  end.

(** The loop of lines 33-53 over the answers of [embed_content]. *)
Fixpoint embedding_call (input : list string) (embeddings : list (list Q))
  : outcome (list (list Q)) :=
  match input with
  | [] => Ret embeddings
  | text :: rest =>
      result ← embed_content text;
      vector ← embedding_of result;
      embedding_call rest (embeddings ++ [vector])
  end.

(** The vector the method makes for one text: the converted values of
    the first embedding of the answer, or [[0.0]] when the answer has no
    embedding or its first embedding has no values. *)
Definition made (text : string) (vector : list Q) : Prop :=
  ∃ result,
    embed_content text = Ret result ∧
    match result with
    | Some values :: _ => mapM to_float values = Ret vector
    | _ => vector = [0%Q]
    end.

(** The exception the method raises at one text: that of
    [embed_content], or that of [float] on a value of the first
    embedding. *)
Definition failed (text : string) (e : exn) : Prop :=
  embed_content text = Raise e
  ∨ ∃ values rest,
      embed_content text = Ret (Some values :: rest) ∧
      mapM to_float values = Raise e.

(** A call of the embedding function: the method, then the wrapper. *)
Definition GeminiEmbeddingFunction_call (input : list string)
  : outcome (list (list Q)) :=
  embeddings ← embedding_call input [];
  checked embeddings.
End embedding.

(** ** [extract_from_image]

    What the two methods do once the image is loaded ([image_hash],
    [image_base64]) and the model has answered ([text], [None] when there
    is no response or no text). *)
Definition processor_extract_from_image {S} (image_hash image_base64 : string)
    (text : option string) : M S json :=
  print "Extracting business card information with multimodal analysis...";;
  extracted_data ← process_llm_response text;
  mret (card_of_extraction image_hash image_base64 extracted_data).

Definition extract_from_image {S : Type} `{!Collection S}
    (image_hash image_base64 : string) (text : option string) : M S string :=
  card_data ← processor_extract_from_image image_hash image_base64 text;
  add_business_card card_data.

(** ** Readings of a record *)

(** [f"{name}-{image_hash}"] (lines 179-181). *)
Definition card_identity (name image_hash : string) : string :=
  name +:+ "-" +:+ image_hash.

(** The identity [add_business_card] computes from the composed metadata
    (lines 179-181). *)
Definition card_id_of (p : processed) : outcome string :=
  name ← md_getitem (metadata p) "name";
  image_hash ← md_getitem (metadata p) "image_hash";
  mret (card_identity name image_hash).

(** [card_json.get("extracted_info", {}).get("primary_info", {})["name"]["value"]] *)
Definition extracted_name (card_json : json) : outcome json :=
  extracted ← py_get card_json "extracted_info" empty_dict;
  primary ← py_get extracted "primary_info" empty_dict;
  py_getitem2 primary "name" "value".

(** [card_json["image_metadata"]["hash"]] *)
Definition image_hash_of (card_json : json) : outcome json :=
  py_getitem2 card_json "image_metadata" "hash".

(** A model answer wrapped in a code fence: the opening fence, a line
    break, the text, a line break, the closing fence. *)
Definition fenced (opening body : string) : string :=
  opening +:+ str1 newline +:+ body +:+ str1 newline +:+ code_fence.

(** The calls on the collection recorded in a log, without the printed
    lines. *)
Definition is_call (ev : event) : bool :=
  match ev with
  | Printed _ | PrintedExn _ _ _ => false
  | _ => true
  end.

Definition calls_of (log : list event) : list event := filter is_call log.

(** The lookup [get_card_by_id card_id] issues. *)
Definition lookup_call (card_id : string) : event :=
  CollGet (fragment_ids card_id).

(** The [add] calls recorded in a log. *)
Definition is_add (ev : event) : bool :=
  match ev with CollAdd _ _ _ => true | _ => false end.

Definition adds_of (log : list event) : list event := filter is_add log.

(** The distinct elements of a list, in the order of their first
    occurrence. *)
Fixpoint first_seen (l : list string) : list string :=
  match l with
  | [] => []
  | c :: rest => c :: filter (λ x, x ≠ c) (first_seen rest)
  end.

(** The card identities of a list of fragment identifiers. *)
Definition cards_of (fragment_ids : list string) : list string :=
  map strip_slot fragment_ids.
(** ** The Gradio front end ([app.py])

    The three functions behind the two tabs.  They receive the values the
    engine returns: the extracted record is any JSON value, so the
    membership test, the subscript, [.get] and the [for] loop are those of
    the value at hand. *)

(** [bool(v)] *)
Definition py_truthy (v : json) : bool :=
  match v with
  | JNull => false
  | JBool b => b
  | JInt n => negb (n =? 0)
  | JStr EmptyString => false
  | JStr _ => true
  | JArr [] => false
  | JArr _ => true
  | JObj [] => false
  | JObj _ => true
  end.

(** [needle in hay] on two [str]. *)
Fixpoint contains_str (needle hay : string) : bool :=
  String.prefix needle hay ||
  match hay with
  | EmptyString => false
  | String _ rest => contains_str needle rest
  end.

(** [k in v] with a [str] on the left: a key of a dict, an element of a
    list, a substring of a [str]; the other values are not iterable. *)
Definition py_contains (v : json) (k : string) : outcome bool :=
  match v with
  | JObj kvs =>
      Ret (match dict_lookup k kvs with Some _ => true | None => false end)
  | JArr xs =>
      Ret (existsb (λ x, match x with JStr s => String.eqb s k | _ => false end)
             xs)
  | JStr s => Ret (contains_str k s)
  | _ => Raise TypeError
  end.

(** [isinstance(v, dict)] *)
Definition is_dict (v : json) : bool :=
  match v with JObj _ => true | _ => false end.

Module app.

Definition div_open : string :=
  "<div style='font-family: Arial; padding: 10px;'>".

(** [{v.get(k, 'N/A')}] in an f-string. *)
Definition field (v : json) (k : string) : outcome string :=
  py_str <$> py_get v k (JStr "N/A").

(** [{v.get(k1, {}).get(k2, 'N/A')}] *)
Definition field2 (v : json) (k1 k2 : string) : outcome string :=
  x ← py_get v k1 empty_dict; field x k2.

(** [{'Yes' if v.get(k) else 'No'}] *)
Definition yes_no (v : json) (k : string) : outcome string :=
  x ← py_get v k JNull;
  mret (if py_truthy x then "Yes" else "No").

(** Lines 16-30. *)
Definition primary_section (primary : json) : outcome string :=
  name_value ← field2 primary "name" "value";
  name_confidence ← field2 primary "name" "confidence";
  job_value ← field2 primary "job_title" "value";
  job_confidence ← field2 primary "job_title" "confidence";
  company ← py_get primary "company" empty_dict;
  text_value ← field company "text_value";
  logo ← yes_no company "logo_identified";
  qr_code ← yes_no company "QRcode_identifies";
  confidence ← field company "confidence";
  mret ("<h3>Primary Information</h3>"
        +:+ "<p><strong>Name:</strong> " +:+ name_value
        +:+ " (Confidence: " +:+ name_confidence +:+ ")</p>"
        +:+ "<p><strong>Job Title:</strong> " +:+ job_value
        +:+ " (Confidence: " +:+ job_confidence +:+ ")</p>"
        +:+ "<p><strong>Company:</strong> " +:+ text_value +:+ " "
        +:+ "(Logo identified: " +:+ logo +:+ ", "
        +:+ "QR Code: " +:+ qr_code +:+ ", "
        +:+ "Confidence: " +:+ confidence +:+ ")</p>").

(** One [<li>] of the e-mail, telephone and address lists. *)
Definition contact_item (entry : json) : outcome string :=
  value ← field entry "value";
  type ← field entry "type";
  confidence ← field entry "confidence";
  mret ("<li>" +:+ value +:+ " (Type: " +:+ type
        +:+ ", Confidence: " +:+ confidence +:+ ")</li>").

(** [if contact.get(key): ... for entry in contact[key]: ...]; the three
    blocks of lines 36-53 differ in the key and the title only. *)
Definition contact_list (contact : json) (key title : string)
  : outcome string :=
  entries ← py_get contact key JNull;
  if py_truthy entries then
    entries ← py_getitem contact key;
    items ← py_iter entries;
    rendered ← mapM contact_item items;
    mret ("<p><strong>" +:+ title +:+ ":</strong></p><ul>"
          +:+ join EmptyString rendered +:+ "</ul>")
  else mret EmptyString.

(** Lines 34-53. *)
Definition contact_section (contact : json) : outcome string :=
  emails ← contact_list contact "emails" "Emails";
  phones ← contact_list contact "phones" "Phone Numbers";
  addresses ← contact_list contact "addresses" "Addresses";
  mret ("<h3>Contact Information</h3>" +:+ emails +:+ phones +:+ addresses).

(** Lines 66-69. *)
Definition social_item (sm : json) : outcome string :=
  platform ← field sm "platform";
  handle ← field sm "handle";
  identified_from ← field sm "identified_from";
  confidence ← field sm "confidence";
  mret ("<li>" +:+ platform +:+ ": " +:+ handle +:+ " "
        +:+ "(Source: " +:+ identified_from
        +:+ ", Confidence: " +:+ confidence +:+ ")</li>").

(** Lines 57-70. *)
Definition digital_section (digital : json) : outcome string :=
  has_website ← py_contains digital "website";
  website ←
    (if has_website : bool then
       site ← py_getitem digital "website";
       value ← field site "value";
       site ← py_getitem digital "website";
       confidence ← field site "confidence";
       mret ("<p><strong>Website:</strong> " +:+ value
             +:+ " (Confidence: " +:+ confidence +:+ ")</p>")
     else mret EmptyString);
  social_media ← py_get digital "social_media" JNull;
  social ←
    (if py_truthy social_media then
       entries ← py_getitem digital "social_media";
       items ← py_iter entries;
       rendered ← mapM social_item items;
       mret ("<p><strong>Social Media:</strong></p><ul>"
             +:+ join EmptyString rendered +:+ "</ul>")
     else mret EmptyString);
  mret ("<h3>Digital Presence</h3>" +:+ website +:+ social).

(** Lines 74-76. *)
Definition contextual_section (context : json) : outcome string :=
  summary ← field context "professional_summary";
  mret ("<h3>Contextual Analysis</h3>"
        +:+ "<p><strong>Professional Summary:</strong> " +:+ summary +:+ "</p>").

(** [if key in extracted_info: section = extracted_info[key]; ...] *)
Definition section (extracted_info : json) (key : string)
    (render : json → outcome string) : outcome string :=
  present ← py_contains extracted_info key;
  if present : bool then
    value ← py_getitem extracted_info key;
    render value
  else mret EmptyString.

(** The four keys the display reads. *)
Definition display_sections : list string :=
  ["primary_info"; "contact_info"; "digital_presence"; "contextual_summary"].

Definition format_extracted_info_for_display (extracted_info : json)
  : outcome string :=
  primary ← section extracted_info "primary_info" primary_section;
  contact ← section extracted_info "contact_info" contact_section;
  digital ← section extracted_info "digital_presence" digital_section;
  context ← section extracted_info "contextual_summary" contextual_section;
  mret (div_open +:+ primary +:+ contact +:+ digital +:+ context +:+ "</div>").

Definition no_match : string :=
  "<div style='color: red; padding: 10px;'>No matching business cards found.</div>".

Definition upload_prompt : string :=
  "<p style='color: orange;'>Please upload an image.</p>".

Definition processing : string :=
  "<p>Processing image and extracting information... This might take a moment.</p>".

Definition extracting : string := "<p>Extracting data using AI model...</p>".

Definition adding : string := "<p>Adding information to the database...</p>".

Section front_end.
Context {S : Type} `{!Collection S}.

(** [f"{1 - distance:.1%}"]: the text of a floating-point number. *)
Variable match_score : Q → string.

(** [str(e)] *)
Variable exn_message : exn → string.

(** The body of the loop of lines 141-155 for the [i]-th result.  A result
    of [search_cards] has the keys [extracted_info] and [distance]. *)
Definition match_block (i : Z) (result : search_result) : outcome string :=
  info ← format_extracted_info_for_display (sr_extracted_info result);
  mret ("<div style='margin: 20px 0; padding: 15px; border: 1px solid #ddd; border-radius: 5px;'>"
        +:+ "<h3>Match #" +:+ str_of_Z i +:+ "</h3>"
        +:+ info
        +:+ "<p><strong>Match Score:</strong> "
        +:+ match_score (sr_distance result) +:+ "</p>"
        +:+ "</div>").

Fixpoint match_blocks (i : Z) (results : list search_result)
  : outcome string :=
  match results with
  | [] => Ret EmptyString
  | result :: rest =>
      block ← match_block i result;
      blocks ← match_blocks (i + 1) rest;
      mret (block +:+ blocks)
  end.

Definition error_msg (e : exn) : string :=
  "Error searching business cards: " +:+ exn_message e.

Definition search_error (e : exn) : string :=
  "<div style='color: red; padding: 10px;'>" +:+ error_msg e +:+ "</div>".

Definition results_page (query : string) (results : list search_result)
    (blocks : string) : string :=
  div_open
  +:+ "<h2>Search Results for: " +:+ query +:+ "</h2>"
  +:+ "<p>Found " +:+ str_of_Z (Z.of_nat (length results))
  +:+ " matching business cards</p>"
  +:+ blocks +:+ "</div>".

(** [search_business_cards(query, num_results)] on an opened database:
    the page and the raw results. *)
Definition search_business_cards (query : string) (num_results : Z)
  : M S (string * option (list search_result)) :=
  try_except
    (results ← search_cards query num_results;
     match results with
     | [] => mret (no_match, None)
     | _ =>
         blocks ← lift (match_blocks 1 results);
         mret (results_page query results blocks, Some results)
     end)
    any_Exception
    (λ e, print (error_msg e);; mret (search_error e, None)).

Definition failure (e : exn) : string * option card_data :=
  ("<p style='color: red;'>Error processing image: " +:+ exn_message e
   +:+ "</p>", None).

(** The generator [add_business_card(image_file)]: the pairs it yields, in
    order.  [image_file] is [None] when nothing was uploaded;
    [image_hash], [image_base64] and [text] are as for
    [extract_from_image], and the processor and the database are opened. *)
Definition add_business_card (image_file : option string)
    (image_hash image_base64 : string) (text : option string)
  : world S → list (string * option card_data) * world S :=
  λ w,
    match image_file with
    | None | Some EmptyString => ([(upload_prompt, None)], w)
    | Some _ =>
        let started := [(processing, None); (extracting, None)] in
        match processor_extract_from_image image_hash image_base64 text w with
        | (Raise e, w1) => (started ++ [failure e], w1)
        | (Ret card_data, w1) =>
            let stored := started ++ [(adding, None)] in
            match (card_id ← add_business_card card_data;
                   complete_card ← get_card_by_id card_id;
                   extracted_info ← lift (py_getitem card_data "extracted_info");
                   html_output ←
                     lift (format_extracted_info_for_display extracted_info);
                   mret (html_output, Some complete_card)) w1 with
            | (Ret shown, w2) => (stored ++ [shown], w2)
            | (Raise e, w2) => (stored ++ [failure e], w2)
            end
        end
    end.
End front_end.

End app.
(** ** Notions used in the statements and proofs *)

(** What may follow a value in the output of [json_dumps]. *)
Definition delimited (rest : string) : bool :=
  match rest with
  | EmptyString => true
  | String c _ => Ascii.eqb c "," || Ascii.eqb c "]" || Ascii.eqb c "}"
  end.

(** A text whose first character can begin a value: no white space to
    skip, and not the end of an array or an object. *)
Definition value_start (s : string) : bool :=
  match s with
  | EmptyString => false
  | String c _ =>
      negb (is_ws c) && negb (Ascii.eqb c "]") && negb (Ascii.eqb c "}")
  end.

(** Fuel that lets [scan_once] read back [json_dumps v]. *)
Fixpoint fuel_need (v : json) : nat :=
  match v with
  | JArr xs => S (fold_right (λ x acc, S (fuel_need x + acc)) O xs)
  | JObj kvs => S (fold_right (λ kv acc, S (fuel_need kv.2 + acc)) O kvs)
  | _ => 1%nat
  end.

Definition dump_member (kv : string * json) : string :=
  encode_basestring_ascii kv.1 +:+ ": " +:+ json_dumps kv.2.

(** [scan_once] reads [json_dumps v] back, whatever delimiter follows. *)
Definition reads_back (v : json) : Prop :=
  wf_json v = true →
  ∀ (f : nat) (rest : string),
    (fuel_need v ≤ f)%nat → delimited rest = true →
    scan_once f (json_dumps v +:+ rest) = Some (v, rest).

(** Fuel for the elements of an array and the members of an object. *)
Definition items_need (xs : list json) : nat :=
  fold_right (λ x acc, S (fuel_need x + acc)) O xs.

Definition members_need (kvs : list (string * json)) : nat :=
  fold_right (λ kv acc, S (fuel_need kv.2 + acc)) O kvs.

(** The nearest-neighbour queries recorded in a log. *)
Definition queries_of (log : list event) : list (list string * Z) :=
  omap (λ ev, match ev with
              | CollQuery texts k => Some (texts, k)
              | _ => None
              end) log.

(** A computation that issues no nearest-neighbour query and leaves the
    store as it is. *)
Definition read_only {S A} (m : M S A) : Prop :=
  ∀ w, w_store (m w).2 = w_store w ∧
       queries_of (w_log (m w).2) = queries_of (w_log w).

(** The [QueryResult] that carries a sequence of raw hits, each a fragment
    identifier with its distance. *)
Definition results_of_hits (hits : list (string * Q)) : QueryResult :=
  {| qr_ids := Some [map fst hits];
     qr_distances := Some [map snd hits] |}.

(** The hits with the slot suffix stripped: card identity and distance. *)
Definition card_hits (hits : list (string * Q)) : list (string * Q) :=
  map (λ h, (strip_slot h.1, h.2)) hits.

(** The distance of the first hit that belongs to card [c]. *)
Fixpoint first_hit (c : string) (hits : list (string * Q)) : option Q :=
  match hits with
  | [] => None
  | (fragment_id, dist) :: rest =>
      if String.eqb (strip_slot fragment_id) c then Some dist
      else first_hit c rest
  end.

(** Card identity and distance of each aggregated result. *)
Definition emitted (out : list (string * search_result)) : list (string * Q) :=
  map (λ cr, (cr.1, sr_distance cr.2)) out.

(** What holds of the loop state once the hits in [done] are processed. *)
Definition aggregate_inv (done : list (string * Q))
    (formatted : list (string * search_result)) (seen : gset string) : Prop :=
  (∀ h, h ∈ done → strip_slot h.1 ∈ seen) ∧
  (∀ c, c ∈ map fst formatted → c ∈ seen) ∧
  NoDup (map fst formatted) ∧
  sublist (emitted formatted) (card_hits done) ∧
  (∀ c q, (c, q) ∈ emitted formatted → first_hit c done = Some q).

(** The properties of the aggregated results for the raw [hits]: one
    result per card, in the order of the hits, each with the distance of
    the first hit of its card, ascending when the hits are. *)
Definition deduplicated (hits : list (string * Q))
    (out : list (string * search_result)) : Prop :=
  NoDup (map fst out) ∧
  sublist (emitted out) (card_hits hits) ∧
  (∀ c q, (c, q) ∈ emitted out → first_hit c hits = Some q) ∧
  (Sorted Qle (map snd hits) → Sorted Qle (map snd (emitted out))).

(** The store answers a lookup of the four fragment identifiers of
    [card_id] with copies of the metadata [md]: the card is persisted. *)
Definition persisted {S : Type} `{!Collection S} (s : S) (card_id : string)
    (md : Metadata) : Prop :=
  ∃ mds, coll_get s (fragment_ids card_id) = Ret mds ∧
         mds ≠ [] ∧ Forall (λ m, m = Some md) mds.


(** All four fragment identifiers of [card_id] are in the store. *)
Definition stored (s : mem_store) (card_id : string) : Prop :=
  Forall (λ id, is_Some (frag_lookup id (fragments s))) (fragment_ids card_id).

(** The identity fragment as the specification words it. *)
Definition spec_identity_fragment (name job_title industry address : string)
  : string :=
  name +:+ " is a " +:+ job_title +:+ " in " +:+ industry
  +:+ ", based in " +:+ address +:+ ".".

(** The identifier lookups recorded in a log. *)
Definition lookups_of (log : list event) : list (list string) :=
  omap (λ ev, match ev with CollGet ids => Some ids | _ => None end) log.
(** ** Sample data *)

Definition value_of (s : string) : json := JObj [("value", JStr s)].

(** A record with every field of the extraction schema. *)
Definition ada_extraction : json :=
  JObj
    [("primary_info",
      JObj [("name", value_of "Ada Lovelace");
            ("job_title", value_of "Engineer");
            ("company", JObj [("text_value", JStr "Analytical Engines")])]);
     ("contact_info",
      JObj [("emails", JArr [value_of "ada@engines.example"]);
            ("phones", JArr []);
            ("addresses", JArr [value_of "London"])]);
     ("digital_presence",
      JObj [("website", value_of "engines.example");
            ("social_media",
             JArr [JObj [("platform", JStr "linkedin"); ("handle", JStr "ada")];
                   JObj [("platform", JStr "github"); ("handle", JStr "ada-l")]])]);
     ("contextual_summary",
      JObj [("professional_summary", JStr "Pioneer of computing");
            ("industry_inference", JStr "Computing");
            ("seniority_estimate", JStr "Senior")])].

Definition ada_card : json := card_of_extraction "abc123" "QUJD" ada_extraction.

(** The record [extract_from_image] builds when the model's answer could
    not be parsed: [process_llm_response] returned [{}]. *)
Definition unparsed_card : json := card_of_extraction "abc123" "QUJD" (JObj []).

(** The same person with an empty list of e-mail addresses. *)
Definition no_email_extraction : json :=
  JObj
    [("primary_info",
      JObj [("name", value_of "Ada Lovelace");
            ("job_title", value_of "Engineer");
            ("company", JObj [("text_value", JStr "Analytical Engines")])]);
     ("contact_info",
      JObj [("emails", JArr []); ("addresses", JArr [value_of "London"])])].

Definition no_email_card : json :=
  card_of_extraction "abc123" "QUJD" no_email_extraction.

(** A complete extraction without the [image_metadata] section. *)
Definition no_image_card : json := JObj [("extracted_info", ada_extraction)].

Definition empty_store : mem_store :=
  {| fragments := []; nearest := λ _, []; online := true |}.

(** A store whose service cannot be reached. *)
Definition offline_store : mem_store :=
  {| fragments := []; nearest := λ _, []; online := false |}.

(** A stored fragment of a card called [name]. *)
Definition stub_metadata (name : string) : Metadata :=
  <["source_json" :=
      json_dumps (JObj [("extracted_info", JObj [("who", JStr name)])])]>
  (<["name" := name]> ∅).

Definition stub_fragment (name : string) : fragment :=
  {| f_document := name; f_metadata := Some (stub_metadata name) |}.

(** The scenario of the specification: hits [X_2], [X_0], [Y_1]. *)
Definition scenario_hits : list (string * Q) :=
  [("X_2", 1 # 10); ("X_0", 3 # 10); ("Y_1", 2 # 10)]%Q.

Definition scenario_store : mem_store :=
  {| fragments := [("X_0", stub_fragment "X"); ("X_2", stub_fragment "X");
                   ("Y_1", stub_fragment "Y")];
     nearest := λ _, scenario_hits;
     online := true |}.

(** Hits in ascending distance over the same fragments. *)
Definition sorted_hits : list (string * Q) :=
  [("X_2", 1 # 10); ("Y_1", 2 # 10); ("X_0", 3 # 10)]%Q.

Definition sorted_store : mem_store :=
  {| fragments := fragments scenario_store;
     nearest := λ _, sorted_hits;
     online := true |}.

Definition no_processed : processed :=
  {| documents := []; metadata := ∅; image_base64 := JNull |}.

Definition ada_processed : processed :=
  match process_business_card ada_card with
  | Ret p => p
  | Raise _ => no_processed
  end.

(** The world after [ada_card] is added to the empty store. *)
Definition ada_world : world mem_store :=
  (add_business_card ada_card (World empty_store [])).2.



(** A store in which card [B] carries a [source_json] that is not JSON,
    ranked between two sound cards. *)
Definition corrupt_metadata : Metadata :=
  <["source_json" := "{not json"]> (<["name" := "B"]> ∅).

Definition corrupt_store : mem_store :=
  {| fragments := [("A_0", stub_fragment "A");
                   ("B_0", {| f_document := "B";
                              f_metadata := Some corrupt_metadata |});
                   ("C_0", stub_fragment "C")];
     nearest := λ _, [("A_0", 1 # 10); ("B_0", 2 # 10); ("C_0", 3 # 10)]%Q;
     online := true |}.

(** Three cards with all their fragments: twelve fragments. *)
Definition three_card_store : mem_store :=
  {| fragments :=
       flat_map (λ name, map (λ id, (id, stub_fragment name)) (fragment_ids name))
         ["A"; "B"; "C"];
     nearest := λ _, [("A_0", 1 # 10); ("B_3", 2 # 10); ("A_1", 3 # 10)]%Q;
     online := true |}.

(** A record with the three required fields of [primary_info] and no
    other section. *)
Definition minimal_card (name job_title company image_hash image_base64 : string)
  : json :=
  card_of_extraction image_hash image_base64
    (JObj [("primary_info",
            JObj [("name", value_of name);
                  ("job_title", value_of job_title);
                  ("company", JObj [("text_value", JStr company)])])]).

(** The store after [ada_card] was added, with an index that ranks two of
    its fragments. *)
Definition ada_hits : list (string * Q) :=
  [("Ada Lovelace-abc123_3", 2 # 10); ("Ada Lovelace-abc123_0", 3 # 10)]%Q.

Definition ada_store : mem_store :=
  {| fragments := fragments (w_store ada_world);
     nearest := λ _, ada_hits;
     online := true |}.

(** A collection that answers a query without distances. *)
Record bare_store : Type := { inner : mem_store }.

#[export] Instance bare_collection : Collection bare_store := {
  coll_get_all s := mem_get_all (inner s);
  coll_get s ids := mem_get (inner s) ids;
  coll_query s texts k :=
    (λ r, {| qr_ids := qr_ids r; qr_distances := None |})
    <$> mem_query (inner s) texts k;
  coll_add s docs mds ids := (λ s', {| inner := s' |})
                             <$> mem_add (inner s) docs mds ids;
}.

(** A card the composer accepts, whose telephone numbers came back as one
    text instead of a list. *)
Definition phone_text_extraction : json :=
  JObj
    [("primary_info",
      JObj [("name", value_of "Grace Hopper");
            ("job_title", value_of "Rear Admiral");
            ("company", JObj [("text_value", JStr "Navy")])]);
     ("contact_info", JObj [("phones", JStr "555 0100")])].

Definition phone_text_card : json :=
  card_of_extraction "def456" "R0g=" phone_text_extraction.

(** The store after [phone_text_card] was added, with an index that ranks
    one of its fragments. *)
Definition phone_text_store : mem_store :=
  {| fragments :=
       fragments (w_store (add_business_card phone_text_card
                             (World empty_store [])).2);
     nearest := λ _, [("Grace Hopper-def456_0", 1 # 10)]%Q;
     online := true |}.

(** A record with the sections in another order and two sections the
    display does not read. *)
Definition reordered_extraction : json :=
  match ada_extraction with
  | JObj kvs =>
      JObj (("visual_elements", JObj [("color_scheme", JStr "blue")])
            :: reverse kvs
            ++ [("processing_metadata", JObj [("challenges", JStr "none")])])
  | v => v
  end.

(** The texts the examples use for a score and for an exception. *)
Definition sample_score (distance : Q) : string := "n/a".

Definition sample_message (e : exn) : string :=
  match e with
  | KeyError key => repr_str key
  | _ => "error"
  end.

Definition phone_text_processed : processed :=
  match process_business_card phone_text_card with
  | Ret p => p
  | Raise _ => no_processed
  end.

(** The result of a search that finds [phone_text_card]. *)
Definition phone_text_result : search_result :=
  {| sr_metadata := metadata phone_text_processed;
     sr_distance := (1 # 10)%Q;
     sr_extracted_info := phone_text_extraction |}.
(** * Facts *)

Lemma rfind_split_app_sep (sep : ascii) (c t : string) :
  rfind_split sep t = None →
  rfind_split sep (c +:+ String sep t) = Some (c, t).
Proof.
  intros Ht. induction c as [|a c IH]; simpl.
  - rewrite Ht, Ascii.eqb_refl. reflexivity.
  - rewrite IH. reflexivity.
Qed.

Lemma strip_slot_app (c t : string) :
  rfind_split underscore t = None →
  strip_slot (c +:+ String underscore t) = c.
Proof.
  intros Ht. unfold strip_slot, rsplit1.
  rewrite (rfind_split_app_sep _ _ _ Ht). reflexivity.
Qed.


(** ** Strings *)

#[local] Arguments String.append !_ _ / : simpl nomatch.

Lemma append_assoc (a b c : string) : (a +:+ b) +:+ c = a +:+ (b +:+ c).
Proof. induction a as [|x a IH]; simpl; congruence. Qed.

Lemma append_empty_r (a : string) : a +:+ EmptyString = a.
Proof. induction a as [|x a IH]; simpl; congruence. Qed.

Lemma length_append (a b : string) :
  String.length (a +:+ b) = (String.length a + String.length b)%nat.
Proof. induction a as [|x a IH]; simpl; congruence. Qed.

(** ** [json.loads] after [json.dumps] *)

(** The scanner undoes the escaping of one character. *)
Lemma scanstring_escape_char (c : ascii) (tail : string) :
  scanstring (escape_char c +:+ tail) = push_char c (scanstring tail).
Proof.
  destruct c as [[] [] [] [] [] [] [] []]; reflexivity.
Qed.

Lemma scanstring_escape_chars (s rest : string) :
  scanstring (escape_chars s +:+ String dquote rest) = Some (s, rest).
Proof.
  induction s as [|c s IH]; simpl.
  - reflexivity.
  - rewrite append_assoc, scanstring_escape_char, IH. reflexivity.
Qed.

Lemma delimited_no_digit (rest : string) :
  delimited rest = true → starts_with_digit rest = false.
Proof.
  destruct rest as [|c r]; [reflexivity|]. simpl. unfold is_digit, digit_of.
  intros H.
  repeat match goal with
         | |- context [Ascii.eqb c ?d] =>
             destruct (Ascii.eqb_spec c d); [subst c; discriminate H|]
         end.
  reflexivity.
Qed.

Lemma delimited_no_float (rest : string) :
  delimited rest = true → float_tail rest = false.
Proof.
  destruct rest as [|c r]; [reflexivity|]. simpl. intros H.
  repeat match goal with
         | |- context [Ascii.eqb c ?d] =>
             destruct (Ascii.eqb_spec c d); [subst c; discriminate H|]
         end.
  reflexivity.
Qed.

Lemma scan_digits_nil (rest : string) :
  starts_with_digit rest = false → scan_digits rest = (Decimal.Nil, rest).
Proof.
  destruct rest as [|c r]; [reflexivity|]. simpl. unfold is_digit.
  destruct (digit_of c); [discriminate | reflexivity].
Qed.

Lemma scan_digits_uint (u : Decimal.uint) (rest : string) :
  starts_with_digit rest = false →
  scan_digits (NilEmpty.string_of_uint u +:+ rest) = (u, rest).
Proof.
  intros H. induction u; simpl; try rewrite IHu; try reflexivity.
  apply scan_digits_nil, H.
Qed.

Lemma to_uint_unorm (p : positive) :
  Decimal.unorm (Pos.to_uint p) = Pos.to_uint p.
Proof.
  rewrite <- DecimalPos.Unsigned.to_of, DecimalPos.Unsigned.of_to.
  reflexivity.
Qed.

(** The decimal digits of a positive number start with a non-zero digit. *)
Lemma to_uint_head (p : positive) :
  ∃ c s, NilEmpty.string_of_uint (Pos.to_uint p) = String c s ∧
         is_digit c = true ∧ Ascii.eqb c "0" = false ∧
         Ascii.eqb c "-" = false.
Proof.
  pose proof (to_uint_unorm p) as Hn.
  pose proof (DecimalPos.Unsigned.to_uint_nonnil p) as Hnil.
  pose proof (DecimalPos.Unsigned.to_uint_nonzero p) as Hz.
  destruct (Pos.to_uint p) as [|u|u|u|u|u|u|u|u|u|u] eqn:E;
    try (simpl; eexists _, _; split; [reflexivity|]; repeat split; reflexivity).
  - congruence.
  - exfalso.
    assert (Hu : u ≠ Decimal.Nil) by (intros ->; congruence).
    pose proof (nb_digits_unorm u Hu) as Hle.
    rewrite unorm_D0 in Hn. rewrite Hn in Hle. simpl in Hle. lia.
Qed.

Lemma string_of_uint_pos (p : positive) :
  NilZero.string_of_uint (Pos.to_uint p) =
  NilEmpty.string_of_uint (Pos.to_uint p).
Proof.
  pose proof (DecimalPos.Unsigned.to_uint_nonnil p).
  destruct (Pos.to_uint p); try reflexivity; congruence.
Qed.

Lemma match_natural_pos (p : positive) (rest : string) :
  starts_with_digit rest = false →
  match_natural (NilEmpty.string_of_uint (Pos.to_uint p) +:+ rest)
  = Some (Z.pos p, rest).
Proof.
  intros H. destruct (to_uint_head p) as (c & s & E & Hd & H0 & _).
  pose proof (scan_digits_uint (Pos.to_uint p) rest H) as Hs.
  rewrite E in Hs |- *.
  change (String c s +:+ rest) with (String c (s +:+ rest)) in *.
  unfold match_natural. rewrite H0, Hd, Hs.
  unfold Z.of_uint. rewrite DecimalPos.Unsigned.of_to. reflexivity.
Qed.

Lemma match_number_unsigned (c : ascii) (s : string) :
  Ascii.eqb c "-" = false →
  match_number (String c s) =
  '(n, rest) ← match_natural (String c s);
  if float_tail rest then None else Some (n, rest).
Proof. intros H. unfold match_number. rewrite H. reflexivity. Qed.

Lemma match_number_str_of_Z (n : Z) (rest : string) :
  delimited rest = true →
  match_number (str_of_Z n +:+ rest) = Some (n, rest).
Proof.
  intros H.
  pose proof (delimited_no_digit rest H) as Hd.
  pose proof (delimited_no_float rest H) as Hf.
  destruct n as [|p|p]; unfold str_of_Z; simpl Z.to_int;
    unfold NilZero.string_of_int.
  - unfold match_number, match_natural. simpl. rewrite Hf. reflexivity.
  - rewrite string_of_uint_pos.
    destruct (to_uint_head p) as (c & s & E & _ & _ & Hm).
    pose proof (match_natural_pos p rest Hd) as Hn.
    rewrite E in Hn |- *.
    change (String c s +:+ rest) with (String c (s +:+ rest)) in *.
    rewrite (match_number_unsigned _ _ Hm), Hn. simpl.
    rewrite Hf. reflexivity.
  - rewrite string_of_uint_pos.
    pose proof (match_natural_pos p rest Hd) as Hn.
    change (String "-" (NilEmpty.string_of_uint (Pos.to_uint p)) +:+ rest)
      with (String "-" (NilEmpty.string_of_uint (Pos.to_uint p) +:+ rest)).
    unfold match_number. simpl. rewrite Hn. simpl. rewrite Hf. reflexivity.
Qed.

Lemma json_nested_ind (P : json → Prop) :
  P JNull → (∀ b, P (JBool b)) → (∀ n, P (JInt n)) → (∀ s, P (JStr s)) →
  (∀ xs, Forall P xs → P (JArr xs)) →
  (∀ kvs, Forall (λ kv, P kv.2) kvs → P (JObj kvs)) →
  ∀ v, P v.
Proof.
  intros Hnull Hbool Hint Hstr Harr Hobj.
  fix IH 1. intros [ | b | n | s | xs | kvs ].
  - exact Hnull.
  - apply Hbool.
  - apply Hint.
  - apply Hstr.
  - apply Harr. induction xs as [|x xs IHxs]; constructor; [apply IH | exact IHxs].
  - apply Hobj. induction kvs as [|[k x] kvs IHkvs]; constructor;
      [apply IH | exact IHkvs].
Qed.

Lemma strip_prefix_app (p rest : string) :
  strip_prefix p (p +:+ rest) = Some rest.
Proof.
  unfold strip_prefix.
  assert (Hp : String.prefix p (p +:+ rest) = true).
  { induction p as [|c p IH]; simpl; [now destruct rest|].
    destruct (ascii_dec c c); [exact IH | congruence]. }
  rewrite Hp. f_equal. rewrite length_append.
  replace (String.length p + String.length rest - String.length p)%nat
    with (String.length rest) by lia.
  induction p as [|c p IH]; simpl.
  - clear Hp. induction rest as [|c r IHr]; simpl; [reflexivity | now rewrite IHr].
  - apply IH. simpl in Hp. destruct (ascii_dec c c); [exact Hp | congruence].
Qed.

Lemma skip_ws_value_start (s : string) :
  value_start s = true → skip_ws s = s.
Proof.
  destruct s as [|c r]; simpl; [discriminate|].
  destruct (is_ws c); [discriminate | reflexivity].
Qed.

Lemma is_digit_cases (c : ascii) :
  is_digit c = true →
  c ∈ ["0"; "1"; "2"; "3"; "4"; "5"; "6"; "7"; "8"; "9"]%char.
Proof.
  unfold is_digit, digit_of. intros H.
  repeat match goal with
         | H : context [Ascii.eqb c ?d] |- _ =>
             destruct (Ascii.eqb_spec c d); [subst c; set_solver|]
         end.
  discriminate.
Qed.

Lemma str_of_Z_head (n : Z) :
  ∃ c s, str_of_Z n = String c s ∧ (c = "-"%char ∨ is_digit c = true).
Proof.
  destruct n as [|p|p]; unfold str_of_Z; simpl Z.to_int;
    unfold NilZero.string_of_int.
  - eexists _, _. split; [reflexivity | right; reflexivity].
  - rewrite string_of_uint_pos.
    destruct (to_uint_head p) as (c & s & E & Hd & _). eauto.
  - eexists _, _. split; [reflexivity | left; reflexivity].
Qed.

(** On a text that starts like a number, [scan_once] is [match_number]. *)
Lemma scan_once_number (f : nat) (c : ascii) (s : string) :
  c = "-"%char ∨ is_digit c = true →
  scan_once (S f) (String c s) =
  '(n, rest) ← match_number (String c s); Some (JInt n, rest).
Proof.
  intros [->|H]; [reflexivity|].
  apply is_digit_cases in H.
  repeat (apply elem_of_cons in H as [->|H]; [reflexivity|]).
  set_solver.
Qed.

Lemma value_start_number (c : ascii) (s : string) :
  c = "-"%char ∨ is_digit c = true → value_start (String c s) = true.
Proof.
  intros [->|H]; [reflexivity|].
  apply is_digit_cases in H.
  repeat (apply elem_of_cons in H as [->|H]; [reflexivity|]).
  set_solver.
Qed.

Lemma value_start_dumps (v : json) (rest : string) :
  value_start (json_dumps v +:+ rest) = true.
Proof.
  destruct v as [ | [] | n | s | xs | kvs ]; try reflexivity.
  destruct (str_of_Z_head n) as (c & s & E & H).
  simpl json_dumps. rewrite E. apply (value_start_number c _ H).
Qed.

Lemma array_items_step (f : nat) (s : string) :
  array_items (S f) s =
  '(value, s1) ← scan_once f s;
  match skip_ws s1 with
  | String c s2 =>
      if Ascii.eqb c "]" then Some ([value], s2)
      else if Ascii.eqb c "," then
        '(xs, rest) ← array_items f (skip_ws s2); Some (value :: xs, rest)
      else None
  | EmptyString => None
  end.
Proof. reflexivity. Qed.

Lemma object_pairs_step (f : nat) (s : string) :
  object_pairs (S f) s =
  '(key, s1) ← scanstring s;
  match skip_ws s1 with
  | String c s2 =>
      if Ascii.eqb c ":" then
        '(value, s3) ← scan_once f (skip_ws s2);
        match skip_ws s3 with
        | String c' s4 =>
            if Ascii.eqb c' "}" then Some ([(key, value)], s4)
            else if Ascii.eqb c' "," then
              match skip_ws s4 with
              | String c'' s5 =>
                  if Ascii.eqb c'' dquote then
                    '(pairs, rest) ← object_pairs f s5;
                    Some ((key, value) :: pairs, rest)
                  else None
              | EmptyString => None
              end
            else None
        | EmptyString => None
        end
      else None
  | EmptyString => None
  end.
Proof. reflexivity. Qed.

Lemma value_start_join (x : json) (xs : list json) (rest : string) :
  value_start (join ", " (map json_dumps (x :: xs)) +:+ rest) = true.
Proof.
  destruct xs as [|y ys]; simpl join.
  - apply value_start_dumps.
  - rewrite append_assoc. apply value_start_dumps.
Qed.

Lemma array_items_dumps (xs : list json) :
  xs ≠ [] → Forall reads_back xs → forallb wf_json xs = true →
  ∀ (f : nat) (rest : string),
    (items_need xs ≤ f)%nat →
    array_items f (join ", " (map json_dumps xs) +:+ String "]" rest)
    = Some (xs, rest).
Proof.
  induction xs as [|x xs IH]; [congruence|].
  intros _ Hall Hwf f rest Hf.
  apply Forall_cons_1 in Hall as [Hx Hxs].
  simpl in Hwf. apply andb_true_iff in Hwf as [Hwx Hwxs].
  unfold items_need in Hf. simpl in Hf. fold (items_need xs) in Hf.
  destruct f as [|f]; [lia|]. rewrite array_items_step.
  destruct xs as [|y ys].
  - simpl join. rewrite (Hx Hwx f) by (lia || reflexivity). reflexivity.
  - change (join ", " (map json_dumps (x :: y :: ys)))
      with (json_dumps x +:+ ", " +:+ join ", " (map json_dumps (y :: ys))).
    pose proof (value_start_join y ys (String "]" rest)) as Hstart.
    specialize (IH ltac:(congruence) Hxs Hwxs f rest ltac:(lia)).
    set (J := join ", " (map json_dumps (y :: ys))) in *. clearbody J.
    rewrite !append_assoc.
    change (", " +:+ ?t) with (String "," (String " " t)).
    rewrite (Hx Hwx f) by (lia || reflexivity).
    change (skip_ws (String "," ?t)) with (String "," t). simpl mbind.
    change (skip_ws (String " " ?t)) with (skip_ws t).
    rewrite (skip_ws_value_start _ Hstart), IH. reflexivity.
Qed.

Lemma join_members_head (kv : string * json) (kvs : list (string * json)) :
  ∃ t, join ", " (map dump_member (kv :: kvs)) = String dquote t.
Proof.
  destruct kvs as [|kv2 kvs]; simpl join; unfold dump_member at 1;
    unfold encode_basestring_ascii; simpl; eauto.
Qed.

Lemma object_pairs_dumps (kvs : list (string * json)) :
  kvs ≠ [] → Forall (λ kv, reads_back kv.2) kvs →
  forallb (λ kv, wf_json kv.2) kvs = true →
  ∀ (f : nat) (rest t : string),
    (members_need kvs ≤ f)%nat →
    String dquote t = join ", " (map dump_member kvs) +:+ String "}" rest →
    object_pairs f t = Some (kvs, rest).
Proof.
  induction kvs as [|[k v] kvs IH]; [congruence|].
  intros _ Hall Hwf f rest t Hf Ht.
  apply Forall_cons_1 in Hall as [Hx Hxs]. simpl in Hx.
  simpl in Hwf. apply andb_true_iff in Hwf as [Hwx Hwxs].
  unfold members_need in Hf. simpl in Hf. fold (members_need kvs) in Hf.
  destruct f as [|f]; [lia|]. rewrite object_pairs_step.
  destruct kvs as [|kv2 kvs].
  - simpl join in Ht. unfold dump_member, encode_basestring_ascii in Ht.
    simpl fst in Ht. simpl snd in Ht.
    change (String dquote ?a +:+ ?b) with (String dquote (a +:+ b)) in Ht.
    injection Ht as ->. rewrite !append_assoc.
    change (str1 dquote +:+ ?b) with (String dquote b).
    rewrite scanstring_escape_chars. simpl.
    rewrite skip_ws_value_start by apply value_start_dumps.
    rewrite (Hx Hwx f) by (lia || reflexivity). reflexivity.
  - destruct (join_members_head kv2 kvs) as [t2 Et2].
    specialize (IH ltac:(congruence) Hxs Hwxs f rest (t2 +:+ String "}" rest)
                  ltac:(lia)).
    change (join ", " (map dump_member ((k, v) :: kv2 :: kvs)))
      with (dump_member (k, v) +:+ ", "
            +:+ join ", " (map dump_member (kv2 :: kvs))) in Ht.
    rewrite Et2 in IH, Ht. specialize (IH eq_refl).
    unfold dump_member, encode_basestring_ascii in Ht.
    simpl fst in Ht. simpl snd in Ht.
    change (String dquote ?a +:+ ?b) with (String dquote (a +:+ b)) in Ht.
    injection Ht as ->. rewrite !append_assoc.
    change (str1 dquote +:+ ?b) with (String dquote b).
    rewrite scanstring_escape_chars. simpl.
    rewrite skip_ws_value_start by apply value_start_dumps.
    rewrite (Hx Hwx f) by (lia || reflexivity). simpl.
    rewrite IH. reflexivity.
Qed.

Lemma dict_set_fresh (k : string) (v : json) (acc : list (string * json)) :
  k ∉ map fst acc → dict_set k v acc = acc ++ [(k, v)].
Proof.
  induction acc as [|[k' v'] acc IH]; simpl; intros Hk; [reflexivity|].
  destruct (String.eqb_spec k k') as [->|Hne]; [set_solver|].
  rewrite IH by set_solver. reflexivity.
Qed.

Lemma fold_dict_set_nodup (kvs acc : list (string * json)) :
  NoDup (map fst (acc ++ kvs)) →
  fold_left (λ d kv, dict_set kv.1 kv.2 d) kvs acc = acc ++ kvs.
Proof.
  revert acc. induction kvs as [|[k v] kvs IH]; intros acc Hnd; simpl.
  - now rewrite app_nil_r.
  - rewrite dict_set_fresh.
    + rewrite IH; rewrite <- app_assoc; [reflexivity | exact Hnd].
    + rewrite List.map_app in Hnd. apply NoDup_app in Hnd as (_ & Hd & _).
      intros Hin. apply (Hd k Hin). simpl. set_solver.
Qed.

Lemma dict_of_pairs_nodup (kvs : list (string * json)) :
  NoDup (map fst kvs) → dict_of_pairs kvs = kvs.
Proof. intros H. unfold dict_of_pairs. now rewrite fold_dict_set_nodup. Qed.

Lemma reads_back_all (v : json) : reads_back v.
Proof.
  induction v as [ | b | n | s | xs IH | kvs IH ] using json_nested_ind;
    intros Hwf f rest Hf Hd; (destruct f as [|f]; [simpl in Hf; lia|]).
  - simpl.
    change (String "n" (String "u" (String "l" (String "l" rest))))
      with ("null" +:+ rest).
    rewrite strip_prefix_app. reflexivity.
  - destruct b; simpl.
    + change (String "t" (String "r" (String "u" (String "e" rest))))
        with ("true" +:+ rest).
      rewrite strip_prefix_app. reflexivity.
    + change (String "f" (String "a" (String "l" (String "s" (String "e" rest)))))
        with ("false" +:+ rest).
      rewrite strip_prefix_app. reflexivity.
  - destruct (str_of_Z_head n) as (c & s & E & H).
    pose proof (match_number_str_of_Z n rest Hd) as Hn.
    simpl json_dumps. rewrite E in Hn |- *.
    change (String c s +:+ rest) with (String c (s +:+ rest)) in *.
    rewrite (scan_once_number f c _ H), Hn. reflexivity.
  - simpl json_dumps. unfold encode_basestring_ascii.
    change (String dquote ?a +:+ ?b) with (String dquote (a +:+ b)).
    rewrite append_assoc.
    change (str1 dquote +:+ ?b) with (String dquote b).
    simpl. rewrite scanstring_escape_chars. reflexivity.
  - simpl in Hwf. simpl in Hf. fold (items_need xs) in Hf.
    destruct xs as [|x xs]; [reflexivity|].
    pose proof (array_items_dumps (x :: xs) ltac:(congruence) IH Hwf f rest
                  ltac:(lia)) as Hitems.
    pose proof (value_start_join x xs (String "]" rest)) as Hstart.
    change (json_dumps (JArr (x :: xs)))
      with ("[" +:+ join ", " (map json_dumps (x :: xs)) +:+ "]").
    set (J := join ", " (map json_dumps (x :: xs))) in *. clearbody J.
    change ("[" +:+ J +:+ "]") with (String "[" (J +:+ "]")).
    change (String "[" ?a +:+ ?b) with (String "[" (a +:+ b)).
    rewrite append_assoc. change ("]" +:+ rest) with (String "]" rest).
    set (T := J +:+ String "]" rest) in *. clearbody T.
    simpl. rewrite (skip_ws_value_start _ Hstart).
    destruct T as [|c T]; [discriminate|].
    simpl in Hstart.
    destruct (Ascii.eqb c "]"); [now rewrite andb_false_r in Hstart|].
    rewrite Hitems. reflexivity.
  - simpl in Hwf. apply andb_true_iff in Hwf as [Hnd Hwf].
    apply bool_decide_eq_true in Hnd.
    simpl in Hf. fold (members_need kvs) in Hf.
    destruct kvs as [|kv kvs]; [reflexivity|].
    destruct (join_members_head kv kvs) as [t Et].
    pose proof (object_pairs_dumps (kv :: kvs) ltac:(congruence) IH Hwf f rest
                  (t +:+ String "}" rest) ltac:(lia)) as Hpairs.
    change (json_dumps (JObj (kv :: kvs)))
      with ("{" +:+ join ", " (map dump_member (kv :: kvs)) +:+ "}").
    rewrite Et in Hpairs |- *. specialize (Hpairs eq_refl).
    change ("{" +:+ ?a +:+ "}") with (String "{" (a +:+ "}")).
    change (String "{" ?a +:+ ?b) with (String "{" (a +:+ b)).
    rewrite append_assoc. change ("}" +:+ rest) with (String "}" rest).
    change (String dquote t +:+ ?b) with (String dquote (t +:+ b)).
    simpl. rewrite Hpairs. simpl.
    rewrite (dict_of_pairs_nodup _ Hnd). reflexivity.
Qed.

Lemma items_need_length (xs : list json) :
  Forall (λ x, (fuel_need x ≤ String.length (json_dumps x))%nat) xs →
  (items_need xs ≤ String.length (join ", " (map json_dumps xs)) + 1)%nat.
Proof.
  induction 1 as [|x xs Hx _ IH]; [simpl; lia|].
  change (items_need (x :: xs)) with (S (fuel_need x + items_need xs)).
  destruct xs as [|y ys].
  - simpl in *. lia.
  - change (join ", " (map json_dumps (x :: y :: ys)))
      with (json_dumps x +:+ ", " +:+ join ", " (map json_dumps (y :: ys))).
    rewrite !length_append. simpl (String.length ", "). lia.
Qed.

Lemma members_need_length (kvs : list (string * json)) :
  Forall (λ kv, (fuel_need kv.2 ≤ String.length (json_dumps kv.2))%nat) kvs →
  (members_need kvs ≤ String.length (join ", " (map dump_member kvs)) + 1)%nat.
Proof.
  induction 1 as [|[k x] kvs Hx _ IH]; [simpl; lia|].
  change (members_need ((k, x) :: kvs))
    with (S (fuel_need x + members_need kvs)).
  assert (Hm : (fuel_need x + 1 ≤ String.length (dump_member (k, x)))%nat).
  { unfold dump_member. rewrite !length_append. simpl in *. lia. }
  destruct kvs as [|kv2 kvs].
  - simpl join. simpl members_need. lia.
  - change (join ", " (map dump_member ((k, x) :: kv2 :: kvs)))
      with (dump_member (k, x) +:+ ", "
            +:+ join ", " (map dump_member (kv2 :: kvs))).
    rewrite !length_append. simpl (String.length ", "). lia.
Qed.

Lemma fuel_need_length (v : json) :
  (fuel_need v ≤ String.length (json_dumps v))%nat.
Proof.
  induction v as [ | b | n | s | xs IH | kvs IH ] using json_nested_ind.
  - simpl. lia.
  - destruct b; simpl; lia.
  - destruct (str_of_Z_head n) as (c & s & E & _). simpl. rewrite E. simpl. lia.
  - simpl. lia.
  - change (json_dumps (JArr xs))
      with ("[" +:+ join ", " (map json_dumps xs) +:+ "]").
    pose proof (items_need_length xs IH) as H.
    simpl fuel_need. fold (items_need xs).
    rewrite !length_append. simpl String.length. lia.
  - change (json_dumps (JObj kvs))
      with ("{" +:+ join ", " (map dump_member kvs) +:+ "}").
    pose proof (members_need_length kvs IH) as H.
    simpl fuel_need. fold (members_need kvs).
    rewrite !length_append. simpl String.length. lia.
Qed.

(** [json.loads(json.dumps(v)) == v] for every value [v]. *)
Lemma json_loads_dumps (v : json) :
  wf_json v = true → json_loads (json_dumps v) = Ret v.
Proof.
  intros Hwf. unfold json_loads.
  pose proof (value_start_dumps v EmptyString) as Hs.
  rewrite append_empty_r in Hs. rewrite (skip_ws_value_start _ Hs).
  pose proof (reads_back_all v Hwf (S (String.length (json_dumps v)))
                EmptyString) as H.
  rewrite append_empty_r in H. rewrite H; [reflexivity | | reflexivity].
  pose proof (fuel_need_length v). lia.
Qed.

(** ** The search path *)

Lemma queries_of_app (l1 l2 : list event) :
  queries_of (l1 ++ l2) = queries_of l1 ++ queries_of l2.
Proof. unfold queries_of. apply omap_app. Qed.

Section read_only.
Context {S : Type} `{!Collection S}.

Lemma read_only_ret {A} (a : A) : read_only (S:=S) (mret a).
Proof. intros w. split; reflexivity. Qed.

Lemma read_only_lift {A} (o : outcome A) : read_only (S:=S) (lift o).
Proof. intros w. split; reflexivity. Qed.

Lemma read_only_print (line : string) : read_only (S:=S) (print line).
Proof.
  intros w. split; [reflexivity|]. simpl.
  rewrite queries_of_app, app_nil_r. reflexivity.
Qed.

Lemma read_only_call_get (ids : list string) : read_only (call_get ids).
Proof.
  intros w. split; [reflexivity|]. simpl.
  rewrite queries_of_app, app_nil_r. reflexivity.
Qed.

Lemma read_only_bind {A B} (m : M S A) (k : A → M S B) :
  read_only m → (∀ a, read_only (k a)) → read_only (m ≫= k).
Proof.
  intros Hm Hk w. unfold mbind, M_bind. specialize (Hm w).
  destruct (m w) as [[a|e] w1]; simpl in *; [|exact Hm].
  destruct (Hk a w1) as [H1 H2]. destruct Hm as [H3 H4].
  split; congruence.
Qed.

Lemma read_only_try_except {A} (body : M S A) handled
    (handler : exn → M S A) :
  read_only body → (∀ e, read_only (handler e)) →
  read_only (try_except body handled handler).
Proof.
  intros Hm Hk w. unfold try_except. specialize (Hm w).
  destruct (body w) as [[a|e] w1]; simpl in *; [exact Hm|].
  destruct (handled e); [|exact Hm].
  destruct (Hk e w1) as [H1 H2]. destruct Hm as [H3 H4].
  split; congruence.
Qed.

Create HintDb read_only.
#[local] Hint Resolve read_only_ret read_only_lift read_only_print
  read_only_call_get : read_only.

Ltac read_only_steps :=
  repeat first
    [ apply read_only_bind; [solve [auto with read_only] | intros]
    | solve [auto with read_only] ].

Lemma read_only_get_card_by_id (card_id : string) :
  read_only (get_card_by_id card_id).
Proof.
  unfold get_card_by_id, raise. apply read_only_bind; [auto with read_only|].
  intros [|[md|] rest]; read_only_steps.
Qed.

Lemma read_only_format_result results i card :
  read_only (format_result (S:=S) results i card).
Proof. unfold format_result. read_only_steps. Qed.

#[local] Hint Resolve read_only_get_card_by_id read_only_format_result
  : read_only.

Lemma read_only_aggregate results num_results remaining :
  ∀ i formatted seen,
    read_only (aggregate results num_results i remaining formatted seen).
Proof.
  induction remaining as [|fid rest IH]; intros i formatted seen; simpl.
  - auto with read_only.
  - destruct (decide (strip_slot fid ∈ seen)); [apply IH|].
    apply read_only_bind; [auto with read_only | intros card].
    apply read_only_bind.
    + apply read_only_try_except; intros; read_only_steps.
    + intros [formatted'|]; [|apply IH].
      destruct (_ >=? _); [auto with read_only | apply IH].
Qed.
End read_only.

(** C8: when the store holds no fragment, [search_cards] returns the empty
    list as a value; the only call on the store is the one that lists the
    identifiers, so no nearest-neighbour query is issued and the embedding
    function, which only the query runs, is not invoked. *)
Theorem search_cards_empty_store {S : Type} `{!Collection S}
    (query : string) (num_results : Z) (w : world S) :
  coll_get_all (w_store w) = Ret [] →
  search_cards query num_results w =
  (Ret [],
   World (w_store w)
     (w_log w ++
      [Printed ("Processing search query: " +:+ enhance query);
       Printed ("Searching with processed query: " +:+ enhance query);
       CollGetAll;
       Printed "No documents in collection"]))
  ∧ queries_of (w_log (search_cards query num_results w).2)
    = queries_of (w_log w).
Proof.
  intros H.
  assert (E : search_cards query num_results w =
    (Ret [],
     World (w_store w)
       (w_log w ++
        [Printed ("Processing search query: " +:+ enhance query);
         Printed ("Searching with processed query: " +:+ enhance query);
         CollGetAll;
         Printed "No documents in collection"]))).
  { unfold search_cards, search_cards_traced, try_except, process_query,
      call_get_all, print, emit, mbind, M_bind, mret, M_ret. simpl.
    rewrite H. simpl. rewrite <- !app_assoc. reflexivity. }
  split; [exact E|]. rewrite E. simpl.
  rewrite queries_of_app, app_nil_r. reflexivity.
Qed.

Lemma search_cards_empty_store_witness :
  let w := World {| fragments := []; nearest := λ _, []; online := true |} [] in
  search_cards "AI researcher" 3 w =
  (Ret [],
   World (w_store w)
     [Printed ("Processing search query: " +:+ enhance "AI researcher");
      Printed ("Searching with processed query: " +:+ enhance "AI researcher");
      CollGetAll;
      Printed "No documents in collection"])
  ∧ queries_of (w_log (search_cards "AI researcher" 3 w).2) = [].
Proof.
  intros w. exact (search_cards_empty_store "AI researcher" 3 w eq_refl).
Defined.

(** C7: when the store lists [T > 0] fragment identifiers, [search_cards]
    issues exactly one nearest-neighbour query, for the expanded query text
    and [min (d * 4) T] hits; with [d = 3] and at least 12 fragments it asks
    for 12. *)
Theorem search_cards_overfetch {S : Type} `{!Collection S}
    (query : string) (d : Z) (w : world S) (all_ids : list string) :
  coll_get_all (w_store w) = Ret all_ids →
  all_ids ≠ [] →
  queries_of (w_log (search_cards query d w).2) =
  queries_of (w_log w)
  ++ [([enhance query], Z.min (d * 4) (Z.of_nat (length all_ids)))]
  ∧ (d = 3 → (12 ≤ length all_ids)%nat →
     Z.min (d * 4) (Z.of_nat (length all_ids)) = 12).
Proof.
  intros H Hne. split; [|lia].
  unfold search_cards, search_cards_traced, try_except, process_query,
    call_get_all, call_query, print, emit, mbind, M_bind, mret, M_ret.
  simpl. rewrite H.
  destruct all_ids as [|id ids]; [congruence|].
  set (k := Z.min (d * 4) (Z.of_nat (length (id :: ids)))).
  simpl.
  destruct (coll_query _ _ _) as [results|e]; simpl.
  - destruct (qr_ids results) as [[|ids0 rows]|]; simpl;
      try (rewrite !queries_of_app; simpl; rewrite !app_nil_r; reflexivity).
    match goal with
    | |- context [aggregate ?r ?n ?i ?rem ?fm ?seen ?w0] =>
        pose proof (read_only_aggregate r n rem i fm seen w0) as [_ Hq];
        destruct (aggregate r n i rem fm seen w0) as [[out|e] w1]
    end; simpl in *.
    + rewrite !queries_of_app, Hq, !queries_of_app. simpl.
      rewrite !app_nil_r. reflexivity.
    + rewrite !queries_of_app, Hq, !queries_of_app. simpl.
      rewrite !app_nil_r. reflexivity.
  - rewrite !queries_of_app. simpl. rewrite !app_nil_r. reflexivity.
Qed.

Lemma search_cards_overfetch_witness :
  let w := World three_card_store [] in
  queries_of (w_log (search_cards "AI researcher" 3 w).2)
  = [([enhance "AI researcher"], 12)]
  ∧ (3 = 3 → (12 ≤ length (map fst (fragments three_card_store)))%nat →
     Z.min (3 * 4) (Z.of_nat (length (map fst (fragments three_card_store))))
     = 12).
Proof.
  intros w.
  apply (search_cards_overfetch "AI researcher" 3 w
           (map fst (fragments three_card_store))).
  - reflexivity.
  - vm_compute. discriminate.
Defined.

(** ** The aggregation loop *)

Lemma first_hit_app_l (c : string) (q : Q) (l1 l2 : list (string * Q)) :
  first_hit c l1 = Some q → first_hit c (l1 ++ l2) = Some q.
Proof.
  induction l1 as [|[f d] l1 IH]; simpl; [discriminate|].
  destruct (String.eqb _ _); auto.
Qed.

Lemma first_hit_fresh (c : string) (l1 l2 : list (string * Q)) :
  (∀ h, h ∈ l1 → strip_slot h.1 ≠ c) →
  first_hit c (l1 ++ l2) = first_hit c l2.
Proof.
  induction l1 as [|[f d] l1 IH]; simpl; intros H; [reflexivity|].
  destruct (String.eqb_spec (strip_slot f) c) as [E|_].
  - exfalso. apply (H (f, d)); [left | exact E].
  - apply IH. intros h Hh. apply H. now right.
Qed.

Lemma StronglySorted_sublist {A} (R : A → A → Prop) (l k : list A) :
  sublist l k → StronglySorted R k → StronglySorted R l.
Proof.
  induction 1 as [|x l k Hs IH|x l k Hs IH]; intros Hk.
  - constructor.
  - apply StronglySorted_inv in Hk as [Hk Hx]. constructor; [auto|].
    rewrite Forall_forall in Hx |- *. intros y Hy. apply Hx.
    eapply elem_of_sublist; eauto.
  - apply StronglySorted_inv in Hk as [Hk _]. auto.
Qed.

Lemma Sorted_Qle_sublist (l k : list Q) :
  sublist l k → Sorted Qle k → Sorted Qle l.
Proof.
  intros Hs Hk. apply StronglySorted_Sorted.
  apply (StronglySorted_sublist _ _ _ Hs).
  apply Sorted_StronglySorted; [|exact Hk].
  intros x y z. apply Qle_trans.
Qed.

Lemma sublist_map {A B} (f : A → B) (l k : list A) :
  sublist l k → sublist (map f l) (map f k).
Proof. induction 1; simpl; constructor; auto. Qed.

Lemma map_snd_card_hits (hits : list (string * Q)) :
  map snd (card_hits hits) = map snd hits.
Proof. unfold card_hits. rewrite List.map_map. reflexivity. Qed.

Lemma aggregate_inv_deduplicated done rest formatted seen :
  aggregate_inv done formatted seen → deduplicated (done ++ rest) formatted.
Proof.
  intros (_ & _ & Hnd & Hsub & Hfirst). repeat split.
  - exact Hnd.
  - unfold card_hits. rewrite List.map_app. now apply sublist_inserts_r.
  - intros c q Hc. apply first_hit_app_l. auto.
  - intros Hsorted. eapply Sorted_Qle_sublist; [|exact Hsorted].
    rewrite <- (map_snd_card_hits (done ++ rest)). apply sublist_map.
    unfold card_hits. rewrite List.map_app. now apply sublist_inserts_r.
Qed.

Lemma aggregate_inv_skip done h formatted seen :
  strip_slot h.1 ∈ seen →
  aggregate_inv done formatted seen →
  aggregate_inv (done ++ [h]) formatted seen.
Proof.
  intros Hin (Hseen & Hfm & Hnd & Hsub & Hfirst). repeat split.
  - intros h' [Hh|Hh]%elem_of_app; [auto|].
    apply list_elem_of_singleton in Hh as ->. exact Hin.
  - exact Hfm.
  - exact Hnd.
  - unfold card_hits. rewrite List.map_app. now apply sublist_inserts_r.
  - intros c q Hc. apply first_hit_app_l. auto.
Qed.

Lemma aggregate_inv_drop done h formatted seen :
  aggregate_inv done formatted seen →
  aggregate_inv (done ++ [h]) formatted (seen ∪ {[strip_slot h.1]}).
Proof.
  intros (Hseen & Hfm & Hnd & Hsub & Hfirst). repeat split.
  - intros h' [Hh|Hh]%elem_of_app; [set_solver|].
    apply list_elem_of_singleton in Hh as ->. set_solver.
  - intros c Hc. set_solver.
  - exact Hnd.
  - unfold card_hits. rewrite List.map_app. now apply sublist_inserts_r.
  - intros c q Hc. apply first_hit_app_l. auto.
Qed.

Lemma aggregate_inv_append done h formatted seen result :
  strip_slot h.1 ∉ seen →
  sr_distance result = h.2 →
  aggregate_inv done formatted seen →
  aggregate_inv (done ++ [h]) (formatted ++ [(strip_slot h.1, result)])
    (seen ∪ {[strip_slot h.1]}).
Proof.
  intros Hnew Hdist (Hseen & Hfm & Hnd & Hsub & Hfirst). repeat split.
  - intros h' [Hh|Hh]%elem_of_app; [set_solver|].
    apply list_elem_of_singleton in Hh as ->. set_solver.
  - intros c. rewrite List.map_app. intros [Hc|Hc]%elem_of_app; [set_solver|].
    simpl in Hc. set_solver.
  - rewrite List.map_app. apply NoDup_app. repeat split; [exact Hnd| |].
    + intros c Hc Hc'. simpl in Hc'. apply list_elem_of_singleton in Hc' as ->.
      apply Hnew, Hfm, Hc.
    + simpl. apply NoDup_singleton.
  - unfold emitted, card_hits. rewrite !List.map_app. apply sublist_app; [exact Hsub|].
    simpl. rewrite Hdist. reflexivity.
  - intros c q. unfold emitted. rewrite List.map_app.
    intros [Hc|Hc]%elem_of_app.
    + apply first_hit_app_l. auto.
    + simpl in Hc. apply list_elem_of_singleton in Hc. injection Hc as -> ->.
      rewrite first_hit_fresh.
      * destruct h as [f d0]. simpl in *. rewrite String.eqb_refl.
        now rewrite Hdist.
      * intros h' Hh' E. apply Hnew. rewrite <- E. auto.
Qed.

Lemma distance_at_hits (done rest : list (string * Q)) (h : string * Q) :
  distance_at (results_of_hits (done ++ h :: rest)) (length done) = h.2.
Proof.
  unfold distance_at, results_of_hits. simpl.
  rewrite List.map_app. simpl.
  rewrite lookup_app_r by (rewrite List.length_map; lia).
  rewrite List.length_map, Nat.sub_diag. reflexivity.
Qed.

Section aggregate.
Context {S : Type} `{!Collection S}.

Lemma format_result_distance results i card (w w' : world S) r :
  format_result results i card w = (Ret r, w') →
  sr_distance r = distance_at results i.
Proof.
  unfold format_result, lift, mbind, M_bind, mret, M_ret.
  destruct (json_loads _) as [j|e]; [|discriminate].
  destruct (py_get _ _ _) as [info|e]; [|discriminate].
  intros [= <- _]. reflexivity.
Qed.

Lemma aggregate_deduplicated (num_results : Z) (rest : list (string * Q)) :
  ∀ (done : list (string * Q)) formatted seen (w w' : world S) out,
    aggregate (results_of_hits (done ++ rest)) num_results (length done)
      (map fst rest) formatted seen w = (Ret out, w') →
    aggregate_inv done formatted seen →
    deduplicated (done ++ rest) out.
Proof.
  induction rest as [|h rest IH]; intros done formatted seen w w' out Hrun Hinv.
  - injection Hrun as <- _.
    now apply (aggregate_inv_deduplicated _ _ _ seen).
  - assert (Eapp : done ++ h :: rest = (done ++ [h]) ++ rest)
      by now rewrite <- app_assoc.
    assert (Elen : Datatypes.S (length done) = length (done ++ [h]))
      by (rewrite length_app; simpl; lia).
    simpl in Hrun.
    destruct (decide (strip_slot h.1 ∈ seen)) as [Hin|Hnew].
    + rewrite Eapp, Elen in Hrun. rewrite Eapp.
      eapply IH; [exact Hrun|]. now apply aggregate_inv_skip.
    + unfold mbind at 1, M_bind at 1 in Hrun.
      destruct (get_card_by_id (strip_slot h.1) w) as [[card|e] w1];
        [|discriminate].
      unfold mbind at 1, M_bind at 1 in Hrun.
      unfold try_except at 1 in Hrun.
      unfold mbind at 1, M_bind at 1 in Hrun.
      destruct (format_result _ _ card w1) as [[result|e] w2] eqn:Efmt.
      * apply format_result_distance in Efmt.
        rewrite distance_at_hits in Efmt.
        simpl in Hrun.
        destruct (_ >=? _).
        -- injection Hrun as <- _. rewrite Eapp.
           apply (aggregate_inv_deduplicated _ _ _
                    (seen ∪ {[strip_slot h.1]})).
           now apply aggregate_inv_append.
        -- rewrite Eapp, Elen in Hrun. rewrite Eapp.
           eapply IH; [exact Hrun|]. now apply aggregate_inv_append.
      * destruct (is_JSONDecodeError e); [|discriminate].
        simpl in Hrun. rewrite Eapp, Elen in Hrun. rewrite Eapp.
        eapply IH; [exact Hrun|]. now apply aggregate_inv_drop.
Qed.
End aggregate.

Lemma aggregate_inv_init : aggregate_inv [] [] ∅.
Proof.
  repeat split; simpl; first [by constructor | set_solver].
Qed.

Lemma deduplicated_nil (hits : list (string * Q)) : deduplicated hits [].
Proof.
  repeat split; simpl.
  - constructor.
  - apply sublist_nil_l.
  - intros c q Hc. set_solver.
  - intros _. constructor.
Qed.

(** C2: whatever raw hits the store returns, [search_cards] emits at most
    one result per card identity, each with the distance of the first hit
    of that card, in the order of the hits; when the hits are in ascending
    distance so are the results.  The hits [X_2] at 0.1, [X_0] at 0.3 and
    [Y_1] at 0.2 with two cards wanted give [X] at 0.1, then [Y] at 0.2. *)
Theorem search_cards_deduplicates :
  (∀ (S : Type) (C : Collection S) (query : string) (num_results : Z)
     (w : world S) (all_ids : list string) (hits : list (string * Q)),
     coll_get_all (w_store w) = Ret all_ids →
     all_ids ≠ [] →
     coll_query (w_store w) [enhance query]
       (Z.min (num_results * 4) (Z.of_nat (length all_ids)))
     = Ret (results_of_hits hits) →
     ∃ out, (search_cards_traced query num_results w).1 = Ret out ∧
            deduplicated hits out)
  ∧ emitted <$> (search_cards_traced "designer" 2 (World scenario_store [])).1
    = Ret [("X", 1 # 10); ("Y", 2 # 10)]%Q.
Proof.
  split; [|vm_compute; reflexivity].
  intros S C query num_results w all_ids hits Hall Hne Hquery.
  unfold search_cards_traced, try_except, process_query,
    call_get_all, call_query, print, emit, mbind, M_bind, mret, M_ret.
  simpl. rewrite Hall.
  destruct all_ids as [|id ids]; [congruence|].
  simpl. simpl in Hquery. rewrite Hquery. simpl.
  match goal with
  | |- context [aggregate ?r ?n ?i ?rem ?fm ?seen ?w0] =>
      destruct (aggregate r n i rem fm seen w0) as [[out|e] w1] eqn:Eagg
  end; simpl.
  - exists out. split; [reflexivity|].
    apply (aggregate_deduplicated num_results hits [] _ _ _ _ _ Eagg).
    apply aggregate_inv_init.
  - exists []. split; [reflexivity | apply deduplicated_nil].
Qed.

Lemma search_cards_deduplicates_witness :
  ∃ out, (search_cards_traced "designer" 2 (World sorted_store [])).1 = Ret out
         ∧ deduplicated sorted_hits out.
Proof.
  apply (proj1 search_cards_deduplicates mem_store mem_collection
           "designer" 2 (World sorted_store []) ["X_0"; "X_2"; "Y_1"]).
  - reflexivity.
  - discriminate.
  - reflexivity.
Defined.

(** ** The fragment composer *)

Ltac step_bind H :=
  match type of H with
  | mbind _ ?m = Ret _ =>
      let E := fresh "E" in
      destruct m eqn:E; simpl in H; [|discriminate H]
  end.

(** What [process_business_card] returns when it returns. *)
Lemma process_business_card_inv (card_json : json) (p : processed) :
  process_business_card card_json = Ret p →
  ∃ d0 d1 d2 d3 name job company email location website industry
    seniority image_hash,
    documents p = [d0; d1; d2; d3] ∧
    metadata p =
      <["source_json" := json_dumps card_json]>
      (<["image_hash" := image_hash]>
      (<["seniority" := seniority]>
      (<["industry" := industry]>
      (<["website" := website]>
      (<["location" := location]>
      (<["email" := email]>
      (<["company" := company]>
      (<["job_title" := job]>
      (<["name" := name]> ∅))))))))).
Proof.
  unfold process_business_card. intros H.
  repeat step_bind H.
  injection H as <-. simpl. do 13 eexists. split; reflexivity.
Qed.

Lemma process_business_card_source_json (card_json : json) (p : processed) :
  process_business_card card_json = Ret p →
  metadata p !! "source_json" = Some (json_dumps card_json).
Proof.
  intros H. apply process_business_card_inv in H
    as (d0 & d1 & d2 & d3 & ? & ? & ? & ? & ? & ? & ? & ? & ? & _ & ->).
  apply lookup_insert_eq.
Qed.

(** When the composer returns, it returns four fragments and a metadata
    mapping with the ten keys. *)
Lemma process_business_card_shape (card_json : json) (p : processed) :
  process_business_card card_json = Ret p →
  length (documents p) = 4%nat ∧
  Forall (λ k, is_Some (metadata p !! k)) metadata_keys.
Proof.
  intros H. apply process_business_card_inv in H
    as (d0 & d1 & d2 & d3 & ? & ? & ? & ? & ? & ? & ? & ? & ? & -> & ->).
  split; [reflexivity|].
  unfold metadata_keys.
  repeat apply Forall_cons_2; try apply Forall_nil_2;
    simplify_map_eq; eauto.
Qed.

(** C1 (defect in the code): on the record that
    [extract_from_image] builds when the model's answer cannot be parsed,
    [process_business_card] raises [KeyError] for the missing name instead
    of returning four fragments and the ten metadata keys; an empty list
    of e-mail addresses raises [IndexError] and a missing [image_metadata]
    section raises [KeyError]. *)
Theorem process_business_card_raises :
  (process_llm_response (S:=unit) (Some "I cannot read this card.")
     (World tt [])).1 = Ret (JObj [])
  ∧ process_business_card (card_of_extraction "abc123" "QUJD" (JObj []))
    = Raise (KeyError "name")
  ∧ (add_business_card unparsed_card (World empty_store [])).1
    = Raise (KeyError "name")
  ∧ process_business_card no_email_card = Raise IndexError
  ∧ process_business_card no_image_card = Raise (KeyError "image_metadata").
Proof. repeat split; vm_compute; reflexivity. Qed.

(** C9 (defect in the code): for a card with every field, the
    identity fragment runs the industry and the word [based] together, with
    no comma and space between them as the specified text has. *)
Theorem identity_fragment_runs_together :
  (λ p, documents p !! 0%nat) <$> process_business_card ada_card
  = Ret (Some "Ada Lovelace is a Engineer in Computingbased in London.")
  ∧ spec_identity_fragment "Ada Lovelace" "Engineer" "Computing" "London"
    = "Ada Lovelace is a Engineer in Computing, based in London."
  ∧ (λ p, documents p !! 0%nat) <$> process_business_card ada_card
    ≠ Ret (Some (spec_identity_fragment "Ada Lovelace" "Engineer"
                   "Computing" "London")).
Proof.
  repeat split; try (vm_compute; reflexivity).
  vm_compute. discriminate.
Qed.

(** ** Adding and retrieving a card *)


Lemma frag_lookup_None (id : string) (fs : list (string * fragment)) :
  frag_lookup id fs = None → ∀ entry, entry ∈ fs → entry.1 ≠ id.
Proof.
  induction fs as [|[id' f'] fs IH]; simpl; intros Hnone entry Hin.
  - now apply elem_of_nil in Hin.
  - destruct (String.eqb_spec id id') as [->|Hne]; [discriminate|].
    apply elem_of_cons in Hin as [->|Hin]; [simpl; congruence | now apply IH].
Qed.

Lemma slot_suffix_ne (c a b : string) : a ≠ b → c +:+ a ≠ c +:+ b.
Proof. intros Hne E. apply Hne. eapply String.app_inj, E. Qed.




Lemma fragment_ids_NoDup (c : string) : NoDup (fragment_ids c).
Proof.
  unfold fragment_ids.
  repeat (apply NoDup_cons_2;
          [rewrite ?not_elem_of_cons; repeat split;
           try (apply slot_suffix_ne; discriminate); apply not_elem_of_nil|]).
  apply NoDup_nil_2.
Qed.







(** What [get_card_by_id] returns for a persisted card whose
    [source_json] parses. *)
Lemma get_card_by_id_persisted {S : Type} `{!Collection S}
    (card_id : string) (w : world S) (md : Metadata) (sj : string) (j : json) :
  persisted (w_store w) card_id md →
  md !! "source_json" = Some sj →
  json_loads sj = Ret j →
  (get_card_by_id card_id w).1 =
  Ret {| cd_metadata := md;
         cd_original_json := j;
         cd_image_base64 := default EmptyString (md !! "image_base64") |}.
Proof.
  intros (mds & Hget & Hne & Hall) Hsj Hj.
  unfold get_card_by_id, call_get, lift, mbind, M_bind, mret, M_ret.
  simpl. rewrite Hget.
  destruct mds as [|m mds]; [congruence|].
  apply Forall_cons_1 in Hall as [-> _].
  rewrite Hsj. simpl. rewrite Hj. reflexivity.
Qed.




(** Whenever [get_card_by_id] returns a card, the [source_json] of that
    card has already been parsed once, so parsing it again in the loop of
    [search_cards] cannot raise [JSONDecodeError]: the handler of the inner
    [try] is never entered. *)
Lemma format_result_no_decode_error {S : Type} `{!Collection S}
    (card_id : string) (w w1 : world S) (card : card_data)
    (results : QueryResult) (i : nat) :
  get_card_by_id card_id w = (Ret card, w1) →
  (format_result results i card w1).1 ≠ Raise JSONDecodeError.
Proof.
  unfold get_card_by_id, call_get, lift, mbind, M_bind, mret, M_ret.
  simpl. destruct (coll_get _ _) as [[|[md|] mds]|e]; simpl; try discriminate.
  - intros [= <- <-]. vm_compute. discriminate.
  - destruct (json_loads (default "{}" (md !! "source_json"))) as [j|e] eqn:E;
      simpl; [|discriminate].
    intros [= <- <-]. unfold format_result, lift, mbind, M_bind, mret, M_ret.
    simpl. rewrite E. simpl.
    destruct (py_get j _ _) as [info|e] eqn:E2; simpl; [discriminate|].
    destruct j; simpl in E2; try discriminate; injection E2 as <-; discriminate.
Qed.

(** C3 (defect in the code): the store ranks card [A], then
    card [B] whose [source_json] is not JSON, then card [C].  Asked for one
    card, [search_cards] returns [A]; asked for five, it looks up [A] and
    [B], prints a search error and returns the empty list: the result for
    [A] is lost and [C] is never looked up. *)
Theorem search_cards_malformed_card :
  let w := World corrupt_store [] in
  emitted <$> (search_cards_traced "designer" 1 w).1 = Ret [("A", 1 # 10)%Q]
  ∧ (get_card_by_id "B" w).1 = Raise JSONDecodeError
  ∧ (search_cards "designer" 5 w).1 = Ret []
  ∧ lookups_of (w_log (search_cards "designer" 5 w).2)
    = [fragment_ids "A"; fragment_ids "B"]
  ∧ last (w_log (search_cards "designer" 5 w).2)
    = Some (PrintedExn "Search error: " JSONDecodeError EmptyString).
Proof. repeat split; vm_compute; reflexivity. Qed.

Lemma search_cards_traced_returns {S : Type} `{!Collection S}
    (query : string) (num_results : Z) (w : world S) :
  ∃ out, (search_cards_traced query num_results w).1 = Ret out.
Proof.
  unfold search_cards_traced, try_except.
  match goal with
  | |- ∃ out, (match ?b with _ => _ end).1 = _ =>
      destruct b as [[out|e'] w1]
  end; simpl; eauto.
Qed.

Lemma search_cards_results {S : Type} `{!Collection S}
    (query : string) (num_results : Z) (w : world S) :
  (search_cards query num_results w).1
  = map snd <$> (search_cards_traced query num_results w).1.
Proof.
  unfold search_cards.
  destruct (search_cards_traced query num_results w); reflexivity.
Qed.

(** C4 as stated does not hold of the search: with the store out of
    reach, [search_cards] returns the empty list as a normal value. *)
Lemma search_cards_swallows_store_failure :
  raises (coll_get_all offline_store)
  ∧ ¬ raises (search_cards "AI researcher" 3 (World offline_store [])).1
  ∧ (search_cards "AI researcher" 3 (World offline_store [])).1 = Ret [].
Proof.
  split; [exact I|]. split; [|vm_compute; reflexivity].
  vm_compute. exact (λ H, H).
Qed.

(** C4, amended: a failure of the store during [add_business_card] goes to
    the caller unchanged; [search_cards] never raises, and a failure of the
    store while it lists the identifiers or runs the query is caught, a
    search error is printed and the empty list is returned. *)
Theorem store_failure_policy {S : Type} `{!Collection S}
    (card_json : json) (p : processed) (query : string) (num_results : Z)
    (w : world S) (e : exn) :
  (process_business_card card_json = Ret p →
   (∀ docs mds ids, coll_add (w_store w) docs mds ids = Raise e) →
   (add_business_card card_json w).1 = Raise e)
  ∧ (∃ out, (search_cards query num_results w).1 = Ret out)
  ∧ (coll_get_all (w_store w) = Raise e
     ∨ (∃ ids, coll_get_all (w_store w) = Ret ids ∧ ids ≠ []
               ∧ ∀ texts k, coll_query (w_store w) texts k = Raise e) →
     (search_cards query num_results w).1 = Ret [] ∧
     last (w_log (search_cards query num_results w).2)
       = Some (PrintedExn "Search error: " e EmptyString)).
Proof.
  split; [|split].
  - intros Hp Hadd.
    pose proof (process_business_card_inv _ _ Hp)
      as (d0 & d1 & d2 & d3 & name & ? & ? & ? & ? & ? & ? & ? & hash & Hd & Hm).
    unfold add_business_card, call_add, lift, mbind, M_bind, mret, M_ret.
    rewrite Hp. simpl. unfold md_getitem. rewrite Hm.
    simplify_map_eq. simpl. rewrite Hadd. reflexivity.
  - unfold search_cards.
    destruct (search_cards_traced_returns query num_results w) as [out Hout].
    destruct (search_cards_traced query num_results w) as [r w1].
    simpl in Hout. subst r. simpl. eauto.
  - unfold search_cards, search_cards_traced, try_except, process_query,
      call_get_all, call_query, print, emit, mbind, M_bind, mret, M_ret.
    simpl. intros [H|(ids & H & Hne & Hq)]; rewrite H; simpl.
    + split; [reflexivity | apply last_snoc].
    + destruct ids as [|id ids]; [congruence|]. simpl. rewrite Hq. simpl.
      split; [reflexivity | apply last_snoc].
Qed.

Lemma store_failure_policy_witness :
  let w := World offline_store [] in
  (add_business_card ada_card w).1 = Raise unreachable
  ∧ (search_cards "AI researcher" 3 w).1 = Ret []
  ∧ last (w_log (search_cards "AI researcher" 3 w).2)
    = Some (PrintedExn "Search error: " unreachable EmptyString).
Proof.
  intros w.
  destruct (store_failure_policy ada_card ada_processed "AI researcher" 3 w
              unreachable) as (Hadd & _ & Hsearch).
  split.
  - apply Hadd; [vm_compute; reflexivity | intros; reflexivity].
  - apply Hsearch. left. reflexivity.
Defined.

(** C5 as stated does not hold: with two of the four fragments of card
    [X] in the store, [get_card_by_id] returns a card built from the first of
    them, not the empty card. *)
Lemma get_card_by_id_partial_card :
  let w := World scenario_store [] in
  length <$> coll_get scenario_store (fragment_ids "X") = Ret 2%nat
  ∧ (get_card_by_id "X" w).1 =
    Ret {| cd_metadata := stub_metadata "X";
           cd_original_json :=
             JObj [("extracted_info", JObj [("who", JStr "X")])];
           cd_image_base64 := EmptyString |}
  ∧ (get_card_by_id "X" w).1 ≠ Ret empty_card.
Proof.
  repeat split; try (vm_compute; reflexivity).
  vm_compute. intros H. inversion H.
Qed.

(** C5, amended: [get_card_by_id] returns the empty card exactly when none
    of the four fragment identifiers resolves; when at least one resolves,
    be it all four or fewer, the card is the metadata of the first one that
    resolved together with its parsed [source_json]; the number of
    fragments that resolved is not looked at. *)
Theorem get_card_by_id_first_fragment {S : Type} `{!Collection S}
    (card_id : string) (w : world S) (mds : list (option Metadata)) :
  coll_get (w_store w) (fragment_ids card_id) = Ret mds →
  (get_card_by_id card_id w).1 =
    match mds with
    | [] => Ret empty_card
    | None :: _ => Raise AttributeError
    | Some md :: _ =>
        (λ j, {| cd_metadata := md;
                 cd_original_json := j;
                 cd_image_base64 := default EmptyString (md !! "image_base64") |})
        <$> json_loads (default "{}" (md !! "source_json"))
    end
  ∧ ((get_card_by_id card_id w).1 = Ret empty_card ↔ mds = []).
Proof.
  intros Hget.
  assert (E : (get_card_by_id card_id w).1 =
    match mds with
    | [] => Ret empty_card
    | None :: _ => Raise AttributeError
    | Some md :: _ =>
        (λ j, {| cd_metadata := md;
                 cd_original_json := j;
                 cd_image_base64 := default EmptyString (md !! "image_base64") |})
        <$> json_loads (default "{}" (md !! "source_json"))
    end).
  { unfold get_card_by_id, call_get, lift, mbind, M_bind, mret, M_ret.
    simpl. rewrite Hget. destruct mds as [|[md|] mds]; simpl; try reflexivity.
    destruct (json_loads _); reflexivity. }
  split; [exact E|]. rewrite E.
  destruct mds as [|[md|] mds]; split; try congruence; try discriminate.
  intros H. exfalso.
  destruct (json_loads (default "{}" (md !! "source_json"))) as [j|e] eqn:Ej;
    simpl in H; [|discriminate].
  injection H as -> -> _. rewrite lookup_empty in Ej. vm_compute in Ej.
  discriminate.
Qed.

Lemma get_card_by_id_first_fragment_witness :
  (get_card_by_id "X" (World scenario_store [])).1 =
    (λ j, {| cd_metadata := stub_metadata "X";
             cd_original_json := j;
             cd_image_base64 := EmptyString |})
    <$> json_loads (json_dumps (JObj [("extracted_info",
                                        JObj [("who", JStr "X")])]))
  ∧ ((get_card_by_id "X" (World scenario_store [])).1 = Ret empty_card
     ↔ [Some (stub_metadata "X"); Some (stub_metadata "X")] = []).
Proof.
  exact (get_card_by_id_first_fragment "X" (World scenario_store [])
           [Some (stub_metadata "X"); Some (stub_metadata "X")] eq_refl).
Defined.

(** C10: for every card identifier [c], underscores included, stripping
    the slot suffix of each of the four fragment identifiers [c_0] to [c_3]
    gives back exactly [c], so two fragments of one card are never
    attributed to different cards; and the identifiers that
    [add_business_card] writes for the identity it returns are these
    four. *)
Theorem strip_slot_fragment_ids :
  (∀ c : string,
     Forall (λ fid, strip_slot fid = c) (fragment_ids c) ∧
     Forall (λ f1, Forall (λ f2, strip_slot f1 = strip_slot f2)
                     (fragment_ids c)) (fragment_ids c))
  ∧ (∀ (S : Type) (C : Collection S) (card_json : json) (w : world S),
       match add_business_card card_json w with
       | (Ret card_id, w') =>
           ∃ docs mds ids,
             last (w_log w') = Some (CollAdd docs mds ids) ∧
             ids = fragment_ids card_id ∧
             Forall (λ fid, strip_slot fid = card_id) ids
       | (Raise _, _) => True
       end).
Proof.
  assert (H : ∀ c, Forall (λ fid, strip_slot fid = c) (fragment_ids c)).
  { intros c. unfold fragment_ids.
    repeat apply Forall_cons_2; try apply Forall_nil_2;
      apply (strip_slot_app c); reflexivity. }
  split.
  - intros c. split; [apply H|].
    pose proof (H c) as Hc. rewrite Forall_forall in Hc.
    apply Forall_forall. intros f1 H1. apply Forall_forall. intros f2 H2.
    rewrite (Hc f1 H1), (Hc f2 H2). reflexivity.
  - intros S C card_json w.
    unfold add_business_card, call_add, lift, mbind, M_bind, mret, M_ret.
    destruct (process_business_card card_json) as [p|e]; simpl; [|exact I].
    destruct (md_getitem (metadata p) "name") as [n|]; simpl; [|exact I].
    destruct (md_getitem (metadata p) "image_hash") as [h|]; simpl; [|exact I].
    destruct (coll_add _ _ _ _) as [s'|e]; simpl; [|exact I].
    eexists _, _, _. split; [apply last_snoc|]. split; [reflexivity | apply H].
Qed.

(** * Further properties of the code *)

(** ** Composing and adding a card *)

#[local] Arguments py_getitem2 : simpl never.
#[local] Arguments py_getitem : simpl never.

Lemma py_get_dict (kvs : list (string * json)) (k : string) (d : json) :
  py_get (JObj kvs) k d = Ret (default d (dict_lookup k kvs)).
Proof. reflexivity. Qed.

(** X1: a record without the [contact_info], [digital_presence] and
    [contextual_summary] sections is composed with empty strings in their
    place: the defaults of the [.get] calls apply when a key is absent. *)
Theorem process_business_card_defaults
    (ckvs ekvs : list (string * json))
    (primary name job_title company image_hash base64 : json) :
  dict_lookup "extracted_info" ckvs = Some (JObj ekvs) →
  dict_lookup "primary_info" ekvs = Some primary →
  dict_lookup "contact_info" ekvs = None →
  dict_lookup "digital_presence" ekvs = None →
  dict_lookup "contextual_summary" ekvs = None →
  py_getitem2 primary "name" "value" = Ret name →
  py_getitem2 primary "job_title" "value" = Ret job_title →
  (c ← py_getitem primary "company"; py_get c "text_value" empty_str)
    = Ret company →
  py_getitem2 (JObj ckvs) "image_metadata" "hash" = Ret image_hash →
  py_getitem2 (JObj ckvs) "image_metadata" "base64" = Ret base64 →
  process_business_card (JObj ckvs) =
  Ret {| documents :=
           [py_str name +:+ " is a " +:+ py_str job_title +:+ " in based in .";
            "Contact:  | Location:  | Website: ";
            "Social media: ";
            "professional_summary:  expertise in  and "];
         metadata :=
           <["source_json" := json_dumps (JObj ckvs)]>
           (<["image_hash" := py_str image_hash]>
           (<["seniority" := EmptyString]>
           (<["industry" := EmptyString]>
           (<["website" := EmptyString]>
           (<["location" := EmptyString]>
           (<["email" := EmptyString]>
           (<["company" := py_str company]>
           (<["job_title" := py_str job_title]>
           (<["name" := py_str name]> ∅)))))))));
         image_base64 := base64 |}.
Proof.
  intros Hext Hprim Hcontact Hdigital Hcontext Hname Hjob Hcompany Hhash Hb64.
  unfold process_business_card, first_value.
  rewrite (py_get_dict ckvs), Hext. simpl.
  rewrite Hprim, Hcontact, Hdigital, Hcontext. simpl.
  rewrite Hname. simpl. rewrite Hjob. simpl. rewrite Hcompany. simpl.
  rewrite Hhash. simpl. rewrite Hb64. reflexivity.
Qed.

Lemma process_business_card_defaults_witness :
  documents <$> process_business_card
                  (minimal_card "Ada" "Engineer" "Engines" "abc123" "QUJD")
  = Ret ["Ada is a Engineer in based in .";
         "Contact:  | Location:  | Website: ";
         "Social media: ";
         "professional_summary:  expertise in  and "].
Proof.
  pose (primary := JObj [("name", value_of "Ada");
                         ("job_title", value_of "Engineer");
                         ("company", JObj [("text_value", JStr "Engines")])]).
  exact (f_equal (fmap documents)
           (process_business_card_defaults
              [("image_metadata",
                JObj [("hash", JStr "abc123"); ("base64", JStr "QUJD")]);
               ("extracted_info", JObj [("primary_info", primary)])]
              [("primary_info", primary)] primary
              (JStr "Ada") (JStr "Engineer") (JStr "Engines") (JStr "abc123")
              (JStr "QUJD")
              eq_refl eq_refl eq_refl eq_refl eq_refl eq_refl eq_refl eq_refl
              eq_refl eq_refl)).
Defined.

Lemma first_value_empty (section : json) (key : string) :
  py_get section key (JArr [empty_dict]) = Ret (JArr []) →
  first_value section key = Raise IndexError.
Proof. intros H. unfold first_value. rewrite H. reflexivity. Qed.

(** X2: the default list of the [.get] calls does not cover a list that is
    present and empty: with an empty [addresses] list, or with an address
    and an empty [emails] list, the composer raises [IndexError]. *)
Theorem process_business_card_empty_list
    (card_json extracted primary contact digital contextual : json)
    (name job_title industry : json) :
  py_get card_json "extracted_info" empty_dict = Ret extracted →
  py_get extracted "primary_info" empty_dict = Ret primary →
  py_get extracted "contact_info" empty_dict = Ret contact →
  py_get extracted "digital_presence" empty_dict = Ret digital →
  py_get extracted "contextual_summary" empty_dict = Ret contextual →
  py_getitem2 primary "name" "value" = Ret name →
  py_getitem2 primary "job_title" "value" = Ret job_title →
  py_get contextual "industry_inference" empty_str = Ret industry →
  (py_get contact "addresses" (JArr [empty_dict]) = Ret (JArr []) →
   process_business_card card_json = Raise IndexError)
  ∧ (returns (first_value contact "addresses") →
     py_get contact "emails" (JArr [empty_dict]) = Ret (JArr []) →
     process_business_card card_json = Raise IndexError).
Proof.
  intros Hext Hprim Hcontact Hdigital Hcontext Hname Hjob Hind.
  unfold process_business_card.
  rewrite Hext. simpl. rewrite Hprim. simpl. rewrite Hcontact. simpl.
  rewrite Hdigital. simpl. rewrite Hcontext. simpl.
  rewrite Hname. simpl. rewrite Hjob. simpl. rewrite Hind. simpl.
  split.
  - intros Haddr. rewrite (first_value_empty _ _ Haddr). reflexivity.
  - intros Haddr Hemails.
    destruct (first_value contact "addresses") as [a|e]; [|destruct Haddr].
    simpl. rewrite (first_value_empty _ _ Hemails). reflexivity.
Qed.

Lemma process_business_card_empty_list_witness :
  process_business_card no_email_card = Raise IndexError.
Proof.
  refine (proj2 (process_business_card_empty_list no_email_card
                   no_email_extraction _ _ empty_dict empty_dict
                   (JStr "Ada Lovelace") (JStr "Engineer") empty_str
                   eq_refl eq_refl eq_refl eq_refl eq_refl eq_refl eq_refl
                   eq_refl) I eq_refl).
Defined.

(** X3: whenever the composer returns, it returns exactly four documents
    and a metadata mapping whose keys are exactly the ten of the literal;
    [name] and [image_hash] are the [str] of the extracted name and of the
    image hash, and [source_json] is the serialised record. *)
Theorem process_business_card_result (card_json : json) (p : processed) :
  process_business_card card_json = Ret p →
  length (documents p) = 4%nat ∧
  dom (metadata p) = list_to_set metadata_keys ∧
  metadata p !! "source_json" = Some (json_dumps card_json) ∧
  ∃ name image_hash,
    extracted_name card_json = Ret name ∧
    image_hash_of card_json = Ret image_hash ∧
    metadata p !! "name" = Some (py_str name) ∧
    metadata p !! "image_hash" = Some (py_str image_hash).
Proof.
  unfold process_business_card, extracted_name, image_hash_of. intros H.
  repeat step_bind H.
  injection H as <-. simpl.
  split; [reflexivity|]. split.
  - rewrite !dom_insert_L, dom_empty_L. unfold metadata_keys. simpl.
    set_solver.
  - split; [apply lookup_insert_eq|].
    repeat match goal with
           | E : ?m = Ret _ |- context [?m] => rewrite E; simpl
           end.
    eexists _, _. repeat split; simplify_map_eq; reflexivity.
Qed.

Lemma process_business_card_result_witness :
  length (documents ada_processed) = 4%nat ∧
  dom (metadata ada_processed) = list_to_set metadata_keys ∧
  metadata ada_processed !! "source_json" = Some (json_dumps ada_card) ∧
  ∃ name image_hash,
    extracted_name ada_card = Ret name ∧
    image_hash_of ada_card = Ret image_hash ∧
    metadata ada_processed !! "name" = Some (py_str name) ∧
    metadata ada_processed !! "image_hash" = Some (py_str image_hash).
Proof.
  apply (process_business_card_result ada_card ada_processed).
  vm_compute. reflexivity.
Defined.

(** The two metadata values the card identity is made of. *)
Lemma process_business_card_identity (card_json : json) (p : processed) :
  process_business_card card_json = Ret p →
  length (documents p) = 4%nat ∧
  ∃ name image_hash,
    extracted_name card_json = Ret name ∧
    image_hash_of card_json = Ret image_hash ∧
    md_getitem (metadata p) "name" = Ret (py_str name) ∧
    md_getitem (metadata p) "image_hash" = Ret (py_str image_hash).
Proof.
  unfold process_business_card, extracted_name, image_hash_of, md_getitem.
  intros H. repeat step_bind H.
  injection H as <-. simpl. split; [reflexivity|].
  repeat match goal with
         | E : ?m = Ret _ |- context [?m] => rewrite E; simpl
         end.
  eexists _, _. repeat split; simplify_map_eq; reflexivity.
Qed.

(** X4: [add_business_card] touches the store only after the record is
    composed.  When the composer raises, the exception goes to the caller
    and the world is as before.  Otherwise exactly one [add] call is made,
    with the four documents, four copies of the one metadata mapping and
    the four fragment identifiers of the identity [str(name)-str(hash)],
    which is returned when the call succeeds. *)
Theorem add_business_card_profile {S : Type} `{!Collection S}
    (card_json : json) (w : world S) :
  match process_business_card card_json with
  | Raise e => add_business_card card_json w = (Raise e, w)
  | Ret p =>
      ∃ name image_hash,
        extracted_name card_json = Ret name ∧
        image_hash_of card_json = Ret image_hash ∧
        let card_id := card_identity (py_str name) (py_str image_hash) in
        let metadatas := replicate 4 (metadata p) in
        let log :=
          w_log w ++ [CollAdd (documents p) metadatas (fragment_ids card_id)] in
        add_business_card card_json w =
        match coll_add (w_store w) (documents p) metadatas
                (fragment_ids card_id) with
        | Ret s' => (Ret card_id, World s' log)
        | Raise e => (Raise e, World (w_store w) log)
        end
  end.
Proof.
  destruct (process_business_card card_json) as [p|e] eqn:Hp.
  - destruct (process_business_card_identity _ _ Hp)
      as (Hlen & name & image_hash & Hn & Hh & Hmn & Hmh).
    exists name, image_hash. split; [exact Hn|]. split; [exact Hh|].
    unfold add_business_card, call_add, lift, mbind, M_bind, mret, M_ret.
    rewrite Hp, Hmn, Hmh, Hlen. simpl.
    destruct (coll_add _ _ _ _); reflexivity.
  - unfold add_business_card, lift, mbind, M_bind. rewrite Hp.
    destruct w. reflexivity.
Qed.

Lemma contains_char_rfind_split (sep : ascii) (s : string) :
  contains_char sep s = false → rfind_split sep s = None.
Proof.
  induction s as [|a s IH]; simpl; [reflexivity|].
  intros [Ha Hs]%orb_false_iff. rewrite (IH Hs), Ha. reflexivity.
Qed.

(** X5: the identity of a card determines the name and the image hash it
    was made of, provided the hash holds no hyphen, as the hexadecimal
    digest computed by [load_image] does; fragment identifiers of two
    different identities never coincide.  Without the proviso two
    different pairs can give one identity. *)
Theorem card_identity_unambiguous :
  (∀ name1 hash1 name2 hash2 : string,
     contains_char "-" hash1 = false →
     contains_char "-" hash2 = false →
     card_identity name1 hash1 = card_identity name2 hash2 →
     name1 = name2 ∧ hash1 = hash2)
  ∧ (∀ card_id1 card_id2 fragment_id : string,
       fragment_id ∈ fragment_ids card_id1 →
       fragment_id ∈ fragment_ids card_id2 →
       card_id1 = card_id2)
  ∧ card_identity "A-B" "c" = card_identity "A" "B-c".
Proof.
  split; [|split; [|reflexivity]].
  - intros n1 h1 n2 h2 H1 H2 E.
    pose proof (rfind_split_app_sep "-" n1 h1
                  (contains_char_rfind_split _ _ H1)) as R1.
    pose proof (rfind_split_app_sep "-" n2 h2
                  (contains_char_rfind_split _ _ H2)) as R2.
    unfold card_identity in E.
    change ("-" +:+ ?h) with (String "-" h) in E.
    rewrite E, R2 in R1. injection R1 as -> ->. auto.
  - assert (H : ∀ c f, f ∈ fragment_ids c → strip_slot f = c).
    { intros c f Hf. unfold fragment_ids in Hf.
      repeat (apply elem_of_cons in Hf as [->|Hf];
              [apply (strip_slot_app c); reflexivity|]).
      set_solver. }
    intros c1 c2 f H1 H2. rewrite <- (H c1 f H1). apply H, H2.
Qed.

Lemma card_identity_unambiguous_witness :
  ("Ada Lovelace" = "Ada Lovelace" ∧ "abc123" = "abc123")
  ∧ "X-h" = "X-h".
Proof.
  split.
  - apply (proj1 card_identity_unambiguous "Ada Lovelace" "abc123"
             "Ada Lovelace" "abc123"); reflexivity.
  - apply (proj1 (proj2 card_identity_unambiguous) "X-h" "X-h" "X-h_2");
      unfold fragment_ids; simpl; rewrite !elem_of_cons; auto.
Defined.

(** ** Searching *)

Section more_search.
Context {S : Type} `{!Collection S}.

Lemma aggregate_length (results : QueryResult) (num_results : Z)
    (remaining : list string) :
  ∀ (i : nat) formatted seen (w : world S),
    Z.of_nat (length formatted) < num_results ∨ formatted = [] →
    match (aggregate results num_results i remaining formatted seen w).1 with
    | Ret out =>
        Z.of_nat (length out) ≤ Z.max 1 num_results ∧
        (length out ≤ length formatted + length remaining)%nat
    | Raise _ => True
    end.
Proof.
  induction remaining as [|fid rest IH]; intros i formatted seen w Hinv; simpl.
  - destruct Hinv as [Hlt| ->]; simpl; lia.
  - destruct (decide (strip_slot fid ∈ seen)) as [Hin|Hnew].
    + specialize (IH (Datatypes.S i) formatted seen w Hinv).
      destruct (aggregate _ _ _ rest formatted seen w) as [[out|e] w1];
        simpl in *; [lia | exact I].
    + unfold mbind at 1, M_bind at 1.
      destruct (get_card_by_id (strip_slot fid) w) as [[card|e] w1];
        [|exact I].
      unfold mbind at 1, M_bind at 1. unfold try_except at 1.
      unfold mbind at 1, M_bind at 1.
      destruct (format_result _ _ card w1) as [[result|e] w2]; simpl.
      * destruct (_ >=? _) eqn:Hge; simpl.
        -- rewrite length_app. simpl. destruct Hinv as [Hlt| ->]; simpl; lia.
        -- assert (Hinv' : Z.of_nat (length (formatted ++
                     [(strip_slot fid, result)])) < num_results
                   ∨ formatted ++ [(strip_slot fid, result)] = []) by (left; lia).
           specialize (IH (Datatypes.S i) _ (seen ∪ {[strip_slot fid]}) w2 Hinv').
           destruct (aggregate _ _ _ rest _ _ w2) as [[out|e'] w3];
             simpl in *; [|exact I].
           rewrite length_app in IH. simpl in IH. lia.
      * destruct (is_JSONDecodeError e); simpl; [|exact I].
        match goal with
        | |- context [aggregate ?r ?n ?j rest formatted ?sn ?w0] =>
            specialize (IH j formatted sn w0 Hinv);
            destruct (aggregate r n j rest formatted sn w0) as [[out|e'] w3]
        end; simpl in *; [lia | exact I].
Qed.

(** X6: [search_cards] always returns, and never more than [num_results]
    results, or one result when [num_results] is below one: the length is
    tested only after a result is appended. *)
Theorem search_cards_at_most (query : string) (num_results : Z) (w : world S) :
  ∃ out, (search_cards query num_results w).1 = Ret out ∧
         Z.of_nat (length out) ≤ Z.max 1 num_results.
Proof.
  rewrite search_cards_results.
  unfold search_cards_traced, try_except, process_query,
    call_get_all, call_query, print, emit, mbind, M_bind, mret, M_ret.
  simpl.
  destruct (coll_get_all (w_store w)) as [[|id ids]|e]; simpl;
    try (eexists; split; [reflexivity | simpl; lia]).
  destruct (coll_query _ _ _) as [results|e]; simpl;
    try (eexists; split; [reflexivity | simpl; lia]).
  destruct (qr_ids results) as [[|ids0 rows]|]; simpl;
    try (eexists; split; [reflexivity | simpl; lia]).
  match goal with
  | |- context [aggregate ?r ?n ?i ?rem ?fm ?seen ?w0] =>
      pose proof (aggregate_length r n rem i fm seen w0 (or_intror eq_refl))
        as Hlen;
      destruct (aggregate r n i rem fm seen w0) as [[out|e] w1]
  end; simpl in *.
  - eexists. split; [reflexivity|]. rewrite List.length_map. lia.
  - eexists. split; [reflexivity | simpl; lia].
Qed.

Lemma calls_of_app (l1 l2 : list event) :
  calls_of (l1 ++ l2) = calls_of l1 ++ calls_of l2.
Proof. apply filter_app. Qed.

Lemma adds_of_calls (log : list event) : adds_of (calls_of log) = adds_of log.
Proof.
  unfold adds_of, calls_of.
  induction log as [|ev log IH]; [reflexivity|].
  destruct ev; simpl; rewrite ?filter_cons; simpl;
    repeat case_decide; simpl in *; try tauto; rewrite ?filter_cons; simpl;
    repeat case_decide; simpl in *; try tauto; now rewrite ?IH.
Qed.

Lemma adds_of_lookups (cs : list string) : adds_of (map lookup_call cs) = [].
Proof. induction cs as [|c cs IH]; [reflexivity | exact IH]. Qed.

Lemma get_card_by_id_world (card_id : string) (w : world S) :
  (get_card_by_id card_id w).2
  = World (w_store w) (w_log w ++ [lookup_call card_id]).
Proof.
  unfold get_card_by_id, call_get, lift, raise, lift, mbind, M_bind, mret, M_ret.
  simpl. destruct (coll_get _ _) as [[|[md|] mds]|e]; simpl; try reflexivity.
  destruct (json_loads _); reflexivity.
Qed.

Lemma format_result_world results i card (w : world S) :
  (format_result results i card w).2 = w.
Proof.
  unfold format_result, lift, mbind, M_bind, mret, M_ret.
  destruct (json_loads _); simpl; [|reflexivity].
  destruct (py_get _ _ _); reflexivity.
Qed.

(** The lookups of the loop: one for each card met for the first time. *)
Lemma aggregate_calls (results : QueryResult) (num_results : Z)
    (remaining : list string) :
  ∀ (i : nat) formatted seen (w w' : world S) r,
    aggregate results num_results i remaining formatted seen w = (r, w') →
    ∃ cs : list string,
      w_store w' = w_store w ∧
      calls_of (w_log w') = calls_of (w_log w) ++ map lookup_call cs ∧
      NoDup cs ∧
      ∀ c, c ∈ cs → (c ∉ seen) ∧ c ∈ cards_of remaining.
Proof.
  induction remaining as [|fid rest IH]; intros i formatted seen w w' r Hrun.
  - injection Hrun as <- <-. exists []. simpl. rewrite app_nil_r.
    repeat split; try constructor; set_solver.
  - simpl in Hrun. destruct (decide (strip_slot fid ∈ seen)) as [Hin|Hnew].
    + destruct (IH _ _ _ _ _ _ Hrun) as (cs & Hs & Hc & Hnd & Hcs).
      exists cs. repeat split; auto; try apply Hcs; auto.
      simpl. right. now apply Hcs.
    + assert (Hone :
                w_store w' = w_store w →
                calls_of (w_log w')
                  = calls_of (w_log w) ++ [lookup_call (strip_slot fid)] →
                ∃ cs, w_store w' = w_store w ∧
                      calls_of (w_log w')
                        = calls_of (w_log w) ++ map lookup_call cs ∧
                      NoDup cs ∧
                      ∀ c, c ∈ cs → (c ∉ seen) ∧ c ∈ cards_of (fid :: rest)).
      { intros Hs Hc. exists [strip_slot fid].
        split; [exact Hs|]. split; [exact Hc|]. split; [apply NoDup_singleton|].
        intros c ->%list_elem_of_singleton. split; [exact Hnew | simpl; now left]. }
      assert (Hmore : ∀ (w1 : world S) j fm,
                w_store w1 = w_store w →
                calls_of (w_log w1)
                  = calls_of (w_log w) ++ [lookup_call (strip_slot fid)] →
                aggregate results num_results j rest fm
                  (seen ∪ {[strip_slot fid]}) w1 = (r, w') →
                ∃ cs, w_store w' = w_store w ∧
                      calls_of (w_log w')
                        = calls_of (w_log w) ++ map lookup_call cs ∧
                      NoDup cs ∧
                      ∀ c, c ∈ cs → (c ∉ seen) ∧ c ∈ cards_of (fid :: rest)).
      { intros w1 j fm Hs Hc Hrun'.
        destruct (IH _ _ _ _ _ _ Hrun') as (cs & Hs' & Hc' & Hnd & Hcs).
        exists (strip_slot fid :: cs).
        split; [congruence|]. split.
        - rewrite Hc', Hc, <- app_assoc. reflexivity.
        - split.
          + constructor; [|exact Hnd]. intros Hin. apply Hcs in Hin. set_solver.
          + intros c [->|Hc'']%elem_of_cons.
            * split; [exact Hnew | simpl; now left].
            * apply Hcs in Hc'' as [Hn Hr].
              split; [set_solver | simpl; now right]. }
      pose proof (get_card_by_id_world (strip_slot fid) w) as Hget.
      unfold mbind at 1, M_bind at 1 in Hrun.
      destruct (get_card_by_id (strip_slot fid) w) as [[card|e] w1];
        simpl in Hget; subst w1.
      2:{ injection Hrun as <- <-. apply Hone; simpl; [reflexivity|].
          rewrite calls_of_app. reflexivity. }
      unfold mbind at 1, M_bind at 1 in Hrun. unfold try_except at 1 in Hrun.
      unfold mbind at 1, M_bind at 1 in Hrun.
      match type of Hrun with
      | context [format_result ?q ?j card ?w0] =>
          pose proof (format_result_world q j card w0) as Hfmt;
          destruct (format_result q j card w0) as [[result|e] w2]
      end; simpl in Hfmt; subst w2.
      * simpl in Hrun. destruct (_ >=? _).
        -- injection Hrun as <- <-. apply Hone; simpl; [reflexivity|].
           rewrite calls_of_app. reflexivity.
        -- eapply Hmore; [| |exact Hrun]; simpl; [reflexivity|].
           rewrite calls_of_app. reflexivity.
      * destruct (is_JSONDecodeError e); simpl in Hrun.
        -- eapply Hmore; [| |exact Hrun]; simpl; [reflexivity|].
           rewrite !calls_of_app. simpl. rewrite app_nil_r. reflexivity.
        -- injection Hrun as <- <-. apply Hone; simpl; [reflexivity|].
           rewrite calls_of_app. reflexivity.
Qed.

Lemma filter_unseen_skip (seen : gset string) (c : string) (l : list string) :
  c ∈ seen →
  filter (λ x, x ∉ seen) (filter (λ x, x ≠ c) l) = filter (λ x, x ∉ seen) l.
Proof.
  intros Hc. induction l as [|x l IH]; [reflexivity|].
  rewrite !filter_cons. repeat case_decide; rewrite ?filter_cons;
    repeat case_decide; try congruence; try set_solver.
Qed.

Lemma filter_unseen_add (seen : gset string) (c : string) (l : list string) :
  filter (λ x, x ∉ seen) (filter (λ x, x ≠ c) l)
  = filter (λ x, x ∉ seen ∪ {[c]}) l.
Proof.
  induction l as [|x l IH]; [reflexivity|].
  rewrite !filter_cons. repeat case_decide; rewrite ?filter_cons;
    repeat case_decide; try congruence; try set_solver.
Qed.

Lemma filter_unseen_empty (seen : gset string) (l : list string) :
  seen = ∅ → filter (λ x, x ∉ seen) l = l.
Proof.
  intros ->. induction l as [|x l IH]; [reflexivity|].
  rewrite filter_cons. case_decide; [now rewrite IH | set_solver].
Qed.

(** The lookups of the loop, exactly: it goes through a prefix of the hits
    and looks up each card of the prefix that was not seen before, once,
    in the order of the hits.  The prefix is all the hits unless the loop
    ended at a hit because the number of results was reached or an
    exception was raised. *)
Lemma aggregate_lookups (results : QueryResult) (num_results : Z)
    (remaining : list string) :
  ∀ (i : nat) formatted seen (w w' : world S) r,
    aggregate results num_results i remaining formatted seen w = (r, w') →
    ∃ k : nat,
      (k ≤ length remaining)%nat ∧
      w_store w' = w_store w ∧
      calls_of (w_log w')
      = calls_of (w_log w)
        ++ map lookup_call
             (filter (λ c, c ∉ seen)
                (first_seen (cards_of (take k remaining)))) ∧
      (k = length remaining
       ∨ ((0 < k)%nat ∧
          ((∃ out, r = Ret out ∧ num_results ≤ Z.of_nat (length out))
           ∨ ∃ e, r = Raise e))).
Proof.
  induction remaining as [|fid rest IH]; intros i formatted seen w w' r Hrun.
  - injection Hrun as <- <-. exists 0%nat. simpl. rewrite app_nil_r.
    repeat split; auto.
  - simpl in Hrun. destruct (decide (strip_slot fid ∈ seen)) as [Hin|Hnew].
    + destruct (IH _ _ _ _ _ _ Hrun) as (k & Hk & Hs & Hc & Hexit).
      exists (Datatypes.S k). split; [simpl; lia|]. split; [exact Hs|]. split.
      * change (cards_of (take (Datatypes.S k) (fid :: rest)))
          with (strip_slot fid :: cards_of (take k rest)).
        cbn [first_seen]. rewrite filter_cons_False by (now intros ?).
        rewrite (filter_unseen_skip _ _ _ Hin). exact Hc.
      * destruct Hexit as [->|[_ Hexit]]; [now left|].
        right. split; [lia | exact Hexit].
    + assert (Hfirst :
                filter (λ c, c ∉ seen)
                  (first_seen (cards_of (take 1 (fid :: rest))))
                = [strip_slot fid]).
      { change (cards_of (take 1 (fid :: rest))) with [strip_slot fid].
        cbn [first_seen]. rewrite filter_nil.
        now rewrite filter_cons_True, filter_nil by exact Hnew. }
      assert (Hone :
                w_store w' = w_store w →
                calls_of (w_log w')
                  = calls_of (w_log w) ++ [lookup_call (strip_slot fid)] →
                ((∃ out, r = Ret out ∧ num_results ≤ Z.of_nat (length out))
                 ∨ ∃ e, r = Raise e) →
                ∃ k : nat,
                  (k ≤ length (fid :: rest))%nat ∧
                  w_store w' = w_store w ∧
                  calls_of (w_log w')
                  = calls_of (w_log w)
                    ++ map lookup_call
                         (filter (λ c, c ∉ seen)
                            (first_seen (cards_of (take k (fid :: rest))))) ∧
                  (k = length (fid :: rest)
                   ∨ ((0 < k)%nat ∧
                      ((∃ out, r = Ret out
                               ∧ num_results ≤ Z.of_nat (length out))
                       ∨ ∃ e, r = Raise e)))).
      { intros Hs Hc Hexit. exists 1%nat. split; [simpl; lia|].
        split; [exact Hs|]. split; [now rewrite Hfirst|].
        right. split; [lia | exact Hexit]. }
      assert (Hmore : ∀ (w1 : world S) j fm,
                w_store w1 = w_store w →
                calls_of (w_log w1)
                  = calls_of (w_log w) ++ [lookup_call (strip_slot fid)] →
                aggregate results num_results j rest fm
                  (seen ∪ {[strip_slot fid]}) w1 = (r, w') →
                ∃ k : nat,
                  (k ≤ length (fid :: rest))%nat ∧
                  w_store w' = w_store w ∧
                  calls_of (w_log w')
                  = calls_of (w_log w)
                    ++ map lookup_call
                         (filter (λ c, c ∉ seen)
                            (first_seen (cards_of (take k (fid :: rest))))) ∧
                  (k = length (fid :: rest)
                   ∨ ((0 < k)%nat ∧
                      ((∃ out, r = Ret out
                               ∧ num_results ≤ Z.of_nat (length out))
                       ∨ ∃ e, r = Raise e)))).
      { intros w1 j fm Hs Hc Hrun'.
        destruct (IH _ _ _ _ _ _ Hrun') as (k & Hk & Hs' & Hc' & Hexit).
        exists (Datatypes.S k). split; [simpl; lia|].
        split; [congruence|]. split.
        - change (cards_of (take (Datatypes.S k) (fid :: rest)))
            with (strip_slot fid :: cards_of (take k rest)).
          cbn [first_seen]. rewrite filter_cons_True by exact Hnew.
          rewrite filter_unseen_add, Hc', Hc, <- app_assoc. reflexivity.
        - destruct Hexit as [->|[_ Hexit]]; [now left|].
          right. split; [lia | exact Hexit]. }
      pose proof (get_card_by_id_world (strip_slot fid) w) as Hget.
      unfold mbind at 1, M_bind at 1 in Hrun.
      destruct (get_card_by_id (strip_slot fid) w) as [[card|e] w1];
        simpl in Hget; subst w1.
      2:{ injection Hrun as <- <-. apply Hone; simpl; [reflexivity| |eauto].
          rewrite calls_of_app. reflexivity. }
      unfold mbind at 1, M_bind at 1 in Hrun. unfold try_except at 1 in Hrun.
      unfold mbind at 1, M_bind at 1 in Hrun.
      match type of Hrun with
      | context [format_result ?q ?j card ?w0] =>
          pose proof (format_result_world q j card w0) as Hfmt;
          destruct (format_result q j card w0) as [[result|e] w2]
      end; simpl in Hfmt; subst w2.
      * simpl in Hrun. destruct (_ >=? _) eqn:Elimit.
        -- injection Hrun as <- <-. apply Hone; simpl; [reflexivity| |].
           ++ rewrite calls_of_app. reflexivity.
           ++ left. eexists. split; [reflexivity|].
              apply Z.geb_le in Elimit. exact Elimit.
        -- eapply Hmore; [| |exact Hrun]; simpl; [reflexivity|].
           rewrite calls_of_app. reflexivity.
      * destruct (is_JSONDecodeError e); simpl in Hrun.
        -- eapply Hmore; [| |exact Hrun]; simpl; [reflexivity|].
           rewrite !calls_of_app. simpl. rewrite app_nil_r. reflexivity.
        -- injection Hrun as <- <-. apply Hone; simpl; [reflexivity| |eauto].
           rewrite calls_of_app. reflexivity.
Qed.

(** X7: the calls a search makes on the store.  When the store lists some
    identifiers and the query returns a row of hits, the calls are the
    listing, the one query, and then the lookups of the loop: it goes
    through the first [k] hits and looks up each card among them once, in
    the order in which the cards first occur.  These are all the hits,
    unless the loop ended at a hit because [num_results] results were
    reached or because an exception ended the search, which is then
    printed as a search error.  The store is left as it was. *)
Theorem search_cards_call_profile (query : string) (num_results : Z)
    (w : world S) (all_ids : list string) (results : QueryResult)
    (ids0 : list string) (rows : list (list string)) :
  coll_get_all (w_store w) = Ret all_ids →
  all_ids ≠ [] →
  coll_query (w_store w) [enhance query]
    (Z.min (num_results * 4) (Z.of_nat (length all_ids))) = Ret results →
  qr_ids results = Some (ids0 :: rows) →
  ∃ (k : nat) (out : list search_result),
    (k ≤ length ids0)%nat ∧
    (search_cards query num_results w).1 = Ret out ∧
    w_store (search_cards query num_results w).2 = w_store w ∧
    calls_of (w_log (search_cards query num_results w).2)
    = calls_of (w_log w)
      ++ CollGetAll
         :: CollQuery [enhance query]
              (Z.min (num_results * 4) (Z.of_nat (length all_ids)))
         :: map lookup_call (first_seen (cards_of (take k ids0))) ∧
    (k = length ids0
     ∨ ((0 < k)%nat ∧
        (num_results ≤ Z.of_nat (length out)
         ∨ ∃ e, last (w_log (search_cards query num_results w).2)
                = Some (PrintedExn "Search error: " e EmptyString)))).
Proof.
  intros Hall Hne Hquery Hids.
  unfold search_cards, search_cards_traced, try_except, process_query,
    call_get_all, call_query, print, emit, mbind, M_bind, mret, M_ret.
  simpl. rewrite Hall.
  destruct all_ids as [|id ids]; [congruence|].
  simpl. simpl in Hquery. rewrite Hquery. simpl. rewrite Hids. simpl.
  match goal with
  | |- context [aggregate ?r ?n ?i ?rem ?fm ?seen ?w0] =>
      destruct (aggregate r n i rem fm seen w0) as [[out|e] w1] eqn:Eagg
  end;
    destruct (aggregate_lookups _ _ _ _ _ _ _ _ _ Eagg)
      as (k & Hk & Hs & Hc & Hexit);
    rewrite (filter_unseen_empty ∅ _ eq_refl) in Hc; simpl in Hs, Hc;
    exists k; eexists; simpl;
    (split; [exact Hk|]); (split; [reflexivity|]); (split; [exact Hs|]);
    (split;
     [rewrite !calls_of_app, Hc, !calls_of_app; simpl;
      rewrite ?app_nil_r, <- ?app_assoc; reflexivity|]).
  - destruct Hexit as [->|[Hpos [(out' & [= <-] & Hlimit)|(e & He)]]];
      [now left| |discriminate He].
    right. split; [exact Hpos|]. left. now rewrite List.length_map.
  - destruct Hexit as [->|[Hpos [(out' & He & _)|(e' & [= <-])]]];
      [now left|discriminate He|].
    right. split; [exact Hpos|]. right. exists e. apply last_snoc.
Qed.

(** X8: a search never writes: whatever the store answers, its state is
    the same afterwards and no [add] call is made. *)
Theorem search_cards_never_writes (query : string) (num_results : Z)
    (w : world S) :
  w_store (search_cards query num_results w).2 = w_store w ∧
  adds_of (w_log (search_cards query num_results w).2) = adds_of (w_log w).
Proof.
  assert (Hadd : ∀ l1 l2, adds_of (l1 ++ l2) = adds_of l1 ++ adds_of l2)
    by (intros; apply filter_app).
  unfold search_cards, search_cards_traced, try_except, process_query,
    call_get_all, call_query, print, emit, mbind, M_bind, mret, M_ret.
  simpl.
  destruct (coll_get_all (w_store w)) as [[|id ids]|e]; simpl;
    try (split; [reflexivity|]; rewrite !Hadd; simpl;
         rewrite ?app_nil_r; reflexivity).
  destruct (coll_query _ _ _) as [results|e]; simpl;
    try (split; [reflexivity|]; rewrite !Hadd; simpl;
         rewrite ?app_nil_r; reflexivity).
  destruct (qr_ids results) as [[|ids0 rows]|]; simpl;
    try (split; [reflexivity|]; rewrite !Hadd; simpl;
         rewrite ?app_nil_r; reflexivity).
  match goal with
  | |- context [aggregate ?r ?n ?i ?rem ?fm ?seen ?w0] =>
      destruct (aggregate r n i rem fm seen w0) as [[out|e] w1] eqn:Eagg
  end;
    destruct (aggregate_calls _ _ _ _ _ _ _ _ _ Eagg)
      as (cs & Hs & Hc & _ & _);
    simpl in Hs, Hc; simpl; (split; [exact Hs|]);
    rewrite Hadd; simpl; rewrite app_nil_r;
    rewrite <- adds_of_calls, Hc, Hadd, adds_of_lookups, app_nil_r,
      adds_of_calls, !Hadd; simpl; rewrite ?app_nil_r; reflexivity.
Qed.
End more_search.

Lemma search_cards_call_profile_witness :
  ∃ (k : nat) (out : list search_result),
    (k ≤ 3)%nat ∧
    (search_cards "designer" 1 (World scenario_store [])).1 = Ret out ∧
    w_store (search_cards "designer" 1 (World scenario_store [])).2
      = scenario_store ∧
    calls_of (w_log (search_cards "designer" 1 (World scenario_store [])).2)
    = [] ++ CollGetAll :: CollQuery [enhance "designer"] (Z.min (1 * 4) 3)
            :: map lookup_call
                 (first_seen (cards_of (take k ["X_2"; "X_0"; "Y_1"]))) ∧
    (k = 3%nat
     ∨ ((0 < k)%nat ∧
        (1 ≤ Z.of_nat (length out)
         ∨ ∃ e,
             last (w_log (search_cards "designer" 1
                            (World scenario_store [])).2)
             = Some (PrintedExn "Search error: " e EmptyString)))).
Proof.
  apply (search_cards_call_profile "designer" 1 (World scenario_store [])
           ["X_0"; "X_2"; "Y_1"] (results_of_hits scenario_hits)
           ["X_2"; "X_0"; "Y_1"] []).
  - reflexivity.
  - discriminate.
  - reflexivity.
  - reflexivity.
Defined.

(** ** The results of a search *)

Section more_results.
Context {S : Type} `{!Collection S}.

(** Hits of cards that were all seen add nothing. *)
Lemma aggregate_all_seen results num_results (remaining : list string) :
  ∀ i formatted seen (w : world S),
    Forall (λ f, strip_slot f ∈ seen) remaining →
    aggregate results num_results i remaining formatted seen w
    = (Ret formatted, w).
Proof.
  induction remaining as [|fid rest IH]; intros i formatted seen w Hall;
    [reflexivity|].
  apply Forall_cons_1 in Hall as [Hin Hrest]. simpl.
  destruct (decide (strip_slot fid ∈ seen)); [|contradiction].
  apply IH, Hrest.
Qed.

Lemma get_card_by_id_run (card_id : string) (w : world S) :
  get_card_by_id card_id w
  = ((get_card_by_id card_id w).1,
     World (w_store w) (w_log w ++ [lookup_call card_id])).
Proof.
  rewrite <- get_card_by_id_world. now destruct (get_card_by_id card_id w).
Qed.

(** X9: a persisted card is found again.  When every hit of the query is a
    fragment of one card that the store holds with the composed metadata,
    [search_cards] returns exactly one result: that metadata, the distance
    of the first hit and the [extracted_info] of the record. *)
Theorem search_cards_finds_card (card_json : json) (p : processed)
    (card_id query : string) (num_results : Z) (w : world S)
    (all_ids : list string) (fragment_id : string) (distance : Q)
    (more : list (string * Q)) :
  wf_json card_json = true →
  process_business_card card_json = Ret p →
  persisted (w_store w) card_id (metadata p) →
  coll_get_all (w_store w) = Ret all_ids →
  all_ids ≠ [] →
  coll_query (w_store w) [enhance query]
    (Z.min (num_results * 4) (Z.of_nat (length all_ids)))
  = Ret (results_of_hits ((fragment_id, distance) :: more)) →
  Forall (λ h, strip_slot h.1 = card_id) ((fragment_id, distance) :: more) →
  ∃ extracted,
    py_get card_json "extracted_info" empty_dict = Ret extracted ∧
    (search_cards query num_results w).1
    = Ret [{| sr_metadata := metadata p;
              sr_distance := distance;
              sr_extracted_info := extracted |}].
Proof.
  intros Hwf Hp Hpers Hall Hne Hquery Hhits.
  apply Forall_cons_1 in Hhits as [Hfid Hmore]. simpl in Hfid.
  destruct (py_get card_json "extracted_info" empty_dict) as [extracted|e]
    eqn:Hext.
  2:{ unfold process_business_card in Hp. rewrite Hext in Hp. discriminate. }
  exists extracted. split; [reflexivity|].
  pose proof (process_business_card_source_json _ _ Hp) as Hsrc.
  pose proof (json_loads_dumps _ Hwf) as Hloads.
  unfold search_cards, search_cards_traced, try_except, process_query,
    call_get_all, call_query, print, emit, mbind, M_bind, mret, M_ret.
  simpl. rewrite Hall.
  destruct all_ids as [|id ids]; [congruence|].
  simpl. simpl in Hquery. rewrite Hquery. simpl.
  rewrite Hfid.
  destruct (decide (card_id ∈ (∅ : gset string))) as [Hin|_]; [set_solver|].
  unfold mbind at 1, M_bind at 1.
  rewrite get_card_by_id_run.
  match goal with
  | |- context [(get_card_by_id card_id ?w0).1] =>
      rewrite (get_card_by_id_persisted card_id w0 (metadata p) _ card_json
                 Hpers Hsrc Hloads)
  end.
  simpl. unfold format_result, lift, mbind, M_bind, mret, M_ret. simpl.
  rewrite Hsrc. simpl. rewrite Hloads. simpl. rewrite Hext. simpl.
  destruct (_ >=? _); simpl; [reflexivity|].
  rewrite aggregate_all_seen; [reflexivity|].
  apply Forall_fmap. eapply Forall_impl; [exact Hmore|].
  intros h Hh. simpl in *. rewrite Hh. set_solver.
Qed.

(** Every aggregated result carries the distance the query result gives at
    some index. *)
Lemma aggregate_distances (results : QueryResult) (num_results : Z)
    (P : Q → Prop) (remaining : list string) :
  (∀ j, P (distance_at results j)) →
  ∀ i formatted seen (w w' : world S) out,
    Forall (λ r, P (sr_distance r.2)) formatted →
    aggregate results num_results i remaining formatted seen w = (Ret out, w') →
    Forall (λ r, P (sr_distance r.2)) out.
Proof.
  intros HP.
  induction remaining as [|fid rest IH]; intros i formatted seen w w' out Hfm Hrun.
  - now injection Hrun as <- _.
  - simpl in Hrun. destruct (decide (strip_slot fid ∈ seen)) as [Hin|Hnew];
      [eapply IH; eauto|].
    unfold mbind at 1, M_bind at 1 in Hrun.
    destruct (get_card_by_id (strip_slot fid) w) as [[card|e] w1];
      [|discriminate].
    unfold mbind at 1, M_bind at 1 in Hrun. unfold try_except at 1 in Hrun.
    unfold mbind at 1, M_bind at 1 in Hrun.
    destruct (format_result _ _ card w1) as [[result|e] w2] eqn:Efmt.
    + apply format_result_distance in Efmt.
      assert (Hfm' : Forall (λ r, P (sr_distance r.2))
                       (formatted ++ [(strip_slot fid, result)])).
      { apply Forall_app. split; [exact Hfm|].
        apply Forall_singleton. simpl. rewrite Efmt. apply HP. }
      simpl in Hrun. destruct (_ >=? _).
      * now injection Hrun as <- _.
      * eapply IH; eauto.
    + destruct (is_JSONDecodeError e); [|discriminate].
      simpl in Hrun. eapply IH; eauto.
Qed.

(** X10: when the query result has no distances, every result of the
    search gets the distance 1.0. *)
Theorem search_cards_default_distance (query : string) (num_results : Z)
    (w : world S) (all_ids : list string) (results : QueryResult) :
  coll_get_all (w_store w) = Ret all_ids →
  all_ids ≠ [] →
  coll_query (w_store w) [enhance query]
    (Z.min (num_results * 4) (Z.of_nat (length all_ids))) = Ret results →
  qr_distances results = None ∨ qr_distances results = Some [] →
  ∃ out, (search_cards query num_results w).1 = Ret out ∧
         Forall (λ r, sr_distance r = 1%Q) out.
Proof.
  intros Hall Hne Hquery Hnone.
  assert (Hone : ∀ j, distance_at results j = 1%Q).
  { intros j. unfold distance_at. destruct Hnone as [-> | ->]; reflexivity. }
  rewrite search_cards_results.
  unfold search_cards_traced, try_except, process_query,
    call_get_all, call_query, print, emit, mbind, M_bind, mret, M_ret.
  simpl. rewrite Hall.
  destruct all_ids as [|id ids]; [congruence|].
  simpl. simpl in Hquery. rewrite Hquery. simpl.
  destruct (qr_ids results) as [[|ids0 rows]|]; simpl;
    try (eexists; split; [reflexivity | constructor]).
  match goal with
  | |- context [aggregate ?r ?n ?i ?rem ?fm ?seen ?w0] =>
      destruct (aggregate r n i rem fm seen w0) as [[out|e] w1] eqn:Eagg
  end; simpl.
  - eexists. split; [reflexivity|].
    pose proof (aggregate_distances _ _ (λ q, q = 1%Q) _ Hone _ _ _ _ _ _
                  (Forall_nil_2 _) Eagg) as Hout.
    apply Forall_fmap. exact Hout.
  - eexists. split; [reflexivity | constructor].
Qed.
End more_results.

Lemma search_cards_finds_card_witness :
  ∃ extracted,
    py_get ada_card "extracted_info" empty_dict = Ret extracted ∧
    (search_cards "engineer" 3 (World ada_store [])).1
    = Ret [{| sr_metadata := metadata ada_processed;
              sr_distance := (2 # 10)%Q;
              sr_extracted_info := extracted |}].
Proof.
  apply (search_cards_finds_card ada_card ada_processed "Ada Lovelace-abc123"
           "engineer" 3 (World ada_store []) (map fst (fragments ada_store))
           "Ada Lovelace-abc123_3" (2 # 10)%Q
           [("Ada Lovelace-abc123_0", (3 # 10)%Q)]).
  - vm_compute. reflexivity.
  - vm_compute. reflexivity.
  - exists (replicate 4 (Some (metadata ada_processed))).
    split; [vm_compute; reflexivity|].
    split; [discriminate | repeat constructor].
  - reflexivity.
  - vm_compute. discriminate.
  - vm_compute. reflexivity.
  - repeat constructor.
Defined.

Lemma search_cards_default_distance_witness :
  ∃ out,
    (search_cards "designer" 2 (World {| inner := scenario_store |} [])).1
    = Ret out ∧
    Forall (λ r, sr_distance r = 1%Q) out.
Proof.
  apply (search_cards_default_distance "designer" 2
           (World {| inner := scenario_store |} []) ["X_0"; "X_2"; "Y_1"]
           {| qr_ids := Some [map fst scenario_hits]; qr_distances := None |}).
  - reflexivity.
  - discriminate.
  - reflexivity.
  - left. reflexivity.
Defined.

(** ** From the model's answer to the store *)

Lemma lstrip_space (c : ascii) (s : string) :
  is_space c = true → lstrip (String c s) = lstrip s.
Proof. intros H. simpl. now rewrite H. Qed.

Lemma lstrip_nonspace (c : ascii) (s : string) :
  is_space c = false → lstrip (String c s) = String c s.
Proof. intros H. simpl. now rewrite H. Qed.

Lemma rstrip_app_space (s : string) (c : ascii) :
  is_space c = true → rstrip (s +:+ str1 c) = rstrip s.
Proof.
  intros H. induction s as [|a s IH]; simpl.
  - now rewrite H.
  - now rewrite IH.
Qed.

Lemma rstrip_app_nonspace (s : string) (c : ascii) :
  is_space c = false → rstrip (s +:+ str1 c) = s +:+ str1 c.
Proof.
  intros H. induction s as [|a s IH]; simpl.
  - now rewrite H.
  - rewrite IH. now destruct s.
Qed.

Lemma lstrip_app_space (s : string) (c : ascii) :
  is_space c = true →
  rstrip (lstrip (s +:+ str1 c)) = rstrip (lstrip s).
Proof.
  intros H. induction s as [|a s IH]; simpl.
  - now rewrite H.
  - destruct (is_space a); [exact IH|].
    change (String a (s +:+ str1 c)) with (String a s +:+ str1 c).
    now apply rstrip_app_space.
Qed.

(** Line breaks around a text do not survive [strip]. *)
Lemma strip_between_newlines (body : string) :
  strip (str1 newline +:+ body +:+ str1 newline) = strip body.
Proof.
  unfold strip. change (str1 newline +:+ ?t) with (String newline t).
  rewrite lstrip_space by reflexivity. now apply lstrip_app_space.
Qed.

Lemma substring_skip (a y : string) (n : nat) :
  String.substring (String.length a) n (a +:+ y) = String.substring 0 n y.
Proof. induction a as [|c a IH]; simpl; [reflexivity | exact IH]. Qed.

Lemma substring_take (m b : string) :
  String.substring 0 (String.length m) (m +:+ b) = m.
Proof.
  induction m as [|c m IH]; simpl; [now destruct b | now rewrite IH].
Qed.

Lemma substring_all (p : string) :
  String.substring 0 (String.length p) p = p.
Proof. induction p as [|c p IH]; simpl; [reflexivity | now rewrite IH]. Qed.

Lemma slice_between_app (a m b : string) :
  slice_between (a +:+ m +:+ b) (String.length a) (String.length b) = m.
Proof.
  unfold slice_between. rewrite !length_append.
  replace (String.length a + (String.length m + String.length b)
           - String.length b - String.length a)%nat
    with (String.length m) by lia.
  rewrite substring_skip. apply substring_take.
Qed.

Lemma endswith_app (x p : string) : endswith (x +:+ p) p = true.
Proof.
  unfold endswith. rewrite length_append.
  replace (String.length x + String.length p - String.length p)%nat
    with (String.length x) by lia.
  rewrite substring_skip, substring_all, String.eqb_refl, andb_true_r.
  apply Nat.leb_le. lia.
Qed.

Lemma strip_fenced (opening body : string) (c : ascii) (r : string) :
  opening = String c r → is_space c = false →
  strip (fenced opening body) = fenced opening body.
Proof.
  intros -> Hc. unfold strip, fenced.
  change (String c r +:+ ?t) with (String c (r +:+ t)).
  rewrite lstrip_nonspace by exact Hc.
  change (String c (r +:+ ?t)) with (String c r +:+ t).
  replace (String c r +:+ str1 newline +:+ body +:+ str1 newline +:+ code_fence)
    with ((String c r +:+ str1 newline +:+ body +:+ str1 newline +:+ "``")
          +:+ str1 "`").
  - now apply rstrip_app_nonspace.
  - rewrite !append_assoc. reflexivity.
Qed.

Lemma unwrap_fenced (opening body : string) :
  String.prefix opening (fenced opening body) = true →
  unwrap (fenced opening body) opening = strip body.
Proof.
  intros Hp. unfold unwrap, startswith. rewrite Hp.
  unfold fenced.
  replace (opening +:+ str1 newline +:+ body +:+ str1 newline +:+ code_fence)
    with (opening +:+ (str1 newline +:+ body +:+ str1 newline) +:+ code_fence)
    by (now rewrite !append_assoc).
  assert (He : endswith
                 (opening +:+ (str1 newline +:+ body +:+ str1 newline)
                  +:+ code_fence) code_fence = true).
  { rewrite <- append_assoc. apply endswith_app. }
  rewrite He. simpl andb. cbv iota.
  change 3%nat with (String.length code_fence).
  rewrite slice_between_app. apply strip_between_newlines.
Qed.

Lemma prefix_app_false (p q s : string) :
  String.prefix p s = false → String.prefix (p +:+ q) s = false.
Proof.
  revert s. induction p as [|x p IH]; intros s H.
  - destruct s; discriminate H.
  - destruct s as [|a s]; [reflexivity|].
    change (String.prefix (String x p +:+ q) (String a s))
      with (if ascii_dec x a then String.prefix (p +:+ q) s else false).
    change (String.prefix (String x p) (String a s))
      with (if ascii_dec x a then String.prefix p s else false) in H.
    destruct (ascii_dec x a); [now apply IH | reflexivity].
Qed.

Lemma prefix_shorter (body : string) :
  startswith body code_fence = false → startswith body "```json" = false.
Proof. apply (prefix_app_false code_fence "json"). Qed.

Lemma unwrap_plain (body wrapper : string) :
  startswith body wrapper = false → unwrap body wrapper = body.
Proof. intros H. unfold unwrap. now rewrite H. Qed.

(** The text [process_llm_response] hands to [json.loads]. *)
Lemma cleaned_fenced (body : string) :
  strip body = body →
  startswith body code_fence = false →
  fold_left unwrap ["```json"; code_fence] (strip (fenced "```json" body)) = body
  ∧ fold_left unwrap ["```json"; code_fence] (strip (fenced code_fence body)) = body
  ∧ fold_left unwrap ["```json"; code_fence] (strip body) = body.
Proof.
  intros Hstrip Hplain. repeat split; simpl fold_left.
  - rewrite (strip_fenced "```json" body "`" "``json") by reflexivity.
    rewrite unwrap_fenced by reflexivity.
    rewrite Hstrip. now apply unwrap_plain.
  - rewrite (strip_fenced code_fence body "`" "``") by reflexivity.
    rewrite (unwrap_plain (fenced code_fence body) "```json") by reflexivity.
    rewrite unwrap_fenced by reflexivity. exact Hstrip.
  - rewrite Hstrip.
    rewrite (unwrap_plain body "```json") by now apply prefix_shorter.
    now apply unwrap_plain.
Qed.

Lemma process_llm_response_cleaned {S : Type} (t : string) (v : json)
    (w : world S) :
  t ≠ EmptyString →
  json_loads (fold_left unwrap ["```json"; code_fence] (strip t)) = Ret v →
  process_llm_response (Some t) w = (Ret v, w).
Proof.
  intros Hne Hloads. unfold process_llm_response.
  destruct t as [|c t]; [congruence|].
  unfold try_except, lift. rewrite Hloads. reflexivity.
Qed.

Lemma process_llm_response_json_fence {S : Type} (body : string) (v : json)
    (w : world S) :
  strip body = body →
  startswith body code_fence = false →
  json_loads body = Ret v →
  process_llm_response (Some (fenced "```json" body)) w = (Ret v, w).
Proof.
  intros Hstrip Hplain Hloads.
  destruct (cleaned_fenced body Hstrip Hplain) as (H1 & _ & _).
  apply process_llm_response_cleaned; [discriminate|].
  rewrite H1. exact Hloads.
Qed.

(** X11: a JSON text that has no white space around it and does not start
    with a code fence is read back unchanged when the model wraps it in a
    fence opened by [```json] or by [```], and when it is not wrapped:
    [process_llm_response] returns the value [json.loads] gives for the
    text and prints nothing. *)
Theorem process_llm_response_fenced {S : Type} (body : string) (v : json)
    (w : world S) :
  strip body = body →
  startswith body code_fence = false →
  json_loads body = Ret v →
  process_llm_response (Some (fenced "```json" body)) w = (Ret v, w)
  ∧ process_llm_response (Some (fenced code_fence body)) w = (Ret v, w)
  ∧ process_llm_response (Some body) w = (Ret v, w).
Proof.
  intros Hstrip Hplain Hloads.
  destruct (cleaned_fenced body Hstrip Hplain) as (H1 & H2 & H3).
  repeat split; apply process_llm_response_cleaned;
    rewrite ?H1, ?H2, ?H3; try exact Hloads; try discriminate.
  intros ->. vm_compute in Hloads. discriminate.
Qed.

Lemma process_llm_response_fenced_witness :
  let body := json_dumps ada_extraction in
  let w := World empty_store [] in
  process_llm_response (Some (fenced "```json" body)) w = (Ret ada_extraction, w)
  ∧ process_llm_response (Some (fenced code_fence body)) w
    = (Ret ada_extraction, w)
  ∧ process_llm_response (Some body) w = (Ret ada_extraction, w).
Proof.
  intros body w.
  apply (process_llm_response_fenced body ada_extraction w).
  - vm_compute. reflexivity.
  - vm_compute. reflexivity.
  - vm_compute. reflexivity.
Defined.

(** X12: with a fenced answer that parses, [extract_from_image] does what
    [add_business_card] does on the record made of the image hash, the
    encoded image and the parsed answer, after one printed line. *)
Theorem extract_from_image_adds {S : Type} `{!Collection S}
    (image_hash image_base64 body : string) (v : json) (w : world S) :
  strip body = body →
  startswith body code_fence = false →
  json_loads body = Ret v →
  extract_from_image image_hash image_base64
    (Some (fenced "```json" body)) w
  = add_business_card (card_of_extraction image_hash image_base64 v)
      (World (w_store w)
         (w_log w ++
          [Printed "Extracting business card information with multimodal analysis..."])).
Proof.
  intros Hstrip Hplain Hloads.
  unfold extract_from_image, processor_extract_from_image, print, emit.
  unfold mbind at 1, M_bind at 1. unfold mbind at 1, M_bind at 1.
  unfold mbind at 1, M_bind at 1.
  rewrite (process_llm_response_json_fence body v _ Hstrip Hplain Hloads).
  reflexivity.
Qed.

Lemma extract_from_image_adds_witness :
  (extract_from_image "abc123" "QUJD"
     (Some (fenced "```json" (json_dumps ada_extraction)))
     (World empty_store [])).1
  = Ret "Ada Lovelace-abc123".
Proof.
  rewrite (extract_from_image_adds "abc123" "QUJD"
             (json_dumps ada_extraction) ada_extraction (World empty_store [])).
  - vm_compute. reflexivity.
  - vm_compute. reflexivity.
  - vm_compute. reflexivity.
  - vm_compute. reflexivity.
Defined.

Lemma process_llm_response_result {S : Type} (text : option string)
    (w : world S) :
  ∃ v lines,
    process_llm_response text w
    = (Ret v, World (w_store w) (w_log w ++ lines)) ∧
    calls_of lines = [].
Proof.
  unfold process_llm_response.
  destruct text as [[|c t]|];
    try (exists (JObj []), [Printed "No valid response received from the API."];
         split; reflexivity).
  unfold try_except, lift.
  destruct (json_loads _) as [v|e].
  - exists v, []. rewrite app_nil_r. destruct w. split; reflexivity.
  - simpl. destruct (is_JSONDecodeError e); eexists _, [_]; split; reflexivity.
Qed.

#[local] Arguments calls_of : simpl never.

Lemma process_llm_response_value {S : Type} (text : option string)
    (w w' : world S) :
  (process_llm_response text w).1 = (process_llm_response text w').1.
Proof.
  unfold process_llm_response.
  destruct text as [[|c t]|]; try reflexivity.
  unfold try_except, lift.
  match goal with
  | |- context [json_loads ?x] => destruct (json_loads x) as [v|e]
  end; [reflexivity|].
  simpl. destruct (is_JSONDecodeError e); reflexivity.
Qed.

(** X13: when the answer of the model gives no usable data, so that
    [process_llm_response] returns the empty dict, [extract_from_image]
    raises [KeyError] for the name; the store is as before and no [add]
    call was made. *)
Theorem extract_from_image_unusable {S : Type} `{!Collection S}
    (image_hash image_base64 : string) (text : option string) (w : world S) :
  (process_llm_response text w).1 = Ret (JObj []) →
  (extract_from_image image_hash image_base64 text w).1
    = Raise (KeyError "name") ∧
  w_store (extract_from_image image_hash image_base64 text w).2 = w_store w ∧
  calls_of (w_log (extract_from_image image_hash image_base64 text w).2)
    = calls_of (w_log w).
Proof.
  intros Hempty.
  assert (Hrun : ∃ lines,
            extract_from_image image_hash image_base64 text w
            = (Raise (KeyError "name"),
               World (w_store w) (w_log w ++ lines)) ∧
            calls_of lines = []).
  { unfold extract_from_image, processor_extract_from_image, print, emit.
    unfold mbind at 1, M_bind at 1. unfold mbind at 1, M_bind at 1.
    unfold mbind at 1, M_bind at 1.
    match goal with
    | |- context [process_llm_response text ?w0] =>
        destruct (process_llm_response_result text w0) as (v & lines & E & Hl);
        pose proof (process_llm_response_value text w0 w) as Hsame
    end.
    rewrite E, Hempty in Hsame. simpl in Hsame. injection Hsame as ->.
    rewrite E. unfold mret, M_ret.
    unfold add_business_card, lift, mbind, M_bind. simpl.
    eexists (_ :: lines). rewrite <- app_assoc. split; [reflexivity|].
    exact Hl. }
  destruct Hrun as (lines & -> & Hl). simpl.
  repeat split. rewrite calls_of_app, Hl. now rewrite app_nil_r.
Qed.

Lemma extract_from_image_unusable_witness :
  let w := World empty_store [] in
  (extract_from_image "abc123" "QUJD" (Some "I cannot read this card.") w).1
    = Raise (KeyError "name") ∧
  w_store (extract_from_image "abc123" "QUJD"
             (Some "I cannot read this card.") w).2 = empty_store ∧
  calls_of (w_log (extract_from_image "abc123" "QUJD"
                     (Some "I cannot read this card.") w).2) = [].
Proof.
  intros w.
  apply (extract_from_image_unusable "abc123" "QUJD"
           (Some "I cannot read this card.") w).
  vm_compute. reflexivity.
Defined.

(** ** The embedding function *)

Section more_embedding.
Context {V : Type}.
Variable to_float : V → outcome Q.
Variable embed_content : string → outcome (list (option (list V))).
Variable checked : list (list Q) → outcome (list (list Q)).

Lemma embedding_call_acc (input : list string) :
  ∀ acc : list (list Q),
    match embedding_call to_float embed_content input acc with
    | Ret out =>
        ∃ vectors, out = acc ++ vectors ∧
                   Forall2 (made to_float embed_content) input vectors
    | Raise e => ∃ text, text ∈ input ∧ failed to_float embed_content text e
    end.
Proof.
  induction input as [|text rest IH]; intros acc; simpl.
  - exists []. rewrite app_nil_r. split; [reflexivity | constructor].
  - destruct (embed_content text) as [r|e] eqn:E; simpl.
    + destruct (embedding_of to_float r) as [v|e] eqn:Ev; simpl.
      * specialize (IH (acc ++ [v])).
        destruct (embedding_call to_float embed_content rest _) as [out|e].
        -- destruct IH as (vs & -> & Hall).
           exists (v :: vs). rewrite <- app_assoc.
           split; [reflexivity|]. constructor; [|exact Hall].
           exists r. split; [exact E|].
           destruct r as [|[values|] more]; simpl in Ev; congruence.
        -- destruct IH as (t & Ht & He).
           exists t. split; [now right | exact He].
      * exists text. split; [now left|]. right.
        destruct r as [|[values|] more]; simpl in Ev; try discriminate.
        now exists values, more.
    + exists text. split; [now left | now left].
Qed.

(** X14: a call of the embedding function hands to the wrapper of the
    base class one vector per input text, in the order of the texts: the
    converted values of the first embedding of the answer, or the
    one-element vector [[0.0]] when the answer has no embedding or its
    first embedding has no values.  The call returns what the wrapper
    returns for that list.  It raises only what [embed_content] or [float]
    raised for one of the texts, or what the wrapper raised for the
    list. *)
Theorem embedding_function_one_per_text (input : list string) :
  match GeminiEmbeddingFunction_call to_float embed_content checked input with
  | Ret out =>
      ∃ vectors, Forall2 (made to_float embed_content) input vectors ∧
                 checked vectors = Ret out
  | Raise e =>
      (∃ text, text ∈ input ∧ failed to_float embed_content text e)
      ∨ (∃ vectors, Forall2 (made to_float embed_content) input vectors ∧
                    checked vectors = Raise e)
  end.
Proof.
  unfold GeminiEmbeddingFunction_call.
  pose proof (embedding_call_acc input []) as H.
  destruct (embedding_call to_float embed_content input []) as [vs|e];
    simpl.
  - destruct H as (vectors & -> & Hall). simpl.
    destruct (checked vectors) as [out|e] eqn:Ec.
    + now exists vectors.
    + right. now exists vectors.
  - now left.
Qed.
End more_embedding.
(** ** The front end *)

Lemma process_business_card_no_image (card_json : json) (p : processed) :
  process_business_card card_json = Ret p →
  metadata p !! "image_base64" = None.
Proof.
  intros H. apply process_business_card_inv in H
    as (d0 & d1 & d2 & d3 & ? & ? & ? & ? & ? & ? & ? & ? & ? & _ & ->).
  now simplify_map_eq.
Qed.

(** X15: the encoded image the composer returns beside the metadata is not
    stored under a key of its own.  For a card that is persisted with the
    composed metadata, [get_card_by_id] returns the record in
    [original_json] and the empty string as [image_base64]. *)
Theorem get_card_by_id_no_image {S : Type} `{!Collection S}
    (card_json : json) (p : processed) (card_id : string) (w : world S) :
  wf_json card_json = true →
  process_business_card card_json = Ret p →
  persisted (w_store w) card_id (metadata p) →
  (get_card_by_id card_id w).1
  = Ret {| cd_metadata := metadata p;
           cd_original_json := card_json;
           cd_image_base64 := EmptyString |}
  ∧ py_getitem2 card_json "image_metadata" "base64" = Ret (image_base64 p).
Proof.
  intros Hwf Hp Hpersisted. split.
  - rewrite (get_card_by_id_persisted card_id w (metadata p)
               (json_dumps card_json) card_json Hpersisted
               (process_business_card_source_json _ _ Hp)
               (json_loads_dumps _ Hwf)).
    now rewrite (process_business_card_no_image _ _ Hp).
  - unfold process_business_card in Hp. repeat step_bind Hp.
    now injection Hp as <-.
Qed.

Lemma get_card_by_id_no_image_witness :
  (get_card_by_id "Ada Lovelace-abc123" ada_world).1
  = Ret {| cd_metadata := metadata ada_processed;
           cd_original_json := ada_card;
           cd_image_base64 := EmptyString |}
  ∧ py_getitem2 ada_card "image_metadata" "base64"
    = Ret (image_base64 ada_processed).
Proof.
  apply (get_card_by_id_no_image ada_card ada_processed).
  - vm_compute. reflexivity.
  - vm_compute. reflexivity.
  - exists (replicate 4 (Some (metadata ada_processed))).
    split; [vm_compute; reflexivity|].
    split; [discriminate|]. repeat constructor.
Defined.

Lemma raises_bind {A B : Type} (m : outcome A) (f : A → outcome B) :
  raises m → raises (m ≫= f).
Proof. now destruct m. Qed.

Lemma raises_bind_cont {A B : Type} (m : outcome A) (f : A → outcome B) :
  (∀ x, raises (f x)) → raises (m ≫= f).
Proof. intros Hf. destruct m; simpl; [apply Hf | exact I]. Qed.

(** On a dict, a section is read through the lookup of its key. *)
Lemma section_dict (kvs : list (string * json)) (key : string)
    (render : json → outcome string) :
  app.section (JObj kvs) key render
  = match dict_lookup key kvs with
    | Some value => render value
    | None => Ret EmptyString
    end.
Proof.
  unfold app.section, py_contains, py_getitem. simpl.
  destruct (dict_lookup key kvs); reflexivity.
Qed.

(** X16: the display reads the four sections [primary_info],
    [contact_info], [digital_presence] and [contextual_summary] of the
    record and nothing else: two records that agree on these four keys are
    displayed alike, whatever the order of the keys and whatever other
    sections they hold. *)
Theorem display_reads_four_sections (kvs kvs' : list (string * json)) :
  (∀ key, key ∈ app.display_sections →
          dict_lookup key kvs = dict_lookup key kvs') →
  app.format_extracted_info_for_display (JObj kvs)
  = app.format_extracted_info_for_display (JObj kvs').
Proof.
  intros Hsame. unfold app.format_extracted_info_for_display.
  rewrite !section_dict.
  rewrite (Hsame "primary_info"), (Hsame "contact_info"),
    (Hsame "digital_presence"), (Hsame "contextual_summary");
    unfold app.display_sections; set_solver.
Qed.

Lemma display_reads_four_sections_witness :
  app.format_extracted_info_for_display reordered_extraction
  = app.format_extracted_info_for_display ada_extraction.
Proof.
  apply display_reads_four_sections.
  intros key Hkey. unfold app.display_sections in Hkey.
  repeat (apply elem_of_cons in Hkey as [->|Hkey]; [reflexivity|]).
  now apply elem_of_nil in Hkey.
Defined.

Lemma primary_section_not_dict (v : json) :
  is_dict v = false → raises (app.primary_section v).
Proof. destruct v; try discriminate; intros _; exact I. Qed.

Lemma contact_section_not_dict (v : json) :
  is_dict v = false → raises (app.contact_section v).
Proof. destruct v; try discriminate; intros _; exact I. Qed.

Lemma contextual_section_not_dict (v : json) :
  is_dict v = false → raises (app.contextual_section v).
Proof. destruct v; try discriminate; intros _; exact I. Qed.

Lemma digital_section_not_dict (v : json) :
  is_dict v = false → raises (app.digital_section v).
Proof.
  destruct v; try discriminate; intros _; try exact I;
    unfold app.digital_section, py_contains; simpl.
  - destruct (contains_str "website" s); exact I.
  - destruct (existsb _ xs); exact I.
Qed.

(** X17: a section that is present and is not a dict (a text, a list, a
    number, [null]) makes the display raise, whatever the other sections
    hold. *)
Theorem display_section_not_a_dict (kvs : list (string * json))
    (key : string) (value : json) :
  key ∈ app.display_sections →
  dict_lookup key kvs = Some value →
  is_dict value = false →
  raises (app.format_extracted_info_for_display (JObj kvs)).
Proof.
  intros Hkey Hvalue Hnot. unfold app.format_extracted_info_for_display.
  rewrite !section_dict. unfold app.display_sections in Hkey.
  apply elem_of_cons in Hkey as [->|Hkey].
  { rewrite Hvalue. now apply raises_bind, primary_section_not_dict. }
  apply raises_bind_cont. intros primary.
  apply elem_of_cons in Hkey as [->|Hkey].
  { rewrite Hvalue. now apply raises_bind, contact_section_not_dict. }
  apply raises_bind_cont. intros contact.
  apply elem_of_cons in Hkey as [->|Hkey].
  { rewrite Hvalue. now apply raises_bind, digital_section_not_dict. }
  apply raises_bind_cont. intros digital.
  apply elem_of_cons in Hkey as [->|Hkey].
  { rewrite Hvalue. now apply raises_bind, contextual_section_not_dict. }
  now apply elem_of_nil in Hkey.
Qed.

Lemma display_section_not_a_dict_witness :
  raises (app.format_extracted_info_for_display
            (JObj [("primary_info", JObj []);
                   ("digital_presence", JStr "see website")])).
Proof.
  apply (display_section_not_a_dict _ "digital_presence" (JStr "see website")).
  - do 2 apply list_elem_of_further. apply list_elem_of_here.
  - reflexivity.
  - reflexivity.
Defined.

Section more_front_end.
Context {S : Type} `{!Collection S}.
Variable match_score : Q → string.
Variable exn_message : exn → string.

(** What the search page is, given the outcome of [search_cards]. *)
Lemma search_business_cards_run (query : string) (num_results : Z)
    (w w1 : world S) (r : outcome (list search_result)) :
  search_cards query num_results w = (r, w1) →
  app.search_business_cards match_score exn_message query num_results w
  = let failed e :=
      (Ret (app.search_error exn_message e, None),
       World (w_store w1)
         (w_log w1 ++ [Printed (app.error_msg exn_message e)])) in
    match r with
    | Ret [] => (Ret (app.no_match, None), w1)
    | Ret results =>
        match app.match_blocks match_score 1 results with
        | Ret blocks =>
            (Ret (app.results_page query results blocks, Some results), w1)
        | Raise e => failed e
        end
    | Raise e => failed e
    end.
Proof.
  intros E. unfold app.search_business_cards, try_except.
  unfold mbind at 1, M_bind at 1. rewrite E.
  destruct r as [[|result rest]|e]; try reflexivity.
  unfold lift, mbind at 1, M_bind at 1.
  destruct (app.match_blocks match_score 1 (result :: rest)); reflexivity.
Qed.

Lemma search_cards_nothing_listed (query : string) (num_results : Z)
    (w : world S) :
  (∃ e, coll_get_all (w_store w) = Raise e)
  ∨ coll_get_all (w_store w) = Ret [] →
  (search_cards query num_results w).1 = Ret [].
Proof.
  intros Hlist.
  unfold search_cards, search_cards_traced, try_except, process_query, print,
    emit, call_get_all, mbind, M_bind, mret, M_ret.
  simpl. destruct Hlist as [[e ->]| ->]; reflexivity.
Qed.

(** X18: the search page does not tell a store that cannot be listed from
    a store without cards: when [collection.get()] raises or returns no
    identifier, the page is the message that no card matches, with no raw
    results, and not the error message. *)
Theorem search_page_hides_store_failure (query : string) (num_results : Z)
    (w : world S) :
  (∃ e, coll_get_all (w_store w) = Raise e)
  ∨ coll_get_all (w_store w) = Ret [] →
  (app.search_business_cards match_score exn_message query num_results w).1
  = Ret (app.no_match, None).
Proof.
  intros Hlist.
  pose proof (search_cards_nothing_listed query num_results w Hlist) as Hnone.
  destruct (search_cards query num_results w) as [r w1] eqn:E.
  rewrite (search_business_cards_run _ _ _ _ _ E).
  simpl in Hnone. now subst r.
Qed.

Lemma match_blocks_raises (results : list search_result) (r : search_result) :
  r ∈ results →
  raises (app.format_extracted_info_for_display (sr_extracted_info r)) →
  ∀ i, raises (app.match_blocks match_score i results).
Proof.
  intros Hin Hr. induction results as [|first rest IH]; intros i.
  - now apply elem_of_nil in Hin.
  - simpl. apply elem_of_cons in Hin as [<-|Hin].
    + apply raises_bind. unfold app.match_block. now apply raises_bind.
    + apply raises_bind_cont. intros block. apply raises_bind, IH, Hin.
Qed.

(** X19: the search page never raises, and it shows results only when
    every result can be displayed: the raw results are then exactly the
    non-empty list [search_cards] returned and the page holds one block per
    result; otherwise the page is one of the two messages with no raw
    results. *)
Theorem search_business_cards_total (query : string) (num_results : Z)
    (w : world S) :
  ∃ page raw,
    (app.search_business_cards match_score exn_message query num_results w).1
    = Ret (page, raw) ∧
    match raw with
    | Some results =>
        (search_cards query num_results w).1 = Ret results ∧
        results ≠ [] ∧
        ∃ blocks, app.match_blocks match_score 1 results = Ret blocks ∧
                  page = app.results_page query results blocks
    | None =>
        (page = app.no_match ∧ (search_cards query num_results w).1 = Ret [])
        ∨ ∃ e, page = app.search_error exn_message e
    end.
Proof.
  destruct (search_cards query num_results w) as [r w1] eqn:E.
  rewrite (search_business_cards_run _ _ _ _ _ E).
  destruct r as [[|result rest]|e]; cbv zeta.
  - eexists _, None. split; [reflexivity|]. now left.
  - destruct (app.match_blocks match_score 1 (result :: rest)) as [blocks|e]
      eqn:Eb.
    + eexists _, (Some _). split; [reflexivity|].
      split; [reflexivity|]. split; [discriminate|]. now exists blocks.
    + eexists _, None. split; [reflexivity|]. right. now exists e.
  - eexists _, None. split; [reflexivity|]. right. now exists e.
Qed.

(** X20: one result that cannot be displayed costs the whole page: when
    the display raises on the record of some result, the page is the error
    message, the raw results are withheld and the message is printed. *)
Theorem search_page_fails_on_one_result (query : string) (num_results : Z)
    (w : world S) (results : list search_result) (r : search_result) :
  (search_cards query num_results w).1 = Ret results →
  r ∈ results →
  raises (app.format_extracted_info_for_display (sr_extracted_info r)) →
  ∃ e,
    (app.search_business_cards match_score exn_message query num_results w).1
    = Ret (app.search_error exn_message e, None) ∧
    last (w_log (app.search_business_cards match_score exn_message query
                   num_results w).2)
    = Some (Printed (app.error_msg exn_message e)).
Proof.
  intros Hresults Hin Hr.
  destruct (search_cards query num_results w) as [r0 w1] eqn:E.
  rewrite (search_business_cards_run _ _ _ _ _ E).
  simpl in Hresults. subst r0.
  pose proof (match_blocks_raises results r Hin Hr 1) as Hraises.
  destruct results as [|first rest]; [now apply elem_of_nil in Hin|].
  cbv zeta.
  destruct (app.match_blocks match_score 1 (first :: rest)) as [?|e];
    [destruct Hraises|].
  exists e. split; [reflexivity|]. apply last_snoc.
Qed.
End more_front_end.

Lemma search_page_hides_store_failure_witness :
  (app.search_business_cards sample_score sample_message "designer" 5
     (World offline_store [])).1
  = Ret (app.no_match, None).
Proof.
  apply search_page_hides_store_failure.
  left. exists unreachable. reflexivity.
Defined.

Lemma search_page_fails_on_one_result_witness :
  ∃ e,
    (app.search_business_cards sample_score sample_message "admiral" 5
       (World phone_text_store [])).1
    = Ret (app.search_error sample_message e, None) ∧
    last (w_log (app.search_business_cards sample_score sample_message
                   "admiral" 5 (World phone_text_store [])).2)
    = Some (Printed (app.error_msg sample_message e)).
Proof.
  apply (search_page_fails_on_one_result sample_score sample_message
           "admiral" 5 (World phone_text_store []) [phone_text_result]
           phone_text_result).
  - vm_compute. reflexivity.
  - apply list_elem_of_here.
  - vm_compute. exact I.
Defined.

(** *** The upload *)

Lemma processor_extract_from_image_run {S : Type}
    (image_hash image_base64 : string) (text : option string) (w : world S) :
  ∃ v lines,
    processor_extract_from_image image_hash image_base64 text w
    = (Ret (card_of_extraction image_hash image_base64 v),
       World (w_store w) (w_log w ++ lines)) ∧
    calls_of lines = [] ∧
    (process_llm_response text w).1 = Ret v.
Proof.
  unfold processor_extract_from_image, print, emit.
  unfold mbind at 1, M_bind at 1. unfold mbind at 1, M_bind at 1.
  match goal with
  | |- context [process_llm_response text ?w0] =>
      destruct (process_llm_response_result text w0) as (v & lines & E & Hl);
      pose proof (process_llm_response_value text w0 w) as Hsame
  end.
  rewrite E in Hsame. rewrite E. simpl in Hsame.
  unfold mret, M_ret. cbn [w_store w_log].
  exists v. eexists (_ :: lines). rewrite <- app_assoc.
  split; [reflexivity|]. split; [exact Hl | now symmetry].
Qed.

Lemma add_business_card_run {S : Type} `{!Collection S}
    (card_json : json) (p : processed) (w : world S) :
  process_business_card card_json = Ret p →
  ∃ card_id,
    card_id_of p = Ret card_id ∧
    add_business_card card_json w
    = let metadatas := replicate 4 (metadata p) in
      let log :=
        w_log w ++ [CollAdd (documents p) metadatas (fragment_ids card_id)] in
      match coll_add (w_store w) (documents p) metadatas
              (fragment_ids card_id) with
      | Ret s' => (Ret card_id, World s' log)
      | Raise e => (Raise e, World (w_store w) log)
      end.
Proof.
  intros Hp.
  destruct (process_business_card_identity _ _ Hp)
    as (Hlen & name & image_hash & _ & _ & Hmn & Hmh).
  exists (card_identity (py_str name) (py_str image_hash)).
  unfold card_id_of. rewrite Hmn, Hmh. split; [reflexivity|].
  unfold add_business_card, call_add, lift, mbind, M_bind, mret, M_ret.
  rewrite Hp, Hmn, Hmh, Hlen. simpl.
  destruct (coll_add _ _ _ _); reflexivity.
Qed.

Lemma adds_of_app (l1 l2 : list event) :
  adds_of (l1 ++ l2) = adds_of l1 ++ adds_of l2.
Proof. apply filter_app. Qed.

Lemma adds_of_no_calls (lines : list event) :
  calls_of lines = [] → adds_of lines = [].
Proof. intros H. now rewrite <- adds_of_calls, H. Qed.

Lemma wf_card_of_extraction (image_hash image_base64 : string) (v : json) :
  wf_json v = true →
  wf_json (card_of_extraction image_hash image_base64 v) = true.
Proof.
  intros Hwf. unfold card_of_extraction.
  change (bool_decide (NoDup ["image_metadata"; "extracted_info"])
          && (bool_decide (NoDup ["hash"; "base64"]) && true
              && (wf_json v && true)) = true).
  rewrite Hwf. vm_compute. reflexivity.
Qed.

Section more_upload.
Context {S : Type} `{!Collection S}.
Variable exn_message : exn → string.

(** X21: when the answer of the model gives no usable data, the upload
    goes through its three progress messages and ends with the error
    message for [KeyError('name')]; nothing was asked of the store. *)
Theorem upload_unusable_answer (c : ascii) (path : string)
    (image_hash image_base64 : string) (text : option string) (w : world S) :
  (process_llm_response text w).1 = Ret (JObj []) →
  let run :=
    app.add_business_card exn_message (Some (String c path)) image_hash
      image_base64 text w in
  run.1 = [(app.processing, None); (app.extracting, None);
           (app.adding, None); app.failure exn_message (KeyError "name")] ∧
  w_store run.2 = w_store w ∧
  calls_of (w_log run.2) = calls_of (w_log w).
Proof.
  intros Hempty run. subst run. unfold app.add_business_card.
  destruct (processor_extract_from_image_run image_hash image_base64 text w)
    as (v & lines & -> & Hl & Hv).
  rewrite Hempty in Hv. injection Hv as <-.
  unfold add_business_card, lift. unfold mbind at 1, M_bind at 1.
  unfold mbind at 1, M_bind at 1. simpl.
  repeat split. rewrite calls_of_app, Hl. apply app_nil_r.
Qed.

(** The upload once the composer has accepted the record. *)
Lemma upload_run (c : ascii) (path : string)
    (image_hash image_base64 : string) (text : option string) (w : world S)
    (v : json) (p : processed) :
  (process_llm_response text w).1 = Ret v →
  process_business_card (card_of_extraction image_hash image_base64 v)
  = Ret p →
  ∃ card_id lines,
    card_id_of p = Ret card_id ∧
    calls_of lines = [] ∧
    app.add_business_card exn_message (Some (String c path)) image_hash
      image_base64 text w
    = let progress :=
        [(app.processing, None); (app.extracting, None);
         (app.adding, None)] in
      let log1 :=
        (w_log w ++ lines)
        ++ [CollAdd (documents p) (replicate 4 (metadata p))
              (fragment_ids card_id)] in
      match coll_add (w_store w) (documents p) (replicate 4 (metadata p))
              (fragment_ids card_id) with
      | Raise e =>
          (progress ++ [app.failure exn_message e], World (w_store w) log1)
      | Ret s' =>
          let w2 := World s' (log1 ++ [lookup_call card_id]) in
          match (get_card_by_id card_id (World s' log1)).1 with
          | Raise e => (progress ++ [app.failure exn_message e], w2)
          | Ret card =>
              match app.format_extracted_info_for_display v with
              | Ret html => (progress ++ [(html, Some card)], w2)
              | Raise e => (progress ++ [app.failure exn_message e], w2)
              end
          end
      end.
Proof.
  intros Hv Hp. unfold app.add_business_card.
  destruct (processor_extract_from_image_run image_hash image_base64 text w)
    as (v' & lines & -> & Hl & Hv').
  rewrite Hv in Hv'. injection Hv' as <-.
  destruct (add_business_card_run _ p
              (World (w_store w) (w_log w ++ lines)) Hp)
    as (card_id & Hid & Hadd).
  exists card_id, lines. split; [exact Hid|]. split; [exact Hl|].
  unfold mbind at 1, M_bind at 1. rewrite Hadd.
  cbv zeta. cbn [w_store w_log].
  destruct (coll_add _ _ _ _) as [s'|e]; [|reflexivity].
  unfold mbind at 1, M_bind at 1. rewrite get_card_by_id_run.
  cbn [w_store w_log].
  destruct (get_card_by_id card_id _).1 as [card|e]; [|reflexivity].
  unfold lift, mbind, M_bind, mret, M_ret. cbn [card_of_extraction].
  change (py_getitem (card_of_extraction image_hash image_base64 v)
            "extracted_info") with (Ret v).
  cbv iota beta.
  destruct (app.format_extracted_info_for_display v); reflexivity.
Qed.

(** X22: a card can be stored and the upload still end with the error
    message.  When the composer accepts the record but the display raises
    on the extracted data, the last pair yielded is an error message, the
    [add] call for the card was made, and the store is the one that call
    returned. *)
Theorem upload_stored_but_failed (c : ascii) (path : string)
    (image_hash image_base64 : string) (text : option string) (w : world S)
    (v : json) (p : processed) :
  (process_llm_response text w).1 = Ret v →
  process_business_card (card_of_extraction image_hash image_base64 v)
  = Ret p →
  raises (app.format_extracted_info_for_display v) →
  let run :=
    app.add_business_card exn_message (Some (String c path)) image_hash
      image_base64 text w in
  ∃ e card_id,
    card_id_of p = Ret card_id ∧
    last run.1 = Some (app.failure exn_message e) ∧
    adds_of (w_log run.2)
    = adds_of (w_log w)
      ++ [CollAdd (documents p) (replicate 4 (metadata p))
            (fragment_ids card_id)] ∧
    ∀ s', coll_add (w_store w) (documents p) (replicate 4 (metadata p))
            (fragment_ids card_id) = Ret s' →
          w_store run.2 = s'.
Proof.
  intros Hv Hp Hraises run. subst run.
  destruct (upload_run c path image_hash image_base64 text w v p Hv Hp)
    as (card_id & lines & Hid & Hl & ->).
  apply adds_of_no_calls in Hl. cbv zeta.
  assert (Hadds : ∀ more,
            adds_of more = [] →
            adds_of (((w_log w ++ lines)
                      ++ [CollAdd (documents p) (replicate 4 (metadata p))
                            (fragment_ids card_id)]) ++ more)
            = adds_of (w_log w)
              ++ [CollAdd (documents p) (replicate 4 (metadata p))
                    (fragment_ids card_id)]).
  { intros more Hmore. rewrite !adds_of_app, Hl, Hmore.
    now rewrite !app_nil_r. }
  destruct (coll_add _ _ _ _) as [s'|e] eqn:Eadd.
  - destruct (get_card_by_id card_id _).1 as [card|e].
    + destruct (app.format_extracted_info_for_display v) as [?|e];
        [destruct Hraises|].
      exists e, card_id. split; [exact Hid|]. split; [reflexivity|].
      split; [now apply Hadds | intros s'' E; simpl; congruence].
    + exists e, card_id. split; [exact Hid|]. split; [reflexivity|].
      split; [now apply Hadds | intros s'' E; simpl; congruence].
  - exists e, card_id. split; [exact Hid|]. split; [reflexivity|].
    split; [|intros s'' E; congruence].
    rewrite <- (app_nil_r (_ ++ [CollAdd _ _ _])). now apply Hadds.
Qed.

(** X23: an upload that succeeds shows what was stored.  When the answer
    parses to a well-formed value that the composer accepts and the
    display can render, and the store persists what [add] wrote, the last
    pair yielded is the rendered record together with the card as
    [get_card_by_id] reads it back: the composed metadata and the record
    itself. *)
Theorem upload_shows_stored_card (c : ascii) (path : string)
    (image_hash image_base64 : string) (text : option string) (w : world S)
    (v : json) (p : processed) (html card_id : string) (s' : S) :
  (process_llm_response text w).1 = Ret v →
  wf_json v = true →
  process_business_card (card_of_extraction image_hash image_base64 v)
  = Ret p →
  app.format_extracted_info_for_display v = Ret html →
  card_id_of p = Ret card_id →
  coll_add (w_store w) (documents p) (replicate 4 (metadata p))
    (fragment_ids card_id) = Ret s' →
  persisted s' card_id (metadata p) →
  (app.add_business_card exn_message (Some (String c path)) image_hash
     image_base64 text w).1
  = [(app.processing, None); (app.extracting, None); (app.adding, None);
     (html,
      Some {| cd_metadata := metadata p;
              cd_original_json :=
                card_of_extraction image_hash image_base64 v;
              cd_image_base64 := EmptyString |})].
Proof.
  intros Hv Hwf Hp Hhtml Hid Hadd Hpersisted.
  destruct (upload_run c path image_hash image_base64 text w v p Hv Hp)
    as (card_id' & lines & Hid' & _ & ->).
  rewrite Hid in Hid'. injection Hid' as <-.
  cbv zeta. rewrite Hadd.
  rewrite (get_card_by_id_persisted card_id (World s' _) (metadata p)
             (json_dumps (card_of_extraction image_hash image_base64 v))
             (card_of_extraction image_hash image_base64 v) Hpersisted
             (process_business_card_source_json _ _ Hp)
             (json_loads_dumps _ (wf_card_of_extraction _ _ _ Hwf))).
  rewrite (process_business_card_no_image _ _ Hp), Hhtml.
  reflexivity.
Qed.
End more_upload.

Lemma upload_unusable_answer_witness :
  let run :=
    app.add_business_card sample_message (Some "card.png") "abc123" "QUJD"
      (Some "I cannot read this card.") (World empty_store []) in
  run.1 = [(app.processing, None); (app.extracting, None);
           (app.adding, None); app.failure sample_message (KeyError "name")] ∧
  w_store run.2 = w_store (World empty_store []) ∧
  calls_of (w_log run.2) = calls_of (w_log (World empty_store [])).
Proof.
  apply (upload_unusable_answer sample_message "c" "ard.png" "abc123" "QUJD"
           (Some "I cannot read this card.") (World empty_store [])).
  vm_compute. reflexivity.
Defined.

Lemma upload_stored_but_failed_witness :
  let run :=
    app.add_business_card sample_message (Some "card.png") "def456" "R0g="
      (Some (json_dumps phone_text_extraction)) (World empty_store []) in
  ∃ e card_id,
    card_id_of phone_text_processed = Ret card_id ∧
    last run.1 = Some (app.failure sample_message e) ∧
    adds_of (w_log run.2)
    = adds_of (w_log (World empty_store []))
      ++ [CollAdd (documents phone_text_processed)
            (replicate 4 (metadata phone_text_processed))
            (fragment_ids card_id)] ∧
    ∀ s', coll_add (w_store (World empty_store []))
            (documents phone_text_processed)
            (replicate 4 (metadata phone_text_processed))
            (fragment_ids card_id) = Ret s' →
          w_store run.2 = s'.
Proof.
  apply (upload_stored_but_failed sample_message "c" "ard.png" "def456" "R0g="
           (Some (json_dumps phone_text_extraction)) (World empty_store [])
           phone_text_extraction phone_text_processed).
  - vm_compute. reflexivity.
  - vm_compute. reflexivity.
  - vm_compute. exact I.
Defined.

Lemma upload_shows_stored_card_witness :
  ∃ html,
    (app.add_business_card sample_message (Some "card.png") "abc123" "QUJD"
       (Some (json_dumps ada_extraction)) (World empty_store [])).1
    = [(app.processing, None); (app.extracting, None); (app.adding, None);
       (html,
        Some {| cd_metadata := metadata ada_processed;
                cd_original_json := ada_card;
                cd_image_base64 := EmptyString |})].
Proof.
  eexists.
  apply (upload_shows_stored_card sample_message "c" "ard.png" "abc123" "QUJD"
           (Some (json_dumps ada_extraction)) (World empty_store [])
           ada_extraction ada_processed _ "Ada Lovelace-abc123"
           (w_store ada_world)).
  - vm_compute. reflexivity.
  - vm_compute. reflexivity.
  - vm_compute. reflexivity.
  - vm_compute. reflexivity.
  - vm_compute. reflexivity.
  - vm_compute. reflexivity.
  - exists (replicate 4 (Some (metadata ada_processed))).
    split; [vm_compute; reflexivity|].
    split; [discriminate|]. repeat constructor.
Defined.
